(** * ethrpc-gateway: the dispatch router and the wallet wrappers

    A shallow embedding of
      - [src/ethers/server.ts]            (the JSON-RPC dispatch router),
      - [src/lib/conflux/wrapper.ts]      (the epoch-chain wallet wrapper),
      - the claim-chain wallet wrapper    (keyring accounts, claimed EVM
                                           addresses, mock filters),
    followed by the properties established about them. *)

From Stdlib Require Import String Ascii List ZArith Bool Lia.
From Stdlib Require Import DecimalString DecimalZ DecimalPos DecimalFacts HexString.
Import ListNotations.

Local Open Scope string_scope.
Local Open Scope Z_scope.

(* ================================================================== *)
(** ** JavaScript values and the runtime operations the code relies on *)
(* ================================================================== *)

Module Js.

(** The values that travel through the gateway: JSON data plus
    [undefined].  Numbers are the integers (codes, epochs, prices); an
    object is the list of its enumerable own properties in property
    order, with distinct keys, none of which shadows a member of
    [Object.prototype]. *)
#[warnings="-register-all"]
Inductive JsVal : Type :=
| JUndefined
| JNull
| JBool (b : bool)
| JNum (n : Z)
| JStr (s : string)
| JArr (elems : list JsVal)
| JObj (props : list (string * JsVal)).

(** What an awaited call gives back: a value, or a thrown one. *)
Inductive Result (A : Type) : Type :=
| Ok (a : A)
| Thrown (e : JsVal).
Arguments Ok {A} a.
Arguments Thrown {A} e.

(** The double quote and the backslash, by code point. *)
Definition dquote : ascii := ascii_of_nat 34.
Definition backslash : ascii := ascii_of_nat 92.
Definition quoted (s : string) : string :=
  String dquote (s ++ String dquote EmptyString).

(** ToBoolean. *)
Definition truthy (v : JsVal) : bool :=
  match v with
  | JUndefined | JNull => false
  | JBool b => b
  | JNum n => negb (n =? 0)
  | JStr s => negb (String.eqb s "")
  | JArr _ | JObj _ => true
  end.

(** [a || b] and [a && b] on values. *)
Definition jsOr (a b : JsVal) : JsVal := if truthy a then a else b.
Definition jsAnd (a b : JsVal) : JsVal := if truthy a then b else a.

(** The value of an own property, [undefined] when there is none. *)
Fixpoint lookup (k : string) (props : list (string * JsVal)) : JsVal :=
  match props with
  | [] => JUndefined
  | (k', v) :: rest => if String.eqb k k' then v else lookup k rest
  end.

(** [v.k] for a [v] that is neither [null] nor [undefined].  The keys
    read by the code ([code], [data], [reason], [error], [body], the
    fields of a transaction) are not defined on any prototype, so on a
    primitive or an array the read gives [undefined]. *)
Definition getProp (v : JsVal) (k : string) : JsVal :=
  match v with
  | JObj props => lookup k props
  | _ => JUndefined
  end.

(** [null] and [undefined]. *)
Definition nullish (v : JsVal) : bool :=
  match v with
  | JUndefined | JNull => true
  | _ => false
  end.

(** Objects and arrays, as opposed to primitives. *)
Definition isObject (v : JsVal) : bool :=
  match v with
  | JArr _ | JObj _ => true
  | _ => false
  end.

(** A [TypeError] (or [SyntaxError]) instance: it has no enumerable own
    property. *)
Definition TypeError : JsVal := JObj [].
Definition SyntaxError : JsVal := JObj [].

(** Does the object have a property of its own under that key? *)
Definition hasOwn (k : string) (props : list (string * JsVal)) : bool :=
  existsb (fun kv => String.eqb k (fst kv)) props.

(** Can the value be turned into text?  [toString()], a template
    literal and [String.prototype.concat] all end in the [toString] of
    the value.  An object that has a [toString] of its own has it as
    data, which cannot be called: turning it into text throws a
    [TypeError].  The text of an array is made of the texts of its
    elements. *)
Fixpoint printable (v : JsVal) : bool :=
  match v with
  | JArr elems =>
      (fix all (l : list JsVal) : bool :=
         match l with
         | [] => true
         | e :: l' => printable e && all l'
         end) elems
  | JObj props => negb (hasOwn "toString" props)
  | _ => true
  end.

(** The integers on which the arithmetic of the code, done on doubles,
    is that of the integers: the non-negative safe integers. *)
Definition safeNatural (n : Z) : Prop := 0 <= n < 2 ^ 53.

(** [v.k] in general: reading a property of [null] or [undefined]
    throws. *)
Definition readProp (v : JsVal) (k : string) : Result JsVal :=
  if nullish v then Thrown TypeError else Ok (getProp v k).

(** Number.prototype.toString(10) / BigInt.prototype.toString(10). *)
Definition toString10 (n : Z) : string :=
  NilZero.string_of_int (Z.to_int n).

(** toString(16): lowercase digits, no prefix, a leading minus sign. *)
Definition toString16 (n : Z) : string :=
  match n with
  | Z0 => "0"
  | Zpos p => HexString.Raw.of_pos p ""
  | Zneg p => String "-" (HexString.Raw.of_pos p "")
  end.

(** [BigInt(s)] for a decimal literal [s] (an optional minus sign and
    digits), the only strings the code hands to it; [None] stands for
    the [SyntaxError]. *)
Definition BigInt_of_decimal (s : string) : option Z :=
  option_map Z.of_int (NilZero.int_of_string s).

(** Writing a digit [0] after a numeral. *)
Fixpoint appendZero (d : Decimal.uint) : Decimal.uint :=
  match d with
  | Decimal.Nil => Decimal.D0 Decimal.Nil
  | Decimal.D0 d' => Decimal.D0 (appendZero d')
  | Decimal.D1 d' => Decimal.D1 (appendZero d')
  | Decimal.D2 d' => Decimal.D2 (appendZero d')
  | Decimal.D3 d' => Decimal.D3 (appendZero d')
  | Decimal.D4 d' => Decimal.D4 (appendZero d')
  | Decimal.D5 d' => Decimal.D5 (appendZero d')
  | Decimal.D6 d' => Decimal.D6 (appendZero d')
  | Decimal.D7 d' => Decimal.D7 (appendZero d')
  | Decimal.D8 d' => Decimal.D8 (appendZero d')
  | Decimal.D9 d' => Decimal.D9 (appendZero d')
  end.

(** [parts.join(sep)]. *)
Fixpoint join (sep : string) (parts : list string) : string :=
  match parts with
  | [] => ""
  | [p] => p
  | p :: rest => p ++ sep ++ join sep rest
  end.

(** What the runtime contributes and the model does not fix:
    [objectToString] is the answer of [toString()] on an object that
    inherits it (it depends on the prototype: a plain object, an
    [Error]); [JSON_parse] is [JSON.parse] on an arbitrary text, [None]
    standing for the [SyntaxError]; and [arrayLike] is what the engine
    makes of an object that has a [length] of its own when it is passed
    as a list of arguments ([Array.prototype.slice.call] of the object,
    then [apply]), [None] standing for the error it throws when the
    length is out of range or cannot be read as a number. *)
Record Runtime : Type := {
  objectToString : list (string * JsVal) -> string;
  JSON_parse : string -> option JsVal;
  arrayLike : list (string * JsVal) -> option (list JsVal)
}.

Section WithRuntime.
Context (rt : Runtime).

(** ToString, as performed by [toString()] and by template literals. *)
Fixpoint ToString (v : JsVal) : string :=
  match v with
  | JUndefined => "undefined"
  | JNull => "null"
  | JBool true => "true"
  | JBool false => "false"
  | JNum n => toString10 n
  | JStr s => s
  | JArr elems =>
      join "," ((fix each (l : list JsVal) : list string :=
                   match l with
                   | [] => []
                   | e :: l' => (if nullish e then "" else ToString e) :: each l'
                   end) elems)
  | JObj props => objectToString rt props
  end.

(** [v.toString(16)]: the radix only matters to numbers. *)
Definition toStringRadix16 (v : JsVal) : string :=
  match v with
  | JNum n => toString16 n
  | _ => ToString v
  end.

(** Turning a value into text, as the code does it on a value it was
    handed: the text, or the [TypeError]. *)
Definition toText (v : JsVal) : Result string :=
  if printable v then Ok (ToString v) else Thrown TypeError.

End WithRuntime.

(** Strict equality of a string with a value ([===], and the
    SameValueZero of [includes]). *)
Definition isString (s : string) (v : JsVal) : bool :=
  match v with
  | JStr s' => String.eqb s s'
  | _ => false
  end.

(** [list.includes(v)] on a list of strings. *)
Definition includes (l : list string) (v : JsVal) : bool :=
  existsb (fun a => isString a v) l.

(** *** JSON *)

Definition hexDigit (n : nat) : ascii :=
  ascii_of_nat (if Nat.ltb n 10 then 48 + n else 87 + n).

(** The escape of one character inside a JSON string. *)
Definition escapeChar (c : ascii) : string :=
  let n := nat_of_ascii c in
  if Nat.eqb n 34 then String backslash (String dquote "")
  else if Nat.eqb n 92 then String backslash (String backslash "")
  else if Nat.eqb n 8 then String backslash "b"
  else if Nat.eqb n 9 then String backslash "t"
  else if Nat.eqb n 10 then String backslash "n"
  else if Nat.eqb n 12 then String backslash "f"
  else if Nat.eqb n 13 then String backslash "r"
  else if Nat.ltb n 32 then
    String backslash
      ("u00" ++ String (hexDigit (Nat.div n 16)) (String (hexDigit (Nat.modulo n 16)) ""))
  else String c "".

(** The escape of a string. *)
Fixpoint escape (s : string) : string :=
  match s with
  | EmptyString => ""
  | String c s' => escapeChar c ++ escape s'
  end.

(** [JSON.stringify(v)]; [None] is the [undefined] it answers on
    [undefined].  A property whose value is [undefined] is left out, an
    [undefined] array slot is written [null]. *)
Fixpoint JSON_stringify (v : JsVal) : option string :=
  match v with
  | JUndefined => None
  | JNull => Some "null"
  | JBool true => Some "true"
  | JBool false => Some "false"
  | JNum n => Some (toString10 n)
  | JStr s => Some (quoted (escape s))
  | JArr elems =>
      Some ("[" ++ join ","
              ((fix each (l : list JsVal) : list string :=
                  match l with
                  | [] => []
                  | e :: l' =>
                      match JSON_stringify e with
                      | Some t => t
                      | None => "null"
                      end :: each l'
                  end) elems) ++ "]")
  | JObj props =>
      Some ("{" ++ join ","
              ((fix each (l : list (string * JsVal)) : list string :=
                  match l with
                  | [] => []
                  | (k, e) :: l' =>
                      match JSON_stringify e with
                      | Some t => (quoted (escape k) ++ ":" ++ t) :: each l'
                      | None => each l'
                      end
                  end) props) ++ "}")
  end.

(** [JSON.stringify(v)] as a value. *)
Definition stringified (v : JsVal) : JsVal :=
  match JSON_stringify v with
  | Some t => JStr t
  | None => JUndefined
  end.

(** [JSON.parse(JSON.stringify(v))] for a [v] other than [undefined]:
    the copy of [v] that a JSON text can carry. *)
Fixpoint jsonClone (v : JsVal) : JsVal :=
  match v with
  | JArr elems =>
      JArr ((fix each (l : list JsVal) : list JsVal :=
               match l with
               | [] => []
               | e :: l' => (if nullish e then JNull else jsonClone e) :: each l'
               end) elems)
  | JObj props =>
      JObj ((fix each (l : list (string * JsVal)) : list (string * JsVal) :=
               match l with
               | [] => []
               | (k, e) :: l' =>
                   match e with
                   | JUndefined => each l'
                   | _ => (k, jsonClone e) :: each l'
                   end
               end) props)
  | _ => v
  end.

(** The properties of an object literal after a JSON round trip. *)
Definition cloneProps (props : list (string * JsVal)) : list (string * JsVal) :=
  match jsonClone (JObj props) with
  | JObj props' => props'
  | _ => []
  end.

(** The keys of every object are distinct, at every depth. *)
Fixpoint wellFormed (v : JsVal) : Prop :=
  match v with
  | JArr elems =>
      (fix all (l : list JsVal) : Prop :=
         match l with
         | [] => True
         | e :: l' => wellFormed e /\ all l'
         end) elems
  | JObj props =>
      NoDup (map fst props) /\
      (fix all (l : list (string * JsVal)) : Prop :=
         match l with
         | [] => True
         | (_, e) :: l' => wellFormed e /\ all l'
         end) props
  | _ => True
  end.

(** The law of the runtime's JSON: [JSON.parse] reads back the text
    [JSON.stringify] writes for a value, as the JSON copy of the
    value. *)
Definition roundTrips (rt : Runtime) : Prop :=
  forall v text,
    wellFormed v ->
    JSON_stringify v = Some text ->
    JSON_parse rt text = Some (jsonClone v).

(** ASCII lower-casing: [toLowerCase] on the texts made of ASCII
    characters, as hexadecimal addresses are. *)
Definition lowerChar (c : ascii) : ascii :=
  let n := nat_of_ascii c in
  if andb (Nat.leb 65 n) (Nat.leb n 90) then ascii_of_nat (n + 32) else c.

Fixpoint toLowerCase (s : string) : string :=
  match s with
  | EmptyString => ""
  | String c s' => String (lowerChar c) (toLowerCase s')
  end.

(** The texts made of ASCII characters only. *)
Fixpoint isAscii (s : string) : bool :=
  match s with
  | EmptyString => true
  | String c s' => Nat.ltb (nat_of_ascii c) 128 && isAscii s'
  end.

End Js.

Import Js.

(* ================================================================== *)
(** ** The dispatch router ([WalletMiddlewareServer.initialize]) *)
(* ================================================================== *)

Module Server.

(** The parsed request body: the four properties the router reads,
    [undefined] for a missing one. *)
Record Request : Type := {
  id : JsVal;
  jsonrpc : JsVal;
  method : JsVal;
  params : JsVal
}.

(** The connection the request came through, and the provider's request
    counter, from which the socket context is built. *)
Record Connection : Type := {
  remoteAddress : JsVal;
  remotePort : JsVal;
  nextId : JsVal
}.

(** [this.wrapper] as the router sees it: the three methods it binds,
    the upstream [provider.send], and what a member inherited from
    [Object.prototype] answers when bound to the wrapper and called. *)
Record WalletWrapper : Type := {
  getAccounts : list JsVal -> Result JsVal;
  processTransaction : list JsVal -> Result JsVal;
  processEthSignMessage : list JsVal -> Result JsVal;
  provider_send : JsVal -> JsVal -> Result JsVal;
  inherited : string -> list JsVal -> Result JsVal
}.

(** What the router asks of its collaborators. *)
Inductive Event : Type :=
| Handled (handler : string) (args : list JsVal)
| Forwarded (method params : JsVal).

(** The end of a request: a response handed to [res.json], or an
    exception that leaves the route handler with no response sent. *)
Inductive Reply : Type :=
| Sent (response : JsVal)
| Escaped (exception : JsVal).

(** The socket context handed to the handlers and to the logger. *)
Definition socketOf (conn : Connection) (request : Request) : JsVal :=
  JObj [("clientAddr", remoteAddress conn);
        ("clientPort", remotePort conn);
        ("clientId", id request);
        ("serverId", nextId conn)].

(** The keys of the [handlers] literal. *)
Definition handlerNames : list string :=
  ["eth_accounts"; "eth_sendTransaction"; "eth_sign"].

(** The members every object literal inherits from [Object.prototype]. *)
Definition objectPrototypeNames : list string :=
  ["constructor"; "__defineGetter__"; "__defineSetter__"; "hasOwnProperty";
   "__lookupGetter__"; "__lookupSetter__"; "isPrototypeOf";
   "propertyIsEnumerable"; "toString"; "valueOf"; "__proto__";
   "toLocaleString"].

Definition mem (k : string) (l : list string) : bool :=
  existsb (String.eqb k) l.

(** [key in handlers]: own and inherited properties alike. *)
Definition inHandlers (key : string) : bool :=
  mem key handlerNames || mem key objectPrototypeNames.

(** [handlers[key]] bound to the wrapper, for a key that is in
    [handlers]. *)
Definition bound (w : WalletWrapper) (key : string) : list JsVal -> Result JsVal :=
  if String.eqb key "eth_accounts" then getAccounts w
  else if String.eqb key "eth_sendTransaction" then processTransaction w
  else if String.eqb key "eth_sign" then processEthSignMessage w
  else inherited w key.

Fixpoint chars (s : string) : list JsVal :=
  match s with
  | EmptyString => []
  | String c s' => JStr (String c "") :: chars s'
  end.

(** [...v] in a list of arguments, as the build for ES5 has it: the
    elements that [Array.prototype.slice.call(v)] finds.  An array
    gives its elements and a string its characters; a number, a boolean
    and an object without a [length] of its own give none; an object
    with a [length] of its own is read as the engine reads an
    array-like.  [None] is the error thrown ([null] and [undefined]
    cannot be sliced). *)
Definition spread (rt : Runtime) (v : JsVal) : option (list JsVal) :=
  match v with
  | JArr elems => Some elems
  | JStr s => Some (chars s)
  | JObj props => if hasOwn "length" props then arrayLike rt props else Some []
  | JBool _ | JNum _ => Some []
  | JUndefined | JNull => None
  end.

(** The two members every response starts with. *)
Definition header (request : Request) : list (string * JsVal) :=
  [("jsonrpc", jsonrpc request); ("id", id request)].

(** The literal text the router answers with when the error body does
    not parse. *)
Definition invalidJsonResponse : string :=
  "{ " ++ quoted "code" ++ ": -32700, " ++ quoted "message" ++ ": "
       ++ quoted "Invalid JSON response" ++ " }".

Section WithRuntime.
Context (rt : Runtime).

(** The body of the [try]: the call the router makes and its outcome. *)
Definition dispatch (w : WalletWrapper) (socket : JsVal) (request : Request)
  : list Event * Result JsVal :=
  let key := ToString rt (method request) in
  if inHandlers key then
    if String.eqb key "__proto__" then
      (* [handlers.__proto__] is an object: it has no [bind] to call *)
      ([], Thrown TypeError)
    else
      match spread rt (jsOr (params request) (JArr [])) with
      | None => ([], Thrown TypeError)
      | Some args =>
          ([Handled key (args ++ [socket])], bound w key (args ++ [socket]))
      end
  else
    ([Forwarded (method request) (params request)],
     provider_send w (method request) (params request)).

(** The replacement of an exception that has no (truthy) [code]. *)
Definition executionError (exception : JsVal) : JsVal :=
  JObj [("reason", JStr (ToString rt exception));
        ("body",
         JObj [("error",
                JObj [("code", JNum (-32015));
                      ("message",
                       if truthy (getProp exception "data")
                       then JStr "Execution error"
                       else stringified exception);
                      ("data", getProp exception "data")])])].

(** [message] of the [catch] block. *)
Definition messageOf (exception : JsVal) : JsVal :=
  jsOr (jsOr (jsOr (getProp exception "reason")
                   (jsAnd (getProp exception "error")
                          (getProp (getProp exception "error") "reason")))
             exception)
       (JStr "null exception").

(** [body] of the [catch] block, before it is turned into text. *)
Definition bodyOf (exception : JsVal) : JsVal :=
  jsOr (getProp exception "body")
       (if truthy (jsAnd (getProp exception "error")
                         (getProp (getProp exception "error") "body"))
        then getProp (getProp exception "error") "body"
        else JObj [("error",
                    JObj [("code", jsOr (getProp exception "code") (JNum (-32099)));
                          ("message", JStr (quoted (ToString rt (messageOf exception))));
                          ("data", getProp exception "data")])]).

(** [typeof body !== 'string' ? JSON.stringify(body) : body]; [None] is
    the [undefined] that [JSON.stringify] answers on [undefined]. *)
Definition bodyText (body : JsVal) : option string :=
  match body with
  | JStr text => Some text
  | _ => JSON_stringify body
  end.

(** The inner [try]/[catch]: the [error] of the response is
    [JSON.parse(body).error]; when the text does not parse, or parses
    to [null], the fixed text is answered instead. *)
Definition errorOfBody (body : JsVal) : JsVal :=
  match bodyText body with
  | Some text =>
      match JSON_parse rt text with
      | Some parsed =>
          if nullish parsed then JStr invalidJsonResponse
          else getProp parsed "error"
      | None => JStr invalidJsonResponse
      end
  | None => JStr invalidJsonResponse
  end.

(** The exceptions that the [catch] block can turn into text where it
    does so: [exception.toString()] when there is no truthy [code], and
    the template around [message] when there is one and no body is
    found. *)
Definition describable (exception : JsVal) : bool :=
  if truthy (getProp exception "code") then
    if truthy (getProp exception "body") then true
    else if truthy (jsAnd (getProp exception "error")
                          (getProp (getProp exception "error") "body"))
         then true
         else printable (messageOf exception)
  else printable exception.

(** The [catch] block, for an exception it can describe: the [error]
    member of the response, or the [TypeError] raised by
    [exception.code] on [null] and [undefined]. *)
Definition normalize (exception : JsVal) : Result JsVal :=
  if nullish exception then Thrown TypeError
  else
    let exception :=
      if truthy (getProp exception "code") then exception
      else executionError exception in
    Ok (errorOfBody (bodyOf exception)).

(** The route handler.  The first line it logs names the method; it
    is written before the [try], so that a method that cannot be turned
    into text ends the request there. *)
Definition handle (w : WalletWrapper) (conn : Connection) (request : Request)
  : list Event * Reply :=
  let socket := socketOf conn request in
  match toText rt (method request) with
  | Thrown e => ([], Escaped e)
  | Ok _ =>
      let (events, outcome) := dispatch w socket request in
      match outcome with
      | Ok result => (events, Sent (JObj (header request ++ [("result", result)])))
      | Thrown exception =>
          match normalize exception with
          | Ok error => (events, Sent (JObj (header request ++ [("error", error)])))
          | Thrown e => (events, Escaped e)
          end
      end
  end.

End WithRuntime.

(** What [res.json(response)] puts on the wire. *)
Definition wire (response : JsVal) : option string := JSON_stringify response.

(** Does an object carry the key at all? *)
Definition hasKey (k : string) (v : JsVal) : bool :=
  match v with
  | JObj props => mem k (map fst props)
  | _ => false
  end.

End Server.

(* ================================================================== *)
(** ** The epoch-chain wrapper ([lib/conflux/wrapper.ts]) *)
(* ================================================================== *)

Module Conflux.

(** The fields of the wrapper, with the two parts of [this.conflux] that
    are plain data: the addresses held by [conflux.wallet], in insertion
    order, and [conflux.defaultGasPrice]. *)
Record WalletWrapper : Type := {
  networkId : Z;
  defaultGas : Z;
  epochLabel : string;
  estimateGasPrice : bool;
  interleaveEpochs : Z;
  lastKnownEpochNumber : Z;
  alwaysSynced : bool;
  wallet : list string;
  defaultGasPrice : Z
}.

(** The answers of the node (and of the SDK's account object) to the
    calls the wrapper makes. *)
Record Node : Type := {
  getEpochNumber : option string -> Result Z;
  getGasPrice : Result Z;
  getNextNonce : JsVal -> Result Z;
  estimateGasAndCollateral : JsVal -> Result JsVal;
  sendTransaction : JsVal -> Result JsVal;
  signMessage : JsVal -> JsVal -> Result JsVal
}.

(** The calls that reach the node. *)
Inductive Call : Type :=
| GetEpochNumber (label : option string)
| GetGasPrice
| GetNextNonce (from : JsVal)
| EstimateGasAndCollateral (options : JsVal)
| SendTransaction (payload : JsVal)
| GetAccount (address : JsVal)
| SignMessage (address message : JsVal).

(** A computation: the calls made so far and how it ended. *)
Definition M (A : Type) : Type := (list Call * Result A)%type.

Definition ret {A} (a : A) : M A := ([], Ok a).
Definition throw {A} (e : JsVal) : M A := ([], Thrown e).
Definition call {A} (c : Call) (answer : Result A) : M A := ([c], answer).
Definition lift {A} (r : Result A) : M A := ([], r).

Definition bind {A B} (m : M A) (k : A -> M B) : M B :=
  match m with
  | (t, Ok a) => let (t', r) := k a in ((t ++ t')%list, r)
  | (t, Thrown e) => (t, Thrown e)
  end.

(** [try { m } catch (e) { h e }]. *)
Definition catch {A} (m : M A) (h : JsVal -> M A) : M A :=
  match m with
  | (t, Ok a) => (t, Ok a)
  | (t, Thrown e) => let (t', r) := h e in ((t ++ t')%list, r)
  end.

Notation "x <- m ;; k" := (bind m (fun x => k))
  (at level 61, m at next level, right associativity).

(** The lines the rollback check writes to the log. *)
Inductive LogLine : Type :=
| ThreateningRollback (from down_to : Z)
| HarmlessRollback (from down_to : Z).

(** [this.lastKnownEpochNumber = epoch]. *)
Definition observe (w : WalletWrapper) (epoch : Z) : WalletWrapper :=
  {| networkId := networkId w;
     defaultGas := defaultGas w;
     epochLabel := epochLabel w;
     estimateGasPrice := estimateGasPrice w;
     interleaveEpochs := interleaveEpochs w;
     lastKnownEpochNumber := epoch;
     alwaysSynced := alwaysSynced w;
     wallet := wallet w;
     defaultGasPrice := defaultGasPrice w |}.

(** [checkRollbacks]: the log lines, the wrapper afterwards, and the
    epoch returned (or the failure of the epoch query). *)
Definition checkRollbacks (w : WalletWrapper) (node : Node)
  : list LogLine * WalletWrapper * Result Z :=
  match getEpochNumber node (Some (epochLabel w)) with
  | Thrown e => ([], w, Thrown e)
  | Ok epoch =>
      let log :=
        if epoch <? lastKnownEpochNumber w then
          if epoch <=? lastKnownEpochNumber w - interleaveEpochs w
          then [ThreateningRollback (lastKnownEpochNumber w) epoch]
          else [HarmlessRollback (lastKnownEpochNumber w) epoch]
        else [] in
      (log, observe w epoch, Ok epoch)
  end.

(** [createEthBlockFilter]. *)
Definition createEthBlockFilter : Result string := Ok "0x1".

(** The failure thrown for a filter id other than ['0x1']. *)
Definition unsupportedFilter (id : string) : JsVal :=
  let reason := "Unsupported filter " ++ id in
  JObj [("reason", JStr reason);
        ("body", JObj [("code", JNum (-32500)); ("message", JStr reason)])].

(** [getEthFilterChanges]. *)
Definition getEthFilterChanges (node : Node) (id : string) : M Z :=
  if String.eqb id "0x1" then
    call (GetEpochNumber (Some "latest_state"))
         (getEpochNumber node (Some "latest_state"))
  else throw (unsupportedFilter id).

(** [getAccounts]. *)
Definition getAccounts (w : WalletWrapper) : list string := wallet w.

(** [getAccount]: the SDK is asked for the account and the answer is
    dropped; the body has no [return]. *)
Definition getAccount (address : JsVal) : M JsVal :=
  call (GetAccount address) (Ok JUndefined).

Section WithRuntime.
Context (rt : Runtime).

(** The failure thrown when no key is held for an address. *)
Definition noSigningKey (address : JsVal) : JsVal :=
  let reason :=
    "No private key available as to sign messages from '"
      ++ ToString rt address ++ "'" in
  JObj [("reason", JStr reason);
        ("body", JObj [("error", JObj [("code", JNum (-32000));
                                       ("message", JStr reason)])])].

(** [processEthSignMessage].  The message is written to the log before
    the account is looked up, and the address is written into the
    reason of the failure. *)
Definition processEthSignMessage (w : WalletWrapper) (node : Node)
    (address message : JsVal) : M JsVal :=
  if includes (getAccounts w) address then
    _ <- lift (toText rt message) ;;
    account <- getAccount address ;;
    (* account?.signMessage(message) *)
    if nullish account then ret JUndefined
    else call (SignMessage address message) (signMessage node address message)
  else
    _ <- lift (toText rt address) ;;
    throw (noSigningKey address).

(** The failure thrown when the estimated price is over the ceiling. *)
Definition gasPriceExceeded (estimate ceiling : Z) : JsVal :=
  let reason :=
    "Estimated gas price exceeds threshold ("
      ++ toString10 estimate ++ " > " ++ toString10 ceiling ++ ")" in
  JObj [("reason", JStr reason);
        ("body", JObj [("error", JObj [("code", JNum (-32099));
                                       ("message", JStr reason)])])].

(** [to0x]: [value.toString(16)] throws on [null] and [undefined],
    and on a value that cannot be turned into text. *)
Definition to0x (value : JsVal) : Result string :=
  if nullish value then Thrown TypeError
  else if printable value then
    let str := toStringRadix16 rt value in
    Ok (if String.prefix "0x" str then str else "0x" ++ str)
  else Thrown TypeError.

(** The first part of [processTransaction]: the [gasPrice] of the
    transaction. *)
Definition chooseGasPrice (w : WalletWrapper) (node : Node) (params : JsVal)
  : M JsVal :=
  if estimateGasPrice w then
    gasPriceBI <- call GetGasPrice (getGasPrice node) ;;
    if gasPriceBI >? defaultGasPrice w then
      throw (gasPriceExceeded gasPriceBI (defaultGasPrice w))
    else
      match BigInt_of_decimal (toString10 gasPriceBI ++ "0") with
      | Some tenfold => ret (JStr ("0x" ++ toString16 tenfold))
      | None => throw SyntaxError
      end
  else
    given <- lift (readProp params "gasPrice") ;;
    ret (jsOr given (JStr ("0x" ++ toString16 (defaultGasPrice w)))).

(** [processTransaction]. *)
Definition processTransaction (w : WalletWrapper) (node : Node) (params : JsVal)
  : M JsVal :=
  gasPrice <- chooseGasPrice w node params ;;
  from0 <- lift (readProp params "from") ;;
  from <- (if truthy from0 then ret from0
           else if isObject params
                then ret (nth 0%nat (map JStr (getAccounts w)) JUndefined)
                else
                  (* strict mode: no property can be set on a primitive *)
                  throw TypeError) ;;
  current <- call (GetEpochNumber None) (getEpochNumber node None) ;;
  let epoch := current - 1 in
  nonce <- call (GetNextNonce from) (getNextNonce node from) ;;
  let options :=
    [("from", from);
     ("to", getProp params "to");
     ("gasPrice", gasPrice);
     ("value", if truthy (getProp params "value")
               then JStr (toStringRadix16 rt (getProp params "value"))
               else JStr "0x0");
     ("data", jsOr (getProp params "data") JNull);
     ("nonce", JStr ("0x" ++ toString16 nonce));
     ("epochHeight", JStr ("0x" ++ toString16 epoch));
     ("chainId", JStr ("0x" ++ toString16 (networkId w)))] in
  estimation <-
    catch (call (EstimateGasAndCollateral (JObj options))
                (estimateGasAndCollateral node (JObj options)))
          (fun _ => ret (JObj [("storageCollateralized", JNum 0);
                               ("gasLimit", getProp params "gas")])) ;;
  storageLimit <- lift (to0x (getProp estimation "storageCollateralized")) ;;
  gas <- lift (to0x (getProp estimation "gasLimit")) ;;
  let payload :=
    JObj (options ++ [("storageLimit", JStr storageLimit); ("gas", JStr gas)]) in
  call (SendTransaction payload) (sendTransaction node payload).

End WithRuntime.

End Conflux.

(* ================================================================== *)
(** ** The claim-chain wrapper (keyring accounts, claimed addresses) *)
(* ================================================================== *)

Module Reef.

(** A [Signer] is bound to the keyring address it was created for. *)
Record Signer : Type := { substrate : string }.

(** The fields of the wrapper that the modelled methods touch; a keyring
    pair is identified by its address. *)
Record WalletWrapper : Type := {
  accounts : list string;
  keyringPairs : list string;
  numAddresses : nat;
  seedPhrase : string;
  signers : list Signer
}.

(** The wrapper as the constructor leaves it. *)
Definition construct (seed : string) (n : nat) : WalletWrapper :=
  {| accounts := []; keyringPairs := []; numAddresses := n;
     seedPhrase := seed; signers := [] |}.

(** The answers of the chain, of the keyring and of the signers. *)
Record Chain : Type := {
  isReady : Result unit;
  resolveApi : Result unit;
  addFromUri : string -> Result string;
  addKeyringPair : list string -> Result unit;
  isClaimed : string -> Result bool;
  claimDefaultAccount : string -> Result unit;
  getAddress : string -> Result string;
  getBlockNumber : Result Z;
  getTransactionCount : string -> Result JsVal;
  signerSendTransaction : string -> JsVal -> Result JsVal
}.

(** The calls that reach the chain through a signer or the provider. *)
Inductive Call : Type :=
| IsClaimed (who : string)
| ClaimDefaultAccount (who : string)
| GetAddress (who : string)
| GetBlockNumber
| GetTransactionCount (who : string)
| SendTransaction (who : string) (tx : JsVal).

(** A computation over the wrapper: the calls made, the wrapper as it
    is left, and how the computation ended. *)
Definition M (A : Type) : Type :=
  WalletWrapper -> (list Call * WalletWrapper * Result A)%type.

Definition ret {A} (a : A) : M A := fun w => ([], w, Ok a).
Definition throw {A} (e : JsVal) : M A := fun w => ([], w, Thrown e).
Definition call {A} (c : Call) (answer : Result A) : M A :=
  fun w => ([c], w, answer).
Definition lift {A} (r : Result A) : M A := fun w => ([], w, r).
Definition get : M WalletWrapper := fun w => ([], w, Ok w).
Definition put (w' : WalletWrapper) : M unit := fun _ => ([], w', Ok tt).

Definition bind {A B} (m : M A) (k : A -> M B) : M B :=
  fun w =>
    match m w with
    | (t, w1, Ok a) =>
        match k a w1 with
        | (t', w2, r) => ((t ++ t')%list, w2, r)
        end
    | (t, w1, Thrown e) => (t, w1, Thrown e)
    end.

Notation "x <- m ;; k" := (bind m (fun x => k))
  (at level 61, m at next level, right associativity).
Notation "m ;;; k" := (bind m (fun _ => k))
  (at level 61, right associativity).

(** The three pushes at the end of one round of the [setup] loop. *)
Definition pushAccount (evm : string) (signer : Signer) (pair : string) : M unit :=
  w <- get ;;
  put {| accounts := (accounts w ++ [evm])%list;
         keyringPairs := (keyringPairs w ++ [pair])%list;
         numAddresses := numAddresses w;
         seedPhrase := seedPhrase w;
         signers := (signers w ++ [signer])%list |}.

(** [this.seedPhrase = '']. *)
Definition eraseSeedPhrase : M unit :=
  w <- get ;;
  put {| accounts := accounts w;
         keyringPairs := keyringPairs w;
         numAddresses := numAddresses w;
         seedPhrase := "";
         signers := signers w |}.

(** The derivation path of the [j]-th account. *)
Definition uriOf (seed : string) (j : nat) : string :=
  match j with
  | O => seed
  | S j' => seed ++ "//" ++ toString10 (Z.of_nat j')
  end.

(** One round of the loop of [setup]. *)
Definition setupRound (chain : Chain) (j : nat) : M unit :=
  w <- get ;;
  pair <- lift (addFromUri chain (uriOf (seedPhrase w) j)) ;;
  let signer := {| substrate := pair |} in
  claimed <- call (IsClaimed pair) (isClaimed chain pair) ;;
  (if claimed then ret tt
   else
     call (ClaimDefaultAccount pair) (claimDefaultAccount chain pair) ;;;
     call (GetAddress pair) (getAddress chain pair) ;;;
     ret tt) ;;;
  evm <- call (GetAddress pair) (getAddress chain pair) ;;
  pushAccount evm signer pair.

(** [for (let j = ...; j < this.numAddresses; j++)], with [todo] rounds
    left. *)
Fixpoint setupLoop (chain : Chain) (todo j : nat) : M unit :=
  match todo with
  | O => ret tt
  | S todo' => setupRound chain j ;;; setupLoop chain todo' (S j)
  end.

(** [setup]. *)
Definition setup (chain : Chain) : M unit :=
  lift (isReady chain) ;;;
  w <- get ;;
  setupLoop chain (numAddresses w) 0 ;;;
  eraseSeedPhrase ;;;
  w' <- get ;;
  lift (addKeyringPair chain (keyringPairs w')).

(** [getAccounts]. *)
Definition getAccounts (w : WalletWrapper) : list string := accounts w.

Section WithRuntime.
Context (rt : Runtime).

(** The failure thrown when no signer answers to an address. *)
Definition noSigningKey (evmAddress : JsVal) : JsVal :=
  let reason :=
    "No private key available as to sign messages from '"
      ++ ToString rt evmAddress ++ "'" in
  JObj [("reason", JStr reason);
        ("body", JObj [("error", JObj [("code", JNum (-32000));
                                       ("message", JStr reason)])])].

(** The loop of [getSignerFromEvmAddress] over the signers left. *)
Fixpoint findSigner (chain : Chain) (evmAddress : JsVal) (rest : list Signer)
  : M Signer :=
  match rest with
  | [] =>
      (* the reason names the address *)
      _ <- lift (toText rt evmAddress) ;;
      throw (noSigningKey evmAddress)
  | signer :: rest' =>
      addr <- call (GetAddress (substrate signer))
                   (getAddress chain (substrate signer)) ;;
      match evmAddress with
      | JStr wanted =>
          if String.eqb (toLowerCase addr) (toLowerCase wanted)
          then ret signer
          else findSigner chain evmAddress rest'
      | _ =>
          (* [evmAddress.toLowerCase] is not a function *)
          throw TypeError
      end
  end.

(** [getSignerFromEvmAddress]. *)
Definition getSignerFromEvmAddress (chain : Chain) (evmAddress : JsVal)
  : M Signer :=
  w <- get ;;
  findSigner chain evmAddress (signers w).

(** The [tx] literal of [composeTransaction]: the canonical request,
    field by field. *)
Definition composed (params : JsVal) : list (string * JsVal) :=
  [("from", getProp params "from");
   ("to", getProp params "to");
   ("value", getProp params "value");
   ("data", getProp params "data");
   ("nonce", getProp params "nonce");
   ("gasLimit", getProp params "gas");
   ("gasPrice", getProp params "gasPrice")].

(** A field that a log line writes when it is truthy (or in place of
    which it writes a fixed text): can the line be written? *)
Definition writes (v : JsVal) : bool :=
  if truthy v then printable v else true.

(** The fields that the log lines of [composeTransaction] write, in the
    order of the lines. *)
Definition logged : list string :=
  ["from"; "to"; "data"; "value"; "gasPrice"; "gasLimit"].

(** Can these lines be written? *)
Definition loggable (tx : list (string * JsVal)) : bool :=
  forallb (fun k => writes (lookup k tx)) logged.

(** [composeTransaction]: the literal, then the log lines. *)
Definition composeTransaction (params : JsVal)
  : M (list (string * JsVal)) :=
  _ <- lift (readProp params "from") ;;
  let tx := composed params in
  if loggable tx then ret tx else throw TypeError.

(** [tx[k] = v]: the field keeps its place when it is there already. *)
Fixpoint setField (k : string) (v : JsVal) (props : list (string * JsVal))
  : list (string * JsVal) :=
  match props with
  | [] => [(k, v)]
  | (k', v') :: rest =>
      if String.eqb k k' then (k, v) :: rest else (k', v') :: setField k v rest
  end.

(** [sendTransaction]; the nonce is written to the log before the
    transaction goes to the signer. *)
Definition sendTransaction (chain : Chain) (params : JsVal) : M JsVal :=
  lift (resolveApi chain) ;;;
  tx <- composeTransaction params ;;
  signer <- getSignerFromEvmAddress chain (jsOr (lookup "from" tx) (JStr "")) ;;
  from <- call (GetAddress (substrate signer))
               (getAddress chain (substrate signer)) ;;
  let tx := setField "from" (JStr from) tx in
  tx <- (if truthy (lookup "nonce" tx) then ret tx
         else
           count <- call (GetTransactionCount (substrate signer))
                         (getTransactionCount chain (substrate signer)) ;;
           ret (setField "nonce" count tx)) ;;
  lift (toText rt (lookup "nonce" tx)) ;;;
  res <- call (SendTransaction (substrate signer) (JObj tx))
              (signerSendTransaction chain (substrate signer) (JObj tx)) ;;
  lift (readProp res "hash").

End WithRuntime.

(** [mockCreateBlockFilter]. *)
Definition mockCreateBlockFilter : Result string := Ok "0x1".

(** [mockGetFilterChanges]: the id is only logged. *)
Definition mockGetFilterChanges (chain : Chain) (id : string) : M JsVal :=
  number <- call GetBlockNumber (getBlockNumber chain) ;;
  ret (JArr [JNum number]).

End Reef.

(* ================================================================== *)
(** ** Signers and accounts of the claim-chain wrapper *)
(* ================================================================== *)

Module Gateway.

(** The signers of a claim-chain wrapper answer, in order, to the
    addresses listed in [accounts]. *)
Definition consistent (chain : Reef.Chain) (w : Reef.WalletWrapper) : Prop :=
  Forall2 (fun signer account =>
             Reef.getAddress chain (Reef.substrate signer) = Ok account)
          (Reef.signers w) (Reef.accounts w).

End Gateway.

(* ================================================================== *)
(** ** A reference runtime, to run the model on examples *)
(* ================================================================== *)

Module Reference.

(** The white space of JSON: space, tab, line feed, carriage return. *)
Definition isWhitespace (c : ascii) : bool :=
  let n := nat_of_ascii c in
  Nat.eqb n 32 || Nat.eqb n 9 || Nat.eqb n 10 || Nat.eqb n 13.

Fixpoint skipWs (s : string) : string :=
  match s with
  | String c s' => if isWhitespace c then skipWs s' else s
  | EmptyString => s
  end.

Definition isDigit (c : ascii) : bool :=
  let n := nat_of_ascii c in Nat.leb 48 n && Nat.leb n 57.

(** The longest prefix of digits, and what follows it. *)
Fixpoint digits (s : string) : string * string :=
  match s with
  | String c s' =>
      if isDigit c then let (d, rest) := digits s' in (String c d, rest)
      else ("", s)
  | EmptyString => ("", s)
  end.

(** An integer literal; a fraction or an exponent is outside the
    numbers of the model and is refused. *)
Definition parseNumber (s : string) : option (JsVal * string) :=
  let (sign, s1) :=
    match s with
    | String "-" s' => ("-", s')
    | _ => ("", s)
    end in
  let (d, rest) := digits s1 in
  match d, rest with
  | EmptyString, _ => None
  | String "0" (String _ _), _ => None
  | _, String "." _ | _, String "e" _ | _, String "E" _ => None
  | _, _ =>
      match BigInt_of_decimal (sign ++ d) with
      | Some n => Some (JNum n, rest)
      | None => None
      end
  end.

Definition hexValue (c : ascii) : option nat :=
  option_map N.to_nat (HexString.ascii_to_digit c).

(** The characters of a string literal, after the opening quote. *)
Fixpoint parseChars (s : string) : option (string * string) :=
  match s with
  | EmptyString => None
  | String c s' =>
      let n := nat_of_ascii c in
      if Nat.eqb n 34 then Some ("", s')
      else if Nat.ltb n 32 then None
      else if Nat.eqb n 92 then
        match s' with
        | String e s'' =>
            let plain (c' : ascii) :=
              match parseChars s'' with
              | Some (t, rest) => Some (String c' t, rest)
              | None => None
              end in
            let m := nat_of_ascii e in
            if Nat.eqb m 34 then plain dquote
            else if Nat.eqb m 92 then plain backslash
            else if Nat.eqb m 47 then plain "/"%char
            else if Nat.eqb m 98 then plain (ascii_of_nat 8)
            else if Nat.eqb m 116 then plain (ascii_of_nat 9)
            else if Nat.eqb m 110 then plain (ascii_of_nat 10)
            else if Nat.eqb m 102 then plain (ascii_of_nat 12)
            else if Nat.eqb m 114 then plain (ascii_of_nat 13)
            else if Nat.eqb m 117 then
              match s'' with
              | String h1 (String h2 (String h3 (String h4 s3))) =>
                  match hexValue h1, hexValue h2, hexValue h3, hexValue h4 with
                  | Some 0%nat, Some 0%nat, Some a, Some b =>
                      match parseChars s3 with
                      | Some (t, rest) =>
                          Some (String (ascii_of_nat (16 * a + b)) t, rest)
                      | None => None
                      end
                  | _, _, _, _ => None
                  end
              | _ => None
              end
            else None
        | EmptyString => None
        end
      else
        match parseChars s' with
        | Some (t, rest) => Some (String c t, rest)
        | None => None
        end
  end.

(** A key read twice keeps its first place and its last value. *)
Fixpoint setMember (k : string) (v : JsVal) (props : list (string * JsVal))
  : list (string * JsVal) :=
  match props with
  | [] => [(k, v)]
  | (k', v') :: rest =>
      if String.eqb k k' then (k, v) :: rest else (k', v') :: setMember k v rest
  end.

Section Loops.
(** The parser of one value, for the elements of an array and the
    members of an object. *)
Variable parseOne : string -> option (JsVal * string).

(** The elements of an array, after the opening bracket or a comma. *)
Fixpoint elements (n : nat) (s : string) (acc : list JsVal)
  : option (JsVal * string) :=
  match n with
  | O => None
  | S n' =>
      match parseOne s with
      | Some (v, rest) =>
          match skipWs rest with
          | String "," rest' => elements n' rest' (acc ++ [v])%list
          | String "]" rest' => Some (JArr (acc ++ [v]), rest')
          | _ => None
          end
      | None => None
      end
  end.

(** The members of an object, after the opening brace or a comma. *)
Fixpoint members (n : nat) (s : string) (acc : list (string * JsVal))
  : option (JsVal * string) :=
  match n with
  | O => None
  | S n' =>
      match skipWs s with
      | String q s1 =>
          if Nat.eqb (nat_of_ascii q) 34 then
            match parseChars s1 with
            | Some (k, s2) =>
                match skipWs s2 with
                | String ":" s3 =>
                    match parseOne s3 with
                    | Some (v, rest) =>
                        match skipWs rest with
                        | String "," rest' => members n' rest' (setMember k v acc)
                        | String "}" rest' => Some (JObj (setMember k v acc), rest')
                        | _ => None
                        end
                    | None => None
                    end
                | _ => None
                end
            | None => None
            end
          else None
      | EmptyString => None
      end
  end.

End Loops.

(** One JSON value at the head of the text, and what follows it. *)
Fixpoint parseValue (fuel : nat) (s : string) : option (JsVal * string) :=
  match fuel with
  | O => None
  | S fuel' =>
      match skipWs s with
      | String "[" rest =>
          match skipWs rest with
          | String "]" rest' => Some (JArr [], rest')
          | _ => elements (parseValue fuel') fuel' rest []
          end
      | String "{" rest =>
          match skipWs rest with
          | String "}" rest' => Some (JObj [], rest')
          | _ => members (parseValue fuel') fuel' rest []
          end
      | String "t" (String "r" (String "u" (String "e" rest))) =>
          Some (JBool true, rest)
      | String "f" (String "a" (String "l" (String "s" (String "e" rest)))) =>
          Some (JBool false, rest)
      | String "n" (String "u" (String "l" (String "l" rest))) =>
          Some (JNull, rest)
      | String c rest =>
          if Nat.eqb (nat_of_ascii c) 34 then
            match parseChars rest with
            | Some (t, rest') => Some (JStr t, rest')
            | None => None
            end
          else parseNumber (String c rest)
      | EmptyString => None
      end
  end.

(** A whole text: one value and nothing but white space after it. *)
Definition parse (s : string) : option JsVal :=
  match parseValue (S (String.length s)) s with
  | Some (v, rest) =>
      match skipWs rest with
      | EmptyString => Some v
      | _ => None
      end
  | None => None
  end.

(** The elements of an object whose [length] is a number: the
    properties named by the indices below it, [undefined] where there
    is none.  This runtime reads no other [length]: it takes it for
    zero. *)
Definition elementsOf (props : list (string * JsVal)) : option (list JsVal) :=
  match lookup "length" props with
  | JNum n =>
      Some (map (fun i => lookup (toString10 (Z.of_nat i)) props)
                (seq 0 (Z.to_nat n)))
  | _ => Some []
  end.

(** The runtime of the examples: plain objects, a JSON parser for texts
    with integer numbers, and array-likes with a numeric length. *)
Definition runtime : Runtime :=
  {| objectToString := fun _ => "[object Object]";
     JSON_parse := parse;
     arrayLike := elementsOf |}.

End Reference.

(* ================================================================== *)
(** ** JSON texts: what is written, and the fuel to read it back *)
(* ================================================================== *)

Module Json.

(** What may follow a value inside a JSON text. *)
Definition follower (rest : string) : Prop :=
  match rest with
  | EmptyString => True
  | String c _ => c = ","%char \/ c = "]"%char \/ c = "}"%char
  end.

(** The first character of the text of a value: no white space, and
    not a closing bracket or brace. *)
Definition opens (text : string) : Prop :=
  match text with
  | EmptyString => False
  | String c _ =>
      Reference.isWhitespace c = false /\ c <> "]"%char /\ c <> "}"%char
  end.

(** The text of an array element: [null] for [undefined]. *)
Definition elemText (e : JsVal) : string :=
  match JSON_stringify e with Some t => t | None => "null" end.
(** The JSON copy of an array element. *)
Definition elemClone (e : JsVal) : JsVal :=
  if nullish e then JNull else jsonClone e.
(** The members of an object that are written: those with a value. *)
Definition printed (props : list (string * JsVal)) : list (string * JsVal) :=
  filter (fun kv => match snd kv with JUndefined => false | _ => true end) props.
(** The text of a member: the quoted key, a colon, the value. *)
Definition memberText (kv : string * JsVal) : string :=
  quoted (escape (fst kv)) ++ ":" ++ elemText (snd kv).
(** The JSON copy of a member. *)
Definition memberClone (kv : string * JsVal) : string * JsVal :=
  (fst kv, jsonClone (snd kv)).

(** The number of values written for a value: the fuel its text needs. *)
Fixpoint weight (v : JsVal) : nat :=
  match v with
  | JArr elems =>
      S ((fix sum (l : list JsVal) : nat :=
            match l with
            | [] => O
            | e :: l' => (weight e + sum l')%nat
            end) elems)
  | JObj props =>
      S ((fix sum (l : list (string * JsVal)) : nat :=
            match l with
            | [] => O
            | (_, e) :: l' =>
                match e with
                | JUndefined => sum l'
                | _ => (weight e + sum l')%nat
                end
            end) props)
  | _ => 1%nat
  end.

(** Induction over values, with the induction hypothesis on every
    element and member. *)
Section JsVal_induction.
Variable P : JsVal -> Prop.
Hypothesis Hundefined : P JUndefined.
Hypothesis Hnull : P JNull.
Hypothesis Hbool : forall b, P (JBool b).
Hypothesis Hnum : forall n, P (JNum n).
Hypothesis Hstr : forall s, P (JStr s).
Hypothesis Harr : forall elems, Forall P elems -> P (JArr elems).
Hypothesis Hobj :
  forall props, Forall (fun kv => P (snd kv)) props -> P (JObj props).

Fixpoint JsVal_nested_ind (v : JsVal) : P v :=
  match v with
  | JUndefined => Hundefined
  | JNull => Hnull
  | JBool b => Hbool b
  | JNum n => Hnum n
  | JStr s => Hstr s
  | JArr elems =>
      Harr elems
        ((fix go (l : list JsVal) : Forall P l :=
            match l with
            | [] => Forall_nil P
            | e :: l' => Forall_cons e (JsVal_nested_ind e) (go l')
            end) elems)
  | JObj props =>
      Hobj props
        ((fix go (l : list (string * JsVal))
            : Forall (fun kv => P (snd kv)) l :=
            match l with
            | [] => Forall_nil _
            | kv :: l' =>
                Forall_cons (P := fun kv => P (snd kv)) kv
                  (JsVal_nested_ind (snd kv)) (go l')
            end) props)
  end.
End JsVal_induction.

End Json.

(* ================================================================== *)
(** ** Sample inputs *)
(* ================================================================== *)

Module Samples.

(** An epoch-chain wrapper that has seen epoch 100 and tolerates 5. *)
Definition confluxWrapper : Conflux.WalletWrapper :=
  {| Conflux.networkId := 1;
     Conflux.defaultGas := 21000;
     Conflux.epochLabel := "latest_state";
     Conflux.estimateGasPrice := true;
     Conflux.interleaveEpochs := 5;
     Conflux.lastKnownEpochNumber := 100;
     Conflux.alwaysSynced := false;
     Conflux.wallet := ["0xAB"; "0xCD"];
     Conflux.defaultGasPrice := 5 |}.

(** A node at a given epoch that quotes a given gas price. *)
Definition confluxNode (epoch price : Z) : Conflux.Node :=
  {| Conflux.getEpochNumber := fun _ => Ok epoch;
     Conflux.getGasPrice := Ok price;
     Conflux.getNextNonce := fun _ => Ok 7;
     Conflux.estimateGasAndCollateral := fun _ =>
       Ok (JObj [("gasLimit", JNum 21000); ("storageCollateralized", JNum 0)]);
     Conflux.sendTransaction := fun _ => Ok (JStr "0xfeed");
     Conflux.signMessage := fun _ _ => Ok (JStr "0x5161") |}.

(** A claim chain on which every identity is claimed already; the
    keyring answers the address [5]+uri, the EVM address of an identity
    is a fixed function of it. *)
Definition reefChain (ready : Result unit) : Reef.Chain :=
  {| Reef.isReady := ready;
     Reef.resolveApi := Ok tt;
     Reef.addFromUri := fun uri => Ok ("5" ++ uri);
     Reef.addKeyringPair := fun _ => Ok tt;
     Reef.isClaimed := fun _ => Ok true;
     Reef.claimDefaultAccount := fun _ => Ok tt;
     Reef.getAddress := fun who => Ok ("0xAbCd" ++ who);
     Reef.getBlockNumber := Ok 7;
     Reef.getTransactionCount := fun _ => Ok (JNum 3);
     Reef.signerSendTransaction := fun _ _ => Ok (JObj [("hash", JStr "0xfeed")]) |}.

(** A claim-chain wrapper holding one signer, whose address is
    [0xAbCd01]. *)
Definition reefWrapper : Reef.WalletWrapper :=
  {| Reef.accounts := ["0xAbCd01"];
     Reef.keyringPairs := ["01"];
     Reef.numAddresses := 1;
     Reef.seedPhrase := "";
     Reef.signers := [ {| Reef.substrate := "01" |} ] |}.

(** What the sample node is sent when it quotes the price 5. *)
Definition submittedPayload : JsVal :=
  JObj [("from", JStr "0xAB"); ("to", JStr "0x01");
        ("gasPrice", JStr "0x32"); ("value", JStr "0x10");
        ("data", JNull); ("nonce", JStr "0x7");
        ("epochHeight", JStr "0x64"); ("chainId", JStr "0x1");
        ("storageLimit", JStr "0x0"); ("gas", JStr "0x5208")].

(** A transaction that names its sender. *)
Definition transfer (from : string) : JsVal :=
  JObj [("from", JStr from); ("to", JStr "0x01"); ("value", JStr "0x10")].

(** A wallet wrapper for the router whose every member answers with the
    same outcome. *)
Definition constantWrapper (outcome : Result JsVal) : Server.WalletWrapper :=
  {| Server.getAccounts := fun _ => outcome;
     Server.processTransaction := fun _ => outcome;
     Server.processEthSignMessage := fun _ => outcome;
     Server.provider_send := fun _ _ => outcome;
     Server.inherited := fun _ _ => outcome |}.

Definition connection : Server.Connection :=
  {| Server.remoteAddress := JStr "127.0.0.1";
     Server.remotePort := JNum 50000;
     Server.nextId := JNum 42 |}.

Definition request (method : string) (params : JsVal) : Server.Request :=
  {| Server.id := JNum 1;
     Server.jsonrpc := JStr "2.0";
     Server.method := JStr method;
     Server.params := params |}.

End Samples.

(* ================================================================== *)
(** ** The epoch-chain wrapper: calls, estimates and status *)
(* ================================================================== *)

Module ConfluxReads.

(** The answers of the SDK to the two calls made by [call] and by
    [getSyncingStatus]. *)
Record Sdk : Type := {
  conflux_call : JsVal -> Z -> Result JsVal;
  getStatus : Result JsVal
}.

(** The calls that reach the node from [call] and [getSyncingStatus]. *)
Inductive Call : Type :=
| GetEpochNumber (label : string)
| ConfluxCall (tx : JsVal) (epoch : Z)
| GetStatus.

(** [tx[k] = v] on an object. *)
Definition setProp (k : string) (v : JsVal) (props : list (string * JsVal))
  : list (string * JsVal) :=
  Reef.setField k v props.

(** The fields of the transaction that [call] writes to the log when
    they are truthy, in the order of the lines. *)
Definition logged : list string :=
  ["from"; "to"; "data"; "nonce"; "value"; "gas"; "gasPrice"; "storageLimit";
   "chainId"].

(** Can these lines be written? *)
Definition loggable (tx : list (string * JsVal)) : bool :=
  forallb (fun k => Reef.writes (lookup k tx)) logged.

(** [call]: the transaction is an object, as its type says; the [epoch]
    the caller passes is overwritten before it is read; the fields of
    the transaction are written to the log before it goes to the node.
    Epochs are taken among the safe integers, where the subtraction on
    doubles is exact. *)
Definition call (w : Conflux.WalletWrapper) (node : Conflux.Node) (sdk : Sdk)
    (tx : list (string * JsVal)) (epoch : JsVal)
  : list Conflux.LogLine * list Call * Conflux.WalletWrapper * Result JsVal :=
  match Conflux.checkRollbacks w node with
  | (log, w', Thrown e) =>
      (log, [GetEpochNumber (Conflux.epochLabel w)], w', Thrown e)
  | (log, w', Ok _) =>
      let epoch :=
        Conflux.lastKnownEpochNumber w' - Conflux.interleaveEpochs w' in
      let tx :=
        if truthy (lookup "from" tx) then tx
        else setProp "from"
               (nth 0%nat (map JStr (Conflux.getAccounts w')) JUndefined) tx in
      if loggable tx then
        (log,
         [GetEpochNumber (Conflux.epochLabel w); ConfluxCall (JObj tx) epoch],
         w', conflux_call sdk (JObj tx) epoch)
      else
        (log, [GetEpochNumber (Conflux.epochLabel w)], w', Thrown TypeError)
  end.

(** [getNetworkId]. *)
Definition getNetworkId (w : Conflux.WalletWrapper) : Z :=
  if Conflux.networkId w =? 1 then 70 else Conflux.networkId w.

(** [processChainId]. *)
Definition processChainId (w : Conflux.WalletWrapper) : string :=
  "0x" ++ toString16 (getNetworkId w).

Section WithRuntime.
Context (rt : Runtime).

(** [estimateGas]. *)
Definition estimateGas (node : Conflux.Node) (params : JsVal)
  : Conflux.M string :=
  Conflux.bind
    (Conflux.call (Conflux.EstimateGasAndCollateral params)
                  (Conflux.estimateGasAndCollateral node params))
    (fun res =>
       Conflux.bind (Conflux.lift (readProp res "gasLimit"))
         (fun gasLimit =>
            if nullish gasLimit then Conflux.throw TypeError
            else if printable gasLimit
                 then Conflux.ret ("0x" ++ toStringRadix16 rt gasLimit)
                 else Conflux.throw TypeError)).

(** ['0x' + status.k.toString(16)]. *)
Definition hexOf (status : JsVal) (k : string) : Result string :=
  match readProp status k with
  | Thrown e => Thrown e
  | Ok v =>
      if nullish v then Thrown TypeError
      else if printable v then Ok ("0x" ++ toStringRadix16 rt v)
      else Thrown TypeError
  end.

(** The body of the [try] of [getSyncingStatus], once the status is
    there. *)
Definition syncingOf (status : JsVal) : Result JsVal :=
  match hexOf status "latestCheckpoint" with
  | Thrown e => Thrown e
  | Ok startingBlock =>
      match hexOf status "latestConfirmed" with
      | Thrown e => Thrown e
      | Ok currentBlock =>
          match hexOf status "epochNumber" with
          | Thrown e => Thrown e
          | Ok highestBlock =>
              Ok (JObj [("startingBlock", JStr startingBlock);
                        ("currentBlock", JStr currentBlock);
                        ("highestBlock", JStr highestBlock)])
          end
      end
  end.

(** [getSyncingStatus]. *)
Definition getSyncingStatus (w : Conflux.WalletWrapper) (sdk : Sdk)
  : list Call * Result JsVal :=
  if Conflux.alwaysSynced w then ([], Ok (JBool false))
  else
    let attempt :=
      match getStatus sdk with
      | Thrown e => Thrown e
      | Ok status => syncingOf status
      end in
    ([GetStatus],
     match attempt with
     | Ok answer => Ok answer
     | Thrown _ => Ok (JBool false)
     end).

End WithRuntime.

End ConfluxReads.

(* ================================================================== *)
(** ** The epoch-chain wrapper: the parts of a submitted transaction *)
(* ================================================================== *)

Module ConfluxPayload.

Section WithRuntime.
Context (rt : Runtime).

(** The [options] literal of [processTransaction], given the gas price
    chosen, the sender, the nonce and the current epoch. *)
Definition options (w : Conflux.WalletWrapper) (params gasPrice from : JsVal)
    (nonce current : Z) : list (string * JsVal) :=
  [("from", from);
   ("to", getProp params "to");
   ("gasPrice", gasPrice);
   ("value", if truthy (getProp params "value")
             then JStr (toStringRadix16 rt (getProp params "value"))
             else JStr "0x0");
   ("data", jsOr (getProp params "data") JNull);
   ("nonce", JStr ("0x" ++ toString16 nonce));
   ("epochHeight", JStr ("0x" ++ toString16 (current - 1)));
   ("chainId", JStr ("0x" ++ toString16 (Conflux.networkId w)))].

End WithRuntime.

(** The estimation assumed in the [catch] of [processTransaction]. *)
Definition assumed (params : JsVal) : JsVal :=
  JObj [("storageCollateralized", JNum 0); ("gasLimit", getProp params "gas")].

(** [params.from], or else the first account of the wallet. *)
Definition sender (w : Conflux.WalletWrapper) (params : JsVal) : JsVal :=
  jsOr (getProp params "from")
       (nth 0%nat (map JStr (Conflux.getAccounts w)) JUndefined).

End ConfluxPayload.

(* ================================================================== *)
(** ** More sample inputs *)
(* ================================================================== *)

Module MoreSamples.

(** An SDK whose [call] answers a fixed value and whose status names the
    three epochs 90, 95 and 101. *)
Definition sdk : ConfluxReads.Sdk :=
  {| ConfluxReads.conflux_call := fun _ _ => Ok (JStr "0x2a");
     ConfluxReads.getStatus :=
       Ok (JObj [("latestCheckpoint", JNum 90);
                 ("latestConfirmed", JNum 95);
                 ("epochNumber", JNum 101)]) |}.

(** An epoch-chain wrapper that leaves the gas price to the caller. *)
Definition callerPricedWrapper : Conflux.WalletWrapper :=
  {| Conflux.networkId := 1029;
     Conflux.defaultGas := 21000;
     Conflux.epochLabel := "latest_state";
     Conflux.estimateGasPrice := false;
     Conflux.interleaveEpochs := 5;
     Conflux.lastKnownEpochNumber := 100;
     Conflux.alwaysSynced := true;
     Conflux.wallet := ["0xAB"; "0xCD"];
     Conflux.defaultGasPrice := 5 |}.

(** A node on which the cost estimation fails. *)
Definition blindNode : Conflux.Node :=
  {| Conflux.getEpochNumber := fun _ => Ok 101;
     Conflux.getGasPrice := Ok 5;
     Conflux.getNextNonce := fun _ => Ok 7;
     Conflux.estimateGasAndCollateral := fun _ => Thrown (JStr "reverted");
     Conflux.sendTransaction := fun _ => Ok (JStr "0xfeed");
     Conflux.signMessage := fun _ _ => Ok (JStr "0x5161") |}.

(** A claim chain on which no identity is claimed yet. *)
Definition unclaimedChain : Reef.Chain :=
  {| Reef.isReady := Ok tt;
     Reef.resolveApi := Ok tt;
     Reef.addFromUri := fun uri => Ok ("5" ++ uri);
     Reef.addKeyringPair := fun _ => Ok tt;
     Reef.isClaimed := fun _ => Ok false;
     Reef.claimDefaultAccount := fun _ => Ok tt;
     Reef.getAddress := fun who => Ok ("0xAbCd" ++ who);
     Reef.getBlockNumber := Ok 7;
     Reef.getTransactionCount := fun _ => Ok (JNum 3);
     Reef.signerSendTransaction := fun _ _ => Ok (JObj [("hash", JStr "0xfeed")]) |}.

(** A claim-chain wrapper holding two signers. *)
Definition twoSigners : Reef.WalletWrapper :=
  {| Reef.accounts := ["0xAbCd01"; "0xAbCd02"];
     Reef.keyringPairs := ["01"; "02"];
     Reef.numAddresses := 2;
     Reef.seedPhrase := "";
     Reef.signers := [ {| Reef.substrate := "01" |};
                       {| Reef.substrate := "02" |} ] |}.

(** A transfer whose value is a number, from nobody in particular. *)
Definition numericTransfer : JsVal :=
  JObj [("to", JStr "0x01"); ("value", JNum 16); ("gas", JNum 21000)].

(** What the sample node is sent for it when it quotes the price 5. *)
Definition numericPayload : JsVal :=
  JObj [("from", JStr "0xAB"); ("to", JStr "0x01");
        ("gasPrice", JStr "0x32"); ("value", JStr "10");
        ("data", JNull); ("nonce", JStr "0x7");
        ("epochHeight", JStr "0x64"); ("chainId", JStr "0x1");
        ("storageLimit", JStr "0x0"); ("gas", JStr "0x5208")].

(** The options estimated for [Samples.transfer] from [0xAB]. *)
Definition estimatedOptions : JsVal :=
  JObj [("from", JStr "0xAB"); ("to", JStr "0x01");
        ("gasPrice", JStr "0x32"); ("value", JStr "0x10");
        ("data", JNull); ("nonce", JStr "0x7");
        ("epochHeight", JStr "0x64"); ("chainId", JStr "0x1")].

(** A transfer that names its gas price and its gas. *)
Definition pricedTransfer : JsVal :=
  JObj [("from", JStr "0xCD"); ("to", JStr "0x01"); ("gasPrice", JStr "0x77");
        ("gas", JNum 21000)].

(** The options and the payload composed for it on network 1029 at
    epoch 101. *)
Definition pricedOptions : JsVal :=
  JObj [("from", JStr "0xCD"); ("to", JStr "0x01");
        ("gasPrice", JStr "0x77"); ("value", JStr "0x0");
        ("data", JNull); ("nonce", JStr "0x7");
        ("epochHeight", JStr "0x64"); ("chainId", JStr "0x405")].

Definition pricedPayload : JsVal :=
  JObj [("from", JStr "0xCD"); ("to", JStr "0x01");
        ("gasPrice", JStr "0x77"); ("value", JStr "0x0");
        ("data", JNull); ("nonce", JStr "0x7");
        ("epochHeight", JStr "0x64"); ("chainId", JStr "0x405");
        ("storageLimit", JStr "0x0"); ("gas", JStr "0x5208")].

(** An exception that brings the body of its answer. *)
Definition bodiedException : JsVal :=
  JObj [("code", JNum 3);
        ("reason", JStr "ignored");
        ("body", JObj [("error", JObj [("code", JNum (-32000));
                                       ("message", JStr "nope")])])].

End MoreSamples.

(* ================================================================== *)
(** ** Facts about the runtime operations *)
(* ================================================================== *)

Lemma appendZero_app (d : Decimal.uint) :
  appendZero d = Decimal.app d (Decimal.D0 Decimal.Nil).
Proof.
  apply to_list_inj. rewrite app_spec. simpl.
  induction d; simpl; try rewrite IHd; reflexivity.
Qed.

(** A digit [0] written after a numeral multiplies its value by ten. *)
Lemma appendZero_tenfold (d : Decimal.uint) :
  Z.of_uint (appendZero d) = 10 * Z.of_uint d.
Proof.
  rewrite appendZero_app.
  exact (of_uint_iter_D0 d 1).
Qed.

(** Reading the text of a numeral followed by [0]. *)
Lemma uint_of_string_appendZero (d : Decimal.uint) :
  NilEmpty.uint_of_string (NilEmpty.string_of_uint d ++ "0")
  = Some (appendZero d).
Proof.
  induction d; simpl; try rewrite IHd; reflexivity.
Qed.

(** The text of a numeral with a digit starts with a character other
    than the minus sign. *)
Lemma string_of_uint_head (d : Decimal.uint) :
  d <> Decimal.Nil ->
  exists c s, NilEmpty.string_of_uint d = String c s /\ Ascii.eqb c "-" = false.
Proof.
  destruct d; intros H; try congruence; simpl; eexists; eexists; split;
    try reflexivity; reflexivity.
Qed.

(** The same, for the texts in which the empty numeral reads [0]. *)
Lemma parse_uint_appendZero (d : Decimal.uint) :
  d <> Decimal.Nil ->
  NilZero.uint_of_string (NilZero.string_of_uint d ++ "0") = Some (appendZero d).
Proof.
  intros H.
  destruct (string_of_uint_head d H) as (c & s & E & _).
  assert (E' : NilZero.string_of_uint d = NilEmpty.string_of_uint d)
    by (destruct d; congruence || reflexivity).
  rewrite E'. unfold NilZero.uint_of_string.
  rewrite <- uint_of_string_appendZero.
  rewrite E. reflexivity.
Qed.

(** [BigInt(`${n}0`)] is ten times [n]. *)
Lemma BigInt_appended_zero (n : Z) :
  BigInt_of_decimal (toString10 n ++ "0") = Some (10 * n).
Proof.
  unfold BigInt_of_decimal, toString10.
  destruct n as [|p|p]; [reflexivity| |].
  - simpl Z.to_int. unfold NilZero.string_of_int.
    pose proof (DecimalPos.Unsigned.to_uint_nonnil p) as Hn.
    destruct (string_of_uint_head _ Hn) as (c & s & E & Hc).
    assert (E' : NilZero.string_of_uint (Pos.to_uint p) = String c s)
      by (rewrite <- E; destruct (Pos.to_uint p); congruence || reflexivity).
    pose proof (parse_uint_appendZero _ Hn) as P.
    rewrite E' in *. simpl append in *.
    unfold NilZero.int_of_string. rewrite Hc, P. simpl.
    f_equal. change (Z.of_uint (appendZero (Pos.to_uint p)) = 10 * Z.pos p).
    rewrite appendZero_tenfold. f_equal.
    exact (DecimalZ.of_to (Z.pos p)).
  - simpl Z.to_int. unfold NilZero.string_of_int.
    pose proof (DecimalPos.Unsigned.to_uint_nonnil p) as Hn.
    pose proof (parse_uint_appendZero _ Hn) as P.
    simpl append. unfold NilZero.int_of_string.
    rewrite Ascii.eqb_refl, P. simpl.
    f_equal. change (- Z.of_uint (appendZero (Pos.to_uint p)) = 10 * Z.neg p).
    rewrite appendZero_tenfold.
    pose proof (DecimalZ.of_to (Z.pos p)) as Q. simpl in Q.
    change (Z.of_uint (Pos.to_uint p) = Z.pos p) in Q. rewrite Q. lia.
Qed.

(** The hexadecimal text of a natural is read back as that natural. *)
Lemma hex_text_value (n : Z) :
  0 <= n -> HexString.to_Z ("0x" ++ toString16 n) = n.
Proof.
  intros H. destruct n as [|p|p]; [reflexivity| |lia].
  exact (HexString.to_Z_of_Z (Z.pos p)).
Qed.

(* ================================================================== *)
(** ** Reading back a JSON text *)
(* ================================================================== *)

(** Concatenation of texts is associative. *)
Lemma append_assoc (a b c : string) : (a ++ b) ++ c = a ++ b ++ c.
Proof. induction a; simpl; congruence. Qed.

(** Reading the escape of one character gives that character back, and
    goes on with what follows. *)
Lemma parseChars_escapeChar (c : ascii) (tail : string) :
  Reference.parseChars (escapeChar c ++ tail)
  = match Reference.parseChars tail with
    | Some (t, r) => Some (String c t, r)
    | None => None
    end.
Proof.
  destruct c as [b0 b1 b2 b3 b4 b5 b6 b7].
  destruct b0, b1, b2, b3, b4, b5, b6, b7; reflexivity.
Qed.

(** Reading the escape of a string up to the closing quote gives the
    string back. *)
Lemma parseChars_escape (s rest : string) :
  Reference.parseChars (escape s ++ String dquote rest) = Some (s, rest).
Proof.
  induction s as [|c s IH]; [reflexivity|].
  change (escape (String c s)) with (escapeChar c ++ escape s).
  rewrite append_assoc, parseChars_escapeChar, IH. reflexivity.
Qed.

(** The digits of a numeral are read up to what follows it. *)
Lemma digits_of_uint (d : Decimal.uint) (rest : string) :
  Json.follower rest ->
  Reference.digits (NilEmpty.string_of_uint d ++ rest)
  = (NilEmpty.string_of_uint d, rest).
Proof.
  intros Hf. induction d; simpl; try (rewrite IHd; reflexivity).
  destruct rest as [|c rest]; [reflexivity|].
  simpl in Hf. destruct Hf as [-> | [-> | ->]]; reflexivity.
Qed.

(** The numeral of a positive number does not start with [0]. *)
Lemma no_leading_zero (p : positive) (d : Decimal.uint) :
  Pos.to_uint p <> Decimal.D0 d.
Proof.
  intros E.
  pose proof (Unsigned.to_of (Pos.to_uint p)) as H.
  rewrite Unsigned.of_to in H. simpl in H.
  rewrite E in H. unfold Decimal.unorm in H. simpl in H.
  pose proof (nb_digits_nzhead d) as Hn.
  destruct (Decimal.nzhead d) eqn:Ez; try (rewrite <- H in Hn; simpl in Hn; lia).
  injection H as ->. apply (Unsigned.to_uint_nonzero p). exact E.
Qed.

(** The decimal text of an integer is read back as that integer. *)
Lemma parseNumber_toString10 (n : Z) (rest : string) :
  Json.follower rest ->
  Reference.parseNumber (toString10 n ++ rest) = Some (JNum n, rest).
Proof.
  intros Hf. unfold toString10.
  assert (Hrest : forall d sign v,
             d <> Decimal.Nil ->
             (forall d', d = Decimal.D0 d' -> d' = Decimal.Nil) ->
             BigInt_of_decimal (sign ++ NilEmpty.string_of_uint d) = Some v ->
             match NilEmpty.string_of_uint d, rest with
             | EmptyString, _ => None
             | String "0" (String _ _), _ => None
             | _, String "." _ | _, String "e" _ | _, String "E" _ => None
             | _, _ =>
                 match BigInt_of_decimal (sign ++ NilEmpty.string_of_uint d) with
                 | Some n => Some (JNum n, rest)
                 | None => None
                 end
             end = Some (JNum v, rest)).
  { intros d sign v Hd Hz Hv. rewrite Hv.
    destruct d; try congruence; simpl;
      try (destruct rest as [|c r]; [reflexivity|];
           simpl in Hf; destruct Hf as [-> | [-> | ->]]; reflexivity).
    rewrite (Hz d eq_refl). simpl.
    destruct rest as [|c r]; [reflexivity|];
      simpl in Hf; destruct Hf as [-> | [-> | ->]]; reflexivity. }
  destruct n as [|p|p].
  - simpl. unfold Reference.parseNumber.
    change (String "0" rest) with (NilEmpty.string_of_uint (Decimal.D0 Decimal.Nil) ++ rest).
    rewrite digits_of_uint by assumption.
    apply (Hrest (Decimal.D0 Decimal.Nil) "" 0); [discriminate|congruence|reflexivity].
  - simpl Z.to_int. unfold NilZero.string_of_int.
    pose proof (Unsigned.to_uint_nonnil p) as Hn.
    assert (E : NilZero.string_of_uint (Pos.to_uint p)
                = NilEmpty.string_of_uint (Pos.to_uint p))
      by (destruct (Pos.to_uint p); congruence || reflexivity).
    rewrite E. unfold Reference.parseNumber.
    destruct (string_of_uint_head _ Hn) as (c & s & Es & Hc).
    assert (Hsign : match NilEmpty.string_of_uint (Pos.to_uint p) ++ rest with
                    | String "-" s' => ("-", s')
                    | _ => ("", NilEmpty.string_of_uint (Pos.to_uint p) ++ rest)
                    end = ("", NilEmpty.string_of_uint (Pos.to_uint p) ++ rest)).
    { rewrite Es. simpl.
      destruct c as [[|] [|] [|] [|] [|] [|] [|] [|]]; try reflexivity.
      discriminate Hc. }
    rewrite Hsign. rewrite digits_of_uint by assumption.
    apply Hrest; [assumption| |].
    + intros d' Ed. exfalso. exact (no_leading_zero p d' Ed).
    + simpl. unfold BigInt_of_decimal.
      rewrite <- E.
      change (NilZero.string_of_uint (Pos.to_uint p))
        with (NilZero.string_of_int (Decimal.Pos (Pos.to_uint p))).
      rewrite NilZero.isi; [|congruence|discriminate].
      simpl. f_equal. exact (DecimalZ.of_to (Z.pos p)).
  - simpl Z.to_int. unfold NilZero.string_of_int.
    pose proof (Unsigned.to_uint_nonnil p) as Hn.
    assert (E : NilZero.string_of_uint (Pos.to_uint p)
                = NilEmpty.string_of_uint (Pos.to_uint p))
      by (destruct (Pos.to_uint p); congruence || reflexivity).
    rewrite E. unfold Reference.parseNumber.
    change (String "-" (NilEmpty.string_of_uint (Pos.to_uint p)) ++ rest)
      with (String "-" (NilEmpty.string_of_uint (Pos.to_uint p) ++ rest)).
    cbv beta iota.
    rewrite digits_of_uint by assumption.
    apply Hrest; [assumption| |].
    + intros d' Ed. exfalso. exact (no_leading_zero p d' Ed).
    + unfold BigInt_of_decimal.
      change ("-" ++ NilEmpty.string_of_uint (Pos.to_uint p))
        with (String "-" (NilEmpty.string_of_uint (Pos.to_uint p))).
      rewrite <- E.
      change (String "-" (NilZero.string_of_uint (Pos.to_uint p)))
        with (NilZero.string_of_int (Decimal.Neg (Pos.to_uint p))).
      rewrite NilZero.isi; [|discriminate|congruence].
      simpl. f_equal. exact (DecimalZ.of_to (Z.neg p)).
Qed.

(** The text of an array, through the texts of its elements. *)
Lemma stringify_array elems :
  JSON_stringify (JArr elems) = Some ("[" ++ join "," (map Json.elemText elems) ++ "]").
Proof. reflexivity. Qed.

(** The JSON copy of an array, through the copies of its elements. *)
Lemma clone_array elems : jsonClone (JArr elems) = JArr (map Json.elemClone elems).
Proof. reflexivity. Qed.

(** The text of an object, through the texts of its written members. *)
Lemma stringify_object props :
  JSON_stringify (JObj props)
  = Some ("{" ++ join "," (map Json.memberText (Json.printed props)) ++ "}").
Proof.
  simpl. do 4 f_equal. induction props as [|[k e] l IH]; [reflexivity|].
  rewrite IH. unfold Json.printed. simpl.
  destruct e; try reflexivity.
  - destruct b; reflexivity.
Qed.

(** The JSON copy of an object, through the copies of its written
    members. *)
Lemma clone_object props :
  jsonClone (JObj props) = JObj (map Json.memberClone (Json.printed props)).
Proof.
  simpl. f_equal. induction props as [|[k e] l IH]; [reflexivity|].
  rewrite IH. unfold Json.printed. simpl.
  destruct e; reflexivity.
Qed.

(** A comma, a closing bracket and a closing brace may follow a value;
    none of them is white space. *)
Lemma follower_comma s : Json.follower (String "," s).
Proof. simpl. tauto. Qed.
Lemma follower_bracket s : Json.follower (String "]" s).
Proof. simpl. tauto. Qed.
Lemma follower_brace s : Json.follower (String "}" s).
Proof. simpl. tauto. Qed.

Lemma skipWs_follower rest :
  Json.follower rest -> Reference.skipWs rest = rest.
Proof.
  destruct rest as [|c r]; [reflexivity|].
  simpl. intros [-> | [-> | ->]]; reflexivity.
Qed.

(** The decimal text of an integer starts with a minus sign or a
    digit. *)
Lemma toString10_head (n : Z) :
  exists c s, toString10 n = String c s /\
              (c = "-"%char \/ Reference.isDigit c = true).
Proof.
  unfold toString10. destruct n as [|p|p].
  - exists "0"%char, "". split; [reflexivity|right; reflexivity].
  - simpl. pose proof (Unsigned.to_uint_nonnil p) as Hn.
    destruct (Pos.to_uint p); try congruence; simpl;
      eexists; eexists; (split; [reflexivity|right; reflexivity]).
  - simpl. eexists; eexists. split; [reflexivity|left; reflexivity].
Qed.

(** A text that starts with a minus sign or a digit is read as a
    number. *)
Lemma parseValue_number f c s :
  c = "-"%char \/ Reference.isDigit c = true ->
  Reference.parseValue (S f) (String c s) = Reference.parseNumber (String c s).
Proof.
  intros H.
  destruct c as [b0 b1 b2 b3 b4 b5 b6 b7].
  destruct b0, b1, b2, b3, b4, b5, b6, b7;
    try reflexivity;
    exfalso; destruct H as [H|H]; discriminate H.
Qed.

(** Numbers, strings and [null] are read back with one unit of fuel. *)
Lemma parse_number f n rest :
  Json.follower rest ->
  Reference.parseValue (S f) (toString10 n ++ rest) = Some (JNum n, rest).
Proof.
  intros Hf. pose proof (parseNumber_toString10 n rest Hf) as H.
  destruct (toString10_head n) as (c & s & E & Hc).
  rewrite E in *. simpl append in *.
  rewrite parseValue_number by assumption. exact H.
Qed.

Lemma parse_string f s rest :
  Reference.parseValue (S f) (quoted (escape s) ++ rest) = Some (JStr s, rest).
Proof.
  unfold quoted. simpl append. rewrite append_assoc. simpl append.
  change (Reference.parseValue (S f) (String dquote (escape s ++ String dquote rest)))
    with (match Reference.parseChars (escape s ++ String dquote rest) with
          | Some (t, rest') => Some (JStr t, rest')
          | None => None
          end).
  rewrite parseChars_escape. reflexivity.
Qed.

Lemma parse_null f rest :
  Reference.parseValue (S f) ("null" ++ rest) = Some (JNull, rest).
Proof. reflexivity. Qed.

(** The texts joined by commas, one text at a time. *)
Lemma join_cons (t : string) (ts : list string) (suffix : string) :
  ts <> [] ->
  join "," (t :: ts) ++ suffix = t ++ String "," (join "," ts ++ suffix).
Proof.
  destruct ts as [|t' ts]; [congruence|]. intros _.
  change (join "," (t :: t' :: ts)) with (t ++ "," ++ join "," (t' :: ts)).
  rewrite append_assoc. reflexivity.
Qed.

(** The loop over the elements of an array reads back the texts of the
    elements, given that each of them is read back. *)
Lemma elements_spec (pv : string -> option (JsVal * string)) :
  forall l,
    l <> [] ->
    Forall (fun e => forall rest, Json.follower rest ->
                       pv (Json.elemText e ++ rest) = Some (Json.elemClone e, rest)) l ->
    forall n acc rest,
      (length l <= n)%nat ->
      Reference.elements pv n (join "," (map Json.elemText l) ++ String "]" rest) acc
      = Some (JArr (acc ++ map Json.elemClone l), rest).
Proof.
  induction l as [|e l IH]; [congruence|].
  intros _ Hall n acc rest Hn.
  inversion Hall as [|e' l' He Hl]; subst.
  destruct n as [|n]; [simpl in Hn; lia|].
  destruct l as [|e2 l].
  - simpl map. simpl join. simpl Reference.elements.
    rewrite He by apply follower_bracket. reflexivity.
  - change (map Json.elemText (e :: e2 :: l)) with (Json.elemText e :: map Json.elemText (e2 :: l)).
    rewrite join_cons by discriminate.
    simpl Reference.elements.
    rewrite He by apply follower_comma.
    simpl Reference.skipWs. cbv iota.
    rewrite IH; [|discriminate|assumption|simpl in *; lia].
    rewrite <- app_assoc. reflexivity.
Qed.

(** A member with a new key goes last. *)
Lemma setMember_fresh k v acc :
  ~ In k (map fst acc) -> Reference.setMember k v acc = (acc ++ [(k, v)])%list.
Proof.
  induction acc as [|[k' v'] acc IH]; intros H; [reflexivity|].
  simpl in *. destruct (String.eqb_spec k k') as [->|_]; [tauto|].
  rewrite IH by tauto. reflexivity.
Qed.

(** The text of a member, character by character up to the value. *)
Lemma memberText_app kv suffix :
  Json.memberText kv ++ suffix
  = String dquote (escape (fst kv)
                     ++ String dquote (String ":" (Json.elemText (snd kv) ++ suffix))).
Proof.
  unfold Json.memberText, quoted. simpl append.
  rewrite !append_assoc. simpl append. reflexivity.
Qed.

(** One round of the loop over the members of an object. *)
Lemma members_step (pv : string -> option (JsVal * string)) n kv tail acc :
  pv (Json.elemText (snd kv) ++ tail) = Some (jsonClone (snd kv), tail) ->
  Json.follower tail ->
  Reference.members pv (S n) (Json.memberText kv ++ tail) acc
  = match tail with
    | String "," rest' =>
        Reference.members pv n rest'
          (Reference.setMember (fst kv) (jsonClone (snd kv)) acc)
    | String "}" rest' =>
        Some (JObj (Reference.setMember (fst kv) (jsonClone (snd kv)) acc), rest')
    | _ => None
    end.
Proof.
  intros Hpv Hf. rewrite memberText_app.
  change (Reference.members pv (S n)
            (String dquote (escape (fst kv)
               ++ String dquote (String ":" (Json.elemText (snd kv) ++ tail)))) acc)
    with (match Reference.parseChars
                  (escape (fst kv)
                     ++ String dquote (String ":" (Json.elemText (snd kv) ++ tail))) with
          | Some (k, s2) =>
              match Reference.skipWs s2 with
              | String ":" s3 =>
                  match pv s3 with
                  | Some (v, rest) =>
                      match Reference.skipWs rest with
                      | String "," rest' =>
                          Reference.members pv n rest' (Reference.setMember k v acc)
                      | String "}" rest' =>
                          Some (JObj (Reference.setMember k v acc), rest')
                      | _ => None
                      end
                  | None => None
                  end
              | _ => None
              end
          | None => None
          end).
  rewrite parseChars_escape.
  change (Reference.skipWs (String ":" (Json.elemText (snd kv) ++ tail)))
    with (String ":" (Json.elemText (snd kv) ++ tail)).
  cbv iota. rewrite Hpv. rewrite (skipWs_follower _ Hf). reflexivity.
Qed.

(** The loop over the members of an object reads back the texts of the
    members, given that each value is read back and no key repeats. *)
Lemma members_spec (pv : string -> option (JsVal * string)) :
  forall l,
    l <> [] ->
    Forall (fun kv => forall rest, Json.follower rest ->
                        pv (Json.elemText (snd kv) ++ rest)
                        = Some (jsonClone (snd kv), rest)) l ->
    forall n acc rest,
      (length l <= n)%nat ->
      NoDup (map fst acc ++ map fst l) ->
      Reference.members pv n (join "," (map Json.memberText l) ++ String "}" rest) acc
      = Some (JObj (acc ++ map Json.memberClone l), rest).
Proof.
  induction l as [|kv l IH]; [congruence|].
  intros _ Hall n acc rest Hn Hnd.
  inversion Hall as [|kv' l' He Hl]; subst.
  destruct n as [|n]; [simpl in Hn; lia|].
  assert (Hfresh : ~ In (fst kv) (map fst acc)).
  { intros Hin. apply NoDup_remove_2 in Hnd. apply Hnd.
    apply in_or_app. left. exact Hin. }
  destruct l as [|kv2 l].
  - simpl map. simpl join.
    rewrite members_step; [|apply He; apply follower_brace|apply follower_brace].
    rewrite setMember_fresh by assumption. reflexivity.
  - change (map Json.memberText (kv :: kv2 :: l))
      with (Json.memberText kv :: map Json.memberText (kv2 :: l)).
    rewrite join_cons by discriminate.
    rewrite members_step; [|apply He; apply follower_comma|apply follower_comma].
    rewrite setMember_fresh by assumption.
    rewrite IH; [|discriminate|assumption|simpl in *; lia|].
    + rewrite <- app_assoc. reflexivity.
    + rewrite map_app, <- app_assoc. simpl. 
      change (map fst (kv :: kv2 :: l)) with (fst kv :: map fst (kv2 :: l)) in Hnd.
      exact Hnd.
Qed.

(** Well-formedness, element by element and member by member. *)
Lemma wellFormed_array elems :
  wellFormed (JArr elems) -> Forall wellFormed elems.
Proof.
  simpl. induction elems as [|e l IH]; [constructor|].
  intros [He Hl]. constructor; [exact He|exact (IH Hl)].
Qed.

Lemma wellFormed_object props :
  wellFormed (JObj props) ->
  NoDup (map fst props) /\ Forall (fun kv => wellFormed (snd kv)) props.
Proof.
  simpl. intros [Hnd Hall]. split; [exact Hnd|]. clear Hnd.
  induction props as [|[k e] l IH]; [constructor|].
  destruct Hall as [He Hl]. constructor; [exact He|exact (IH Hl)].
Qed.

(** Every value weighs at least one; an array and an object weigh one
    more than what they contain. *)
Lemma weight_pos v : (1 <= Json.weight v)%nat.
Proof. destruct v; simpl; lia. Qed.

Lemma weight_array elems :
  Json.weight (JArr elems) = S (list_sum (map Json.weight elems)).
Proof.
  simpl. f_equal. induction elems as [|e l IH]; [reflexivity|].
  simpl. rewrite IH. reflexivity.
Qed.

Lemma weight_object props :
  Json.weight (JObj props)
  = S (list_sum (map (fun kv => Json.weight (snd kv)) (Json.printed props))).
Proof.
  simpl. f_equal. induction props as [|[k e] l IH]; [reflexivity|].
  rewrite IH. unfold Json.printed. simpl. destruct e; reflexivity.
Qed.

(** A sum of weights bounds the number of summands and each of them. *)
Lemma list_sum_bounds {A} (f : A -> nat) (l : list A) :
  (forall a, 1 <= f a)%nat ->
  (length l <= list_sum (map f l))%nat /\
  Forall (fun a => f a <= list_sum (map f l))%nat l.
Proof.
  intros Hf. induction l as [|a l [IH1 IH2]]; simpl; [split; [lia|constructor]|].
  specialize (Hf a). split; [lia|].
  constructor; [lia|].
  eapply Forall_impl; [|exact IH2]. simpl. intros; lia.
Qed.

(** Every value but [undefined] has a text. *)
Lemma stringify_defined v :
  v <> JUndefined -> exists t, JSON_stringify v = Some t.
Proof.
  destruct v; try congruence; intros _; simpl; try destruct b; eexists; reflexivity.
Qed.

(** The written members of an object have a value, distinct keys, and
    every property shared by all the members. *)
Lemma printed_defined props :
  Forall (fun kv => snd kv <> JUndefined) (Json.printed props).
Proof.
  unfold Json.printed. apply Forall_forall. intros kv Hin.
  apply filter_In in Hin. destruct Hin as [_ H].
  destruct (snd kv); congruence.
Qed.

Lemma printed_keys props :
  NoDup (map fst props) -> NoDup (map fst (Json.printed props)).
Proof.
  unfold Json.printed. induction props as [|kv l IH]; simpl; [trivial|].
  intros H. inversion H as [|k ks Hk Hks]; subst.
  destruct (match snd kv with JUndefined => false | _ => true end).
  - simpl. constructor; [|exact (IH Hks)].
    intros Hin. apply Hk. apply in_map_iff in Hin.
    destruct Hin as (kv' & E & Hin'). apply filter_In in Hin'.
    apply in_map_iff. exists kv'. tauto.
  - exact (IH Hks).
Qed.

Lemma printed_sub {P : string * JsVal -> Prop} props :
  Forall P props -> Forall P (Json.printed props).
Proof.
  intros H. unfold Json.printed. apply Forall_forall. intros kv Hin.
  apply filter_In in Hin. rewrite Forall_forall in H. apply H. tauto.
Qed.

(** The text of an element starts with the first character of a value,
    and so does any text that extends it. *)
Lemma elemText_opens e : Json.opens (Json.elemText e).
Proof.
  unfold Json.elemText.
  destruct e; simpl; try (repeat split; discriminate).
  - destruct b; simpl; repeat split; discriminate.
  - destruct (toString10_head n) as (c & s & E & Hc). rewrite E. simpl.
    destruct Hc as [->|Hc]; [repeat split; discriminate|].
    destruct c as [b0 b1 b2 b3 b4 b5 b6 b7].
    destruct b0, b1, b2, b3, b4, b5, b6, b7; try discriminate Hc;
      repeat split; discriminate.
Qed.

Lemma opens_app text rest : Json.opens text -> Json.opens (text ++ rest).
Proof. destruct text; simpl; tauto. Qed.

(** After an opening bracket or brace that is not closed at once, the
    loop is entered. *)
Lemma parse_array_open f X :
  Json.opens X ->
  Reference.parseValue (S f) (String "[" X)
  = Reference.elements (Reference.parseValue f) f X [].
Proof.
  destruct X as [|c s]; [intros []|].
  intros (Hw & Hb & _).
  change (Reference.parseValue (S f) (String "[" (String c s)))
    with (match Reference.skipWs (String c s) with
          | String "]" rest' => Some (JArr [], rest')
          | _ => Reference.elements (Reference.parseValue f) f (String c s) []
          end).
  simpl Reference.skipWs. rewrite Hw.
  destruct c as [b0 b1 b2 b3 b4 b5 b6 b7].
  destruct b0, b1, b2, b3, b4, b5, b6, b7; try reflexivity.
  exfalso. apply Hb. reflexivity.
Qed.

Lemma parse_object_open f X :
  Json.opens X ->
  Reference.parseValue (S f) (String "{" X)
  = Reference.members (Reference.parseValue f) f X [].
Proof.
  destruct X as [|c s]; [intros []|].
  intros (Hw & _ & Hb).
  change (Reference.parseValue (S f) (String "{" (String c s)))
    with (match Reference.skipWs (String c s) with
          | String "}" rest' => Some (JObj [], rest')
          | _ => Reference.members (Reference.parseValue f) f (String c s) []
          end).
  simpl Reference.skipWs. rewrite Hw.
  destruct c as [b0 b1 b2 b3 b4 b5 b6 b7].
  destruct b0, b1, b2, b3, b4, b5, b6, b7; try reflexivity.
  exfalso. apply Hb. reflexivity.
Qed.

(** A non-empty list of texts of values, joined, starts like a value. *)
Lemma join_opens (texts : list string) (suffix : string) :
  texts <> [] -> Forall Json.opens texts -> Json.opens (join "," texts ++ suffix).
Proof.
  destruct texts as [|t ts]; [congruence|]. intros _ H.
  inversion H as [|t' ts' Ht Hts]; subst.
  destruct ts as [|t2 ts].
  - simpl. apply opens_app. exact Ht.
  - rewrite join_cons by discriminate. apply opens_app. exact Ht.
Qed.

Lemma memberText_opens kv : Json.opens (Json.memberText kv).
Proof. unfold Json.memberText, quoted. simpl. repeat split; discriminate. Qed.

(** What follows a bracketed text goes after the closing bracket. *)
Lemma wrap_app (open : ascii) (inner close rest : string) :
  String open (inner ++ close) ++ rest = String open (inner ++ close ++ rest).
Proof. simpl. rewrite append_assoc. reflexivity. Qed.

(** With fuel for its weight, the text of a well-formed value, followed
    by whatever may follow a value, is read back as the JSON copy of the
    value. *)
Lemma parseValue_stringify :
  forall v,
    wellFormed v ->
    forall text, JSON_stringify v = Some text ->
    forall fuel rest,
      (Json.weight v <= fuel)%nat ->
      Json.follower rest ->
      Reference.parseValue fuel (text ++ rest) = Some (jsonClone v, rest).
Proof.
  induction v using Json.JsVal_nested_ind; intros Hwf text Htext fuel rest Hfuel Hrest.
  - discriminate Htext.
  - injection Htext as <-. destruct fuel; [simpl in Hfuel; lia|]. reflexivity.
  - destruct fuel; [simpl in Hfuel; lia|].
    destruct b; injection Htext as <-; reflexivity.
  - injection Htext as <-. destruct fuel; [simpl in Hfuel; lia|].
    apply parse_number. exact Hrest.
  - injection Htext as <-. destruct fuel; [simpl in Hfuel; lia|].
    apply parse_string.
  - (* arrays *)
    rewrite stringify_array in Htext. injection Htext as <-.
    rewrite clone_array. rewrite weight_array in Hfuel.
    destruct fuel as [|f]; [lia|]. apply le_S_n in Hfuel.
    apply wellFormed_array in Hwf.
    destruct elems as [|e0 l0]; [reflexivity|].
    assert (Hne : e0 :: l0 <> []) by discriminate.
    remember (e0 :: l0) as elems eqn:E. clear E e0 l0.
    destruct (list_sum_bounds Json.weight elems weight_pos) as [Hlen Hw].
    rewrite wrap_app. rewrite parse_array_open.
    + apply (elements_spec (Reference.parseValue f) elems); [assumption| |lia].
      rewrite Forall_forall in *. intros e Hin rest' Hrest'.
      specialize (H e Hin). specialize (Hwf e Hin). specialize (Hw e Hin).
      unfold Json.elemText, Json.elemClone.
      destruct e; try (apply (H Hwf _ eq_refl); [lia|assumption]).
      * destruct f; [exfalso; destruct elems; [congruence|simpl in Hlen, Hfuel; lia]|reflexivity].
      * destruct b; apply (H Hwf _ eq_refl); [lia|assumption|lia|assumption].
    + apply join_opens; [destruct elems; [congruence|discriminate]|].
      apply Forall_forall. intros t Ht. apply in_map_iff in Ht.
      destruct Ht as (e & <- & _). apply elemText_opens.
  - (* objects *)
    rewrite stringify_object in Htext. injection Htext as <-.
    rewrite clone_object. rewrite weight_object in Hfuel.
    destruct fuel as [|f]; [lia|]. apply le_S_n in Hfuel.
    apply wellFormed_object in Hwf. destruct Hwf as [Hnd Hwf].
    pose proof (printed_keys _ Hnd) as Hnd'.
    pose proof (printed_sub _ Hwf) as Hwf'.
    pose proof (printed_sub _ H) as H'.
    pose proof (printed_defined props) as Hdef.
    destruct (Json.printed props) as [|kv0 l0] eqn:Ep; [reflexivity|].
    assert (Hne : kv0 :: l0 <> []) by discriminate.
    remember (kv0 :: l0) as l eqn:E. clear E Ep kv0 l0.
    destruct (list_sum_bounds (fun kv => Json.weight (snd kv)) l
                (fun kv => weight_pos (snd kv))) as [Hlen Hw].
    rewrite wrap_app. rewrite parse_object_open.
    + apply (members_spec (Reference.parseValue f) l); [assumption| |lia|exact Hnd'].
      rewrite Forall_forall in *. intros kv Hin rest' Hrest'.
      specialize (H' kv Hin). specialize (Hwf' kv Hin). specialize (Hw kv Hin).
      specialize (Hdef kv Hin).
      destruct (stringify_defined _ Hdef) as [t Et].
      unfold Json.elemText. rewrite Et.
      apply (H' Hwf' _ Et); [lia|assumption].
    + apply join_opens; [destruct l; [congruence|discriminate]|].
      apply Forall_forall. intros t Ht. apply in_map_iff in Ht.
      destruct Ht as (kv & <- & _). apply memberText_opens.
Qed.

(** The length of concatenated and of joined texts. *)
Lemma length_app (a b : string) :
  String.length (a ++ b) = (String.length a + String.length b)%nat.
Proof. induction a; simpl; congruence. Qed.

Lemma length_join (ts : list string) :
  (list_sum (map String.length ts) <= String.length (join "," ts))%nat.
Proof.
  induction ts as [|t ts IH]; [simpl; lia|].
  destruct ts as [|t2 ts]; [simpl; lia|].
  change (join "," (t :: t2 :: ts)) with (t ++ "," ++ join "," (t2 :: ts)).
  rewrite !length_app. simpl in *. lia.
Qed.

(** Sums compare as their summands do. *)
Lemma list_sum_le {A} (f g : A -> nat) (l : list A) :
  Forall (fun a => f a <= g a)%nat l ->
  (list_sum (map f l) <= list_sum (map g l))%nat.
Proof.
  induction 1; simpl; lia.
Qed.

(** The text of a value is at least as long as the value weighs: the
    length of a text is fuel enough to read it. *)
Lemma weight_le_length :
  forall v text, JSON_stringify v = Some text -> (Json.weight v <= String.length text)%nat.
Proof.
  induction v using Json.JsVal_nested_ind; intros text Htext.
  - discriminate Htext.
  - injection Htext as <-. simpl. lia.
  - destruct b; injection Htext as <-; simpl; lia.
  - injection Htext as <-. destruct (toString10_head n) as (c & s & E & _).
    rewrite E. simpl. lia.
  - injection Htext as <-. simpl. lia.
  - rewrite stringify_array in Htext. injection Htext as <-.
    rewrite weight_array. simpl String.length. rewrite length_app.
    pose proof (length_join (map Json.elemText elems)) as Hj.
    rewrite map_map in Hj.
    assert (Hle : (list_sum (map Json.weight elems)
                   <= list_sum (map (fun e => String.length (Json.elemText e)) elems))%nat).
    { apply list_sum_le. rewrite Forall_forall in *. intros e Hin.
      unfold Json.elemText. destruct (JSON_stringify e) as [t|] eqn:Et.
      - apply (H e Hin). exact Et.
      - destruct e; try discriminate Et; try (destruct b; discriminate Et).
        simpl. lia. }
    lia.
  - rewrite stringify_object in Htext. injection Htext as <-.
    rewrite weight_object. simpl String.length. rewrite length_app.
    pose proof (length_join (map Json.memberText (Json.printed props))) as Hj.
    rewrite map_map in Hj.
    assert (Hle : (list_sum (map (fun kv => Json.weight (snd kv)) (Json.printed props))
                   <= list_sum (map (fun kv => String.length (Json.memberText kv))
                                    (Json.printed props)))%nat).
    { apply list_sum_le.
      pose proof (printed_sub _ H) as H'. pose proof (printed_defined props) as Hd.
      rewrite Forall_forall in *. intros kv Hin.
      destruct (stringify_defined _ (Hd kv Hin)) as [t Et].
      specialize (H' kv Hin t Et).
      unfold Json.memberText, Json.elemText. rewrite Et.
      rewrite !length_app. lia. }
    lia.
Qed.

(** Reading back what [JSON.stringify] wrote gives the JSON copy. *)
Lemma parse_stringify (v : JsVal) (text : string) :
  wellFormed v ->
  JSON_stringify v = Some text ->
  Reference.parse text = Some (jsonClone v).
Proof.
  intros Hwf Htext. unfold Reference.parse.
  assert (E : text = text ++ "") by (clear; induction text; simpl; congruence).
  rewrite E at 2.
  rewrite (parseValue_stringify v Hwf text Htext (S (String.length text)) "").
  - reflexivity.
  - pose proof (weight_le_length v text Htext). lia.
  - exact I.
Qed.

(** The reference runtime obeys the law of JSON. *)
Lemma reference_runtime_round_trips : roundTrips Reference.runtime.
Proof.
  intros v text Hwf Htext. exact (parse_stringify v text Hwf Htext).
Qed.

(* ================================================================== *)
(** ** The rollback check *)
(* ================================================================== *)

(** C4. When the node reports epoch [e], [checkRollbacks] returns [e]
    (it never fails on its own account), leaves [lastKnownEpochNumber]
    equal to [e] and the interleave window untouched, and logs a
    threatening rollback exactly when [e < lastKnownEpochNumber] and
    [e <= lastKnownEpochNumber - interleaveEpochs], a harmless one
    exactly when [e < lastKnownEpochNumber] and not
    [e <= lastKnownEpochNumber - interleaveEpochs], and nothing when
    the epoch did not decrease. *)
Theorem checkRollbacks_classifies_then_records :
  forall (w : Conflux.WalletWrapper) (node : Conflux.Node) (e : Z),
    Conflux.getEpochNumber node (Some (Conflux.epochLabel w)) = Ok e ->
    exists log w',
      Conflux.checkRollbacks w node = (log, w', Ok e) /\
      Conflux.lastKnownEpochNumber w' = e /\
      Conflux.interleaveEpochs w' = Conflux.interleaveEpochs w /\
      (In (Conflux.ThreateningRollback (Conflux.lastKnownEpochNumber w) e) log
       <-> e < Conflux.lastKnownEpochNumber w /\
           e <= Conflux.lastKnownEpochNumber w - Conflux.interleaveEpochs w) /\
      (In (Conflux.HarmlessRollback (Conflux.lastKnownEpochNumber w) e) log
       <-> e < Conflux.lastKnownEpochNumber w /\
           ~ e <= Conflux.lastKnownEpochNumber w - Conflux.interleaveEpochs w) /\
      (Conflux.lastKnownEpochNumber w <= e -> log = []) /\
      (length log <= 1)%nat.
Proof.
  intros w node e H.
  unfold Conflux.checkRollbacks. rewrite H.
  do 2 eexists. split; [reflexivity|].
  split; [reflexivity|]. split; [reflexivity|].
  destruct (Z.ltb_spec e (Conflux.lastKnownEpochNumber w)) as [Hlt|Hge];
    [destruct (Z.leb_spec e (Conflux.lastKnownEpochNumber w
                             - Conflux.interleaveEpochs w)) as [Hle|Hgt]|];
    simpl; repeat split; intros;
    repeat match goal with
           | K : _ \/ _ |- _ => destruct K
           | K : _ /\ _ |- _ => destruct K
           | K : False |- _ => destruct K
           end;
    try discriminate; try lia; auto.
Qed.

(** With [lastKnownEpochNumber = 100] and [interleaveEpochs = 5], epoch
    96 is a harmless rollback and becomes the last known epoch. *)
Lemma checkRollbacks_epoch_96 :
  exists log w',
    Conflux.checkRollbacks Samples.confluxWrapper (Samples.confluxNode 96 1)
      = (log, w', Ok 96) /\
    Conflux.lastKnownEpochNumber w' = 96 /\
    Conflux.interleaveEpochs w' = 5 /\
    (In (Conflux.ThreateningRollback 100 96) log <-> 96 < 100 /\ 96 <= 100 - 5) /\
    (In (Conflux.HarmlessRollback 100 96) log <-> 96 < 100 /\ ~ 96 <= 100 - 5) /\
    (100 <= 96 -> log = []) /\
    (length log <= 1)%nat.
Proof.
  apply (checkRollbacks_classifies_then_records
           Samples.confluxWrapper (Samples.confluxNode 96 1) 96).
  reflexivity.
Defined.

Example checkRollbacks_96_is_harmless :
  Conflux.checkRollbacks Samples.confluxWrapper (Samples.confluxNode 96 1)
  = ([Conflux.HarmlessRollback 100 96],
     Conflux.observe Samples.confluxWrapper 96, Ok 96).
Proof. reflexivity. Qed.

Example checkRollbacks_94_is_threatening :
  Conflux.checkRollbacks Samples.confluxWrapper (Samples.confluxNode 94 1)
  = ([Conflux.ThreateningRollback 100 94],
     Conflux.observe Samples.confluxWrapper 94, Ok 94).
Proof. reflexivity. Qed.

Example checkRollbacks_forward_is_silent :
  Conflux.checkRollbacks Samples.confluxWrapper (Samples.confluxNode 101 1)
  = ([], Conflux.observe Samples.confluxWrapper 101, Ok 101).
Proof. reflexivity. Qed.

(* ================================================================== *)
(** ** The block-filter mocks *)
(* ================================================================== *)

(** C8, as stated, fails on the claim-chain wrapper: asked for the
    changes of filter ['0x2'], [mockGetFilterChanges] does not fail; it
    answers the latest block number, in a list. *)
Lemma mockGetFilterChanges_accepts_any_id :
  Reef.mockGetFilterChanges (Samples.reefChain (Ok tt)) "0x2" Samples.reefWrapper
    = ([Reef.GetBlockNumber], Samples.reefWrapper, Ok (JArr [JNum 7]))
  /\ ~ (exists e,
          snd (Reef.mockGetFilterChanges
                 (Samples.reefChain (Ok tt)) "0x2" Samples.reefWrapper)
          = Thrown e).
Proof.
  split; [reflexivity|].
  intros [e H]. discriminate H.
Qed.

(** C8, amended. Both wrappers create the filter ['0x1']. On the epoch
    chain, [getEthFilterChanges] asks the node for its [latest_state]
    epoch number when the id is ['0x1'] and gives the node's answer,
    and for any other id throws the unsupported-filter failure (code
    -32500, the reason naming the id) without asking the node anything.
    On the claim chain, [mockGetFilterChanges] answers the one-element
    list of the latest block number whatever the id, and leaves the
    wrapper as it was. *)
Theorem block_filter_mocks :
  Conflux.createEthBlockFilter = Ok "0x1" /\
  Reef.mockCreateBlockFilter = Ok "0x1" /\
  (forall node,
     Conflux.getEthFilterChanges node "0x1"
     = ([Conflux.GetEpochNumber (Some "latest_state")],
        Conflux.getEpochNumber node (Some "latest_state"))) /\
  (forall node id,
     id <> "0x1" ->
     Conflux.getEthFilterChanges node id
     = ([], Thrown (Conflux.unsupportedFilter id)) /\
     getProp (getProp (Conflux.unsupportedFilter id) "body") "code"
     = JNum (-32500) /\
     getProp (Conflux.unsupportedFilter id) "reason"
     = JStr ("Unsupported filter " ++ id)) /\
  (forall chain id w n,
     Reef.getBlockNumber chain = Ok n ->
     Reef.mockGetFilterChanges chain id w
     = ([Reef.GetBlockNumber], w, Ok (JArr [JNum n]))).
Proof.
  split; [reflexivity|]. split; [reflexivity|].
  split; [reflexivity|]. split.
  - intros node id Hid. unfold Conflux.getEthFilterChanges.
    destruct (String.eqb_spec id "0x1") as [E|_]; [contradiction|].
    repeat split.
  - intros chain id w n H.
    unfold Reef.mockGetFilterChanges, Reef.bind, Reef.call, Reef.ret.
    rewrite H. reflexivity.
Qed.

Lemma block_filter_mocks_on_samples :
  (Conflux.getEthFilterChanges (Samples.confluxNode 96 1) "0x2"
   = ([], Thrown (Conflux.unsupportedFilter "0x2")) /\
   getProp (getProp (Conflux.unsupportedFilter "0x2") "body") "code"
   = JNum (-32500) /\
   getProp (Conflux.unsupportedFilter "0x2") "reason"
   = JStr "Unsupported filter 0x2") /\
  Reef.mockGetFilterChanges (Samples.reefChain (Ok tt)) "0x1" Samples.reefWrapper
  = ([Reef.GetBlockNumber], Samples.reefWrapper, Ok (JArr [JNum 7])).
Proof.
  destruct block_filter_mocks as (_ & _ & _ & Hother & Hmock).
  split.
  - apply (Hother (Samples.confluxNode 96 1) "0x2"). discriminate.
  - apply (Hmock (Samples.reefChain (Ok tt)) "0x1" Samples.reefWrapper 7).
    reflexivity.
Defined.


(* ================================================================== *)
(** ** Gas price policy of the epoch-chain [processTransaction] *)
(* ================================================================== *)

(** With self-estimation on, the gas price is decided by the oracle's
    answer alone: a failure over the ceiling, ten times the estimate
    otherwise. *)
Lemma chooseGasPrice_estimated w node params g :
  Conflux.estimateGasPrice w = true ->
  Conflux.getGasPrice node = Ok g ->
  Conflux.chooseGasPrice w node params
  = if g >? Conflux.defaultGasPrice w
    then ([Conflux.GetGasPrice],
          Thrown (Conflux.gasPriceExceeded g (Conflux.defaultGasPrice w)))
    else ([Conflux.GetGasPrice], Ok (JStr ("0x" ++ toString16 (10 * g)))).
Proof.
  intros He Hg. unfold Conflux.chooseGasPrice.
  rewrite He, Hg. unfold Conflux.bind, Conflux.call.
  destruct (g >? Conflux.defaultGasPrice w); [reflexivity|].
  rewrite BigInt_appended_zero. reflexivity.
Qed.

(** A call made by [m >>= k] is made by [m], or by [k] on the value
    [m] gave. *)
Lemma conflux_bind_calls {A B} (m : Conflux.M A) (k : A -> Conflux.M B) c :
  In c (fst (Conflux.bind m k)) ->
  In c (fst m) \/ exists a, snd m = Ok a /\ In c (fst (k a)).
Proof.
  destruct m as [t [a|e]]; simpl.
  - destruct (k a) as [t' r] eqn:E. simpl. intros H.
    apply in_app_or in H. destruct H; [left; assumption|].
    right. exists a. rewrite E. split; [reflexivity|assumption].
  - intros H. left. assumption.
Qed.

(** Runs the remaining steps of a computation, one case per answer. *)
Ltac run_calls :=
  repeat (match goal with
          | H : (_, _) = (_, _) |- _ => inversion H; subst; clear H
          | |- context [match ?x with _ => _ end] => destruct x eqn:?
          | H : context [match ?x with _ => _ end] |- _ => destruct x eqn:?
          end; simpl in * ).

(** Finds the submission among the calls listed in a hypothesis. *)
Ltac which_call :=
  repeat match goal with
         | H : _ \/ _ |- _ => destruct H
         | H : False |- _ => destruct H
         | H : In _ [] |- _ => destruct H
         | H : Conflux.SendTransaction _ = Conflux.SendTransaction _ |- _ =>
             injection H as <-
         | H : _ = Conflux.SendTransaction _ |- _ => discriminate H
         end.

(** Whatever [processTransaction] submits was preceded by a successful
    choice of gas price, and carries that price. *)
Lemma processTransaction_submission rt w node params payload :
  In (Conflux.SendTransaction payload)
     (fst (Conflux.processTransaction rt w node params)) ->
  exists calls price,
    Conflux.chooseGasPrice w node params = (calls, Ok price) /\
    getProp payload "gasPrice" = price.
Proof.
  unfold Conflux.processTransaction.
  intros H. apply conflux_bind_calls in H.
  destruct H as [H | [price [E H]]].
  - exfalso. unfold Conflux.chooseGasPrice in H.
    unfold Conflux.bind, Conflux.catch, Conflux.call, Conflux.lift,
      Conflux.ret, Conflux.throw in H.
    run_calls; which_call.
  - destruct (Conflux.chooseGasPrice w node params) as [calls r] eqn:Ec.
    simpl in E. subst r. exists calls, price. split; [reflexivity|].
    unfold Conflux.bind, Conflux.catch, Conflux.call, Conflux.lift,
      Conflux.ret, Conflux.throw in H.
    run_calls; which_call; reflexivity.
Qed.

(** C6. With the estimate-gas-price option on and the oracle quoting
    [g]: if [g] exceeds the ceiling [conflux.defaultGasPrice], then
    [processTransaction] makes no call but the oracle query and fails
    with the gas-price-exceeded failure (code -32099); and a
    transaction is submitted only if [g] does not exceed the ceiling. *)
Theorem gas_price_over_ceiling_is_rejected :
  forall rt w node params g,
    Conflux.estimateGasPrice w = true ->
    Conflux.getGasPrice node = Ok g ->
    (g > Conflux.defaultGasPrice w ->
     Conflux.processTransaction rt w node params
     = ([Conflux.GetGasPrice],
        Thrown (Conflux.gasPriceExceeded g (Conflux.defaultGasPrice w))) /\
     getProp (getProp (getProp (Conflux.gasPriceExceeded g (Conflux.defaultGasPrice w))
                               "body") "error") "code" = JNum (-32099)) /\
    (forall payload,
       In (Conflux.SendTransaction payload)
          (fst (Conflux.processTransaction rt w node params)) ->
       g <= Conflux.defaultGasPrice w).
Proof.
  intros rt w node params g He Hg.
  pose proof (chooseGasPrice_estimated w node params g He Hg) as Hc.
  split.
  - intros Hgt. split; [|reflexivity].
    unfold Conflux.processTransaction. rewrite Hc.
    destruct (Z.gtb_spec g (Conflux.defaultGasPrice w)); [reflexivity|lia].
  - intros payload Hin.
    apply processTransaction_submission in Hin.
    destruct Hin as (calls & price & Hp & _).
    rewrite Hc in Hp.
    destruct (Z.gtb_spec g (Conflux.defaultGasPrice w)); [discriminate Hp|lia].
Qed.

(** An estimate of 6 over a ceiling of 5. *)
Lemma gas_price_6_over_ceiling_5 :
  Conflux.processTransaction Reference.runtime Samples.confluxWrapper
    (Samples.confluxNode 101 6) (Samples.transfer "0xAB")
  = ([Conflux.GetGasPrice], Thrown (Conflux.gasPriceExceeded 6 5)) /\
  getProp (getProp (getProp (Conflux.gasPriceExceeded 6 5) "body") "error") "code"
  = JNum (-32099).
Proof.
  apply (gas_price_over_ceiling_is_rejected Reference.runtime
           Samples.confluxWrapper (Samples.confluxNode 101 6)
           (Samples.transfer "0xAB") 6 eq_refl eq_refl).
  reflexivity.
Defined.

(** An estimate at the ceiling passes, and the transaction is composed
    and submitted. *)
Example gas_price_at_ceiling_is_submitted :
  Conflux.processTransaction Reference.runtime Samples.confluxWrapper
    (Samples.confluxNode 101 5) (Samples.transfer "0xAB")
  = ([Conflux.GetGasPrice; Conflux.GetEpochNumber None;
      Conflux.GetNextNonce (JStr "0xAB");
      Conflux.EstimateGasAndCollateral
        (JObj [("from", JStr "0xAB"); ("to", JStr "0x01");
               ("gasPrice", JStr "0x32"); ("value", JStr "0x10");
               ("data", JNull); ("nonce", JStr "0x7");
               ("epochHeight", JStr "0x64"); ("chainId", JStr "0x1")]);
      Conflux.SendTransaction Samples.submittedPayload],
     Ok (JStr "0xfeed")).
Proof. reflexivity. Qed.

(** C9. With the estimate-gas-price option on and the oracle quoting
    [g]: appending the digit 0 to the decimal text of [g] reads back as
    [10 * g]; when [g] passes the ceiling check the price chosen is the
    hexadecimal text of [10 * g]; every transaction submitted carries
    exactly that text as its [gasPrice], and was submitted on an
    estimate [g] that passed the check, so that the submitted price is
    at most ten times the ceiling. *)
Theorem submitted_gas_price_is_ten_times_estimate :
  forall rt w node params g payload,
    Conflux.estimateGasPrice w = true ->
    Conflux.getGasPrice node = Ok g ->
    In (Conflux.SendTransaction payload)
       (fst (Conflux.processTransaction rt w node params)) ->
    BigInt_of_decimal (toString10 g ++ "0") = Some (10 * g) /\
    g <= Conflux.defaultGasPrice w /\
    Conflux.chooseGasPrice w node params
    = ([Conflux.GetGasPrice], Ok (JStr ("0x" ++ toString16 (10 * g)))) /\
    getProp payload "gasPrice" = JStr ("0x" ++ toString16 (10 * g)) /\
    (0 <= g -> HexString.to_Z ("0x" ++ toString16 (10 * g)) = 10 * g) /\
    10 * g <= 10 * Conflux.defaultGasPrice w.
Proof.
  intros rt w node params g payload He Hg Hin.
  pose proof (chooseGasPrice_estimated w node params g He Hg) as Hc.
  apply processTransaction_submission in Hin.
  destruct Hin as (calls & price & Hp & Hprice).
  rewrite Hc in Hp.
  destruct (Z.gtb_spec g (Conflux.defaultGasPrice w)) as [Hgt|Hle];
    [discriminate Hp|].
  injection Hp as <- <-.
  split; [apply BigInt_appended_zero|].
  split; [assumption|]. split; [assumption|]. split; [assumption|].
  split; [intros; apply hex_text_value; lia | lia].
Qed.

(** An estimate of 5 under a ceiling of 5 is submitted as [0x32]: 50,
    ten times the ceiling. *)
Lemma gas_price_5_is_submitted_as_50 :
  In (Conflux.SendTransaction Samples.submittedPayload)
     (fst (Conflux.processTransaction Reference.runtime Samples.confluxWrapper
             (Samples.confluxNode 101 5) (Samples.transfer "0xAB"))) /\
  BigInt_of_decimal (toString10 5 ++ "0") = Some (10 * 5) /\
  5 <= 5 /\
  Conflux.chooseGasPrice Samples.confluxWrapper (Samples.confluxNode 101 5)
    (Samples.transfer "0xAB")
  = ([Conflux.GetGasPrice], Ok (JStr "0x32")) /\
  getProp Samples.submittedPayload "gasPrice" = JStr "0x32" /\
  HexString.to_Z "0x32" = 50 /\
  50 > Conflux.defaultGasPrice Samples.confluxWrapper.
Proof.
  assert (Hin : In (Conflux.SendTransaction Samples.submittedPayload)
                   (fst (Conflux.processTransaction Reference.runtime
                           Samples.confluxWrapper (Samples.confluxNode 101 5)
                           (Samples.transfer "0xAB")))).
  { vm_compute. right; right; right; right; left. reflexivity. }
  destruct (submitted_gas_price_is_ten_times_estimate Reference.runtime
              Samples.confluxWrapper (Samples.confluxNode 101 5)
              (Samples.transfer "0xAB") 5 Samples.submittedPayload
              eq_refl eq_refl Hin)
    as (Hbig & Hle & Hchoice & Hprice & Hhex & _).
  split; [exact Hin|]. split; [exact Hbig|]. split; [exact Hle|].
  split; [exact Hchoice|]. split; [exact Hprice|].
  split; [apply Hhex; discriminate|reflexivity].
Defined.


(* ================================================================== *)
(** ** The dispatch router: interception and forwarding *)
(* ================================================================== *)

(** Once the method has been written to the log, the route handler is
    the [try] and its [catch]. *)
Lemma handle_logged rt w conn request :
  printable (Server.method request) = true ->
  Server.handle rt w conn request
  = let (events, outcome) :=
      Server.dispatch rt w (Server.socketOf conn request) request in
    match outcome with
    | Ok result =>
        (events,
         Server.Sent (JObj (Server.header request ++ [("result", result)])))
    | Thrown exception =>
        match Server.normalize rt exception with
        | Ok error =>
            (events,
             Server.Sent (JObj (Server.header request ++ [("error", error)])))
        | Thrown e => (events, Server.Escaped e)
        end
    end.
Proof.
  intros H. unfold Server.handle, toText. rewrite H. reflexivity.
Qed.

(** A method that cannot be turned into text ends the request at the
    first log line: nothing is called and nothing is answered. *)
Lemma handle_unprintable rt w conn request :
  printable (Server.method request) = false ->
  Server.handle rt w conn request = ([], Server.Escaped TypeError).
Proof.
  intros H. unfold Server.handle, toText. rewrite H. reflexivity.
Qed.

(** A request for one of the three listed methods, with an array of
    parameters (or none), goes to the bound method with the parameters
    in order and the socket last; nothing is forwarded. *)
Lemma dispatch_intercepted rt w socket request m args :
  Server.method request = JStr m ->
  In m Server.handlerNames ->
  Server.spread rt (jsOr (Server.params request) (JArr [])) = Some args ->
  Server.dispatch rt w socket request
  = ([Server.Handled m (args ++ [socket])], Server.bound w m (args ++ [socket])).
Proof.
  intros Hm Hin Hs. unfold Server.dispatch. rewrite Hm, Hs.
  simpl in Hin.
  destruct Hin as [<-|[<-|[<-|[]]]]; reflexivity.
Qed.

(** The three names are bound to the three methods of the wrapper. *)
Lemma bound_handlers w :
  Server.bound w "eth_accounts" = Server.getAccounts w /\
  Server.bound w "eth_sendTransaction" = Server.processTransaction w /\
  Server.bound w "eth_sign" = Server.processEthSignMessage w.
Proof. repeat split. Qed.

(** A request whose method is no property of [handlers], own or
    inherited, is forwarded as it came, and the provider's answer is
    the outcome. *)
Lemma dispatch_forwarded rt w socket request :
  Server.inHandlers (ToString rt (Server.method request)) = false ->
  Server.dispatch rt w socket request
  = ([Server.Forwarded (Server.method request) (Server.params request)],
     Server.provider_send w (Server.method request) (Server.params request)).
Proof.
  intros H. unfold Server.dispatch. rewrite H. reflexivity.
Qed.

(** A value the provider or a handler returns is sent back as the
    [result], untouched. *)
Lemma handle_result rt w conn request events result :
  printable (Server.method request) = true ->
  Server.dispatch rt w (Server.socketOf conn request) request
  = (events, Ok result) ->
  Server.handle rt w conn request
  = (events,
     Server.Sent (JObj [("jsonrpc", Server.jsonrpc request);
                        ("id", Server.id request);
                        ("result", result)])).
Proof.
  intros Hp H. rewrite (handle_logged rt w conn request Hp), H. reflexivity.
Qed.

(** C1, at [{"id":..,"jsonrpc":..,"method":"toString","params":[..]}].
    [toString] is not one of the three intercepted methods, yet the
    request is not forwarded: [handlers] inherits a [toString] member,
    which is called with the parameters and the socket, and the
    provider is never asked. *)
Theorem inherited_member_is_called_not_forwarded :
  forall rt w conn id ver args,
    let request :=
      {| Server.id := id; Server.jsonrpc := ver;
         Server.method := JStr "toString"; Server.params := JArr args |} in
    let socket := Server.socketOf conn request in
    ~ In "toString" Server.handlerNames /\
    Server.dispatch rt w socket request
    = ([Server.Handled "toString" (args ++ [socket])],
       Server.inherited w "toString" (args ++ [socket])) /\
    (forall method params,
       ~ In (Server.Forwarded method params)
            (fst (Server.handle rt w conn request))).
Proof.
  intros rt w conn id ver args request socket.
  assert (Hd : Server.dispatch rt w socket request
               = ([Server.Handled "toString" (args ++ [socket])],
                  Server.inherited w "toString" (args ++ [socket])))
    by reflexivity.
  split.
  - simpl. intros [H|[H|[H|[]]]]; discriminate H.
  - split; [exact Hd|].
    intros method params.
    rewrite (handle_logged rt w conn request eq_refl). fold socket. rewrite Hd.
    destruct (Server.inherited w "toString" (args ++ [socket])) as [r|e];
      [|destruct (Server.normalize rt e)];
      simpl; intros [H|[]]; discriminate H.
Qed.

(** The same request against a wrapper whose inherited [toString]
    answers as [Object.prototype.toString] does, while the provider
    would have answered [0x10]. *)
Example toString_request_is_answered_locally :
  Server.handle Reference.runtime
    {| Server.getAccounts := fun _ => Ok (JArr []);
       Server.processTransaction := fun _ => Ok JNull;
       Server.processEthSignMessage := fun _ => Ok JNull;
       Server.provider_send := fun _ _ => Ok (JStr "0x10");
       Server.inherited := fun _ _ => Ok (JStr "[object Object]") |}
    Samples.connection (Samples.request "toString" (JArr []))
  = ([Server.Handled "toString"
        [Server.socketOf Samples.connection (Samples.request "toString" (JArr []))]],
     Server.Sent (JObj [("jsonrpc", JStr "2.0"); ("id", JNum 1);
                        ("result", JStr "[object Object]")])).
Proof. reflexivity. Qed.

Example other_request_is_forwarded :
  Server.handle Reference.runtime (Samples.constantWrapper (Ok (JStr "0x10")))
    Samples.connection (Samples.request "eth_blockNumber" (JArr []))
  = ([Server.Forwarded (JStr "eth_blockNumber") (JArr [])],
     Server.Sent (JObj [("jsonrpc", JStr "2.0"); ("id", JNum 1);
                        ("result", JStr "0x10")])).
Proof. reflexivity. Qed.

(* ================================================================== *)
(** ** The dispatch router: the response envelope *)
(* ================================================================== *)

(** Every response the router sends echoes [jsonrpc] and [id] and has
    exactly one more member, named [result] or [error]. *)
Lemma sent_response_envelope rt w conn request events response :
  Server.handle rt w conn request = (events, Server.Sent response) ->
  exists member value,
    response = JObj [("jsonrpc", Server.jsonrpc request);
                     ("id", Server.id request);
                     (member, value)] /\
    (member = "result" \/ member = "error").
Proof.
  unfold Server.handle.
  destruct (toText rt (Server.method request)); [|discriminate].
  destruct (Server.dispatch rt w (Server.socketOf conn request) request)
    as [ev [result|exception]].
  - intros [= _ <-]. exists "result", result. split; [reflexivity|tauto].
  - destruct (Server.normalize rt exception) as [error|e]; [|discriminate].
    intros [= _ <-]. exists "error", error. split; [reflexivity|tauto].
Qed.

(** The router fails to answer only when the exception it caught is
    [null] or [undefined]. *)
Lemma normalize_total_on_values rt exception :
  nullish exception = false ->
  exists error, Server.normalize rt exception = Ok error.
Proof.
  intros H. unfold Server.normalize. rewrite H. eexists. reflexivity.
Qed.

(** For a method that can be written to the log: unless the exception
    caught is [null] or [undefined], a response is sent. *)
Lemma handle_replies_unless_nullish rt w conn request events outcome :
  printable (Server.method request) = true ->
  Server.dispatch rt w (Server.socketOf conn request) request = (events, outcome) ->
  (forall e, outcome = Thrown e -> nullish e = false) ->
  exists response, Server.handle rt w conn request = (events, Server.Sent response).
Proof.
  intros Hp Hd Hn. rewrite (handle_logged rt w conn request Hp), Hd.
  destruct outcome as [result|e]; [eexists; reflexivity|].
  destruct (normalize_total_on_values rt e (Hn e eq_refl)) as [error He].
  rewrite He. eexists. reflexivity.
Qed.

(** [res.json] writes a response whose last member is [undefined] as it
    writes the header alone. *)
Lemma undefined_member_is_not_written (ver id : JsVal) (member : string) :
  Server.wire (JObj [("jsonrpc", ver); ("id", id); (member, JUndefined)])
  = Server.wire (JObj [("jsonrpc", ver); ("id", id)]).
Proof.
  unfold Server.wire. simpl.
  destruct (JSON_stringify ver), (JSON_stringify id); reflexivity.
Qed.

(** The JSON copy of a response never has a member whose value was
    [undefined]: a response that ends in one is written with neither a
    [result] nor an [error]. *)
Lemma undefined_member_is_not_sent (ver id : JsVal) (member : string) :
  Server.hasKey "result"
    (jsonClone (JObj [("jsonrpc", ver); ("id", id); (member, JUndefined)]))
  = false /\
  Server.hasKey "error"
    (jsonClone (JObj [("jsonrpc", ver); ("id", id); (member, JUndefined)]))
  = false.
Proof.
  destruct ver, id; split; reflexivity.
Qed.

(** C2, at an [eth_blockNumber] request.
    - When the upstream call is rejected with [null], the [catch] block
      reads [exception.code], which throws: the exception leaves the
      route handler and no response is sent.
    - When the upstream call resolves to [undefined], the response has
      an [undefined] [result] and is written with neither [result] nor
      [error]. *)
Theorem null_rejection_escapes_the_router :
  forall rt conn id ver params,
    let request :=
      {| Server.id := id; Server.jsonrpc := ver;
         Server.method := JStr "eth_blockNumber"; Server.params := params |} in
    let forwarded := [Server.Forwarded (JStr "eth_blockNumber") params] in
    let response :=
      JObj [("jsonrpc", ver); ("id", id); ("result", JUndefined)] in
    Server.normalize rt JNull = Thrown TypeError /\
    Server.normalize rt JUndefined = Thrown TypeError /\
    Server.handle rt (Samples.constantWrapper (Thrown JNull)) conn request
    = (forwarded, Server.Escaped TypeError) /\
    Server.handle rt (Samples.constantWrapper (Ok JUndefined)) conn request
    = (forwarded, Server.Sent response) /\
    Server.wire response = Server.wire (JObj [("jsonrpc", ver); ("id", id)]) /\
    Server.hasKey "result" (jsonClone response) = false /\
    Server.hasKey "error" (jsonClone response) = false.
Proof.
  intros rt conn id ver params request forwarded response.
  unfold Server.handle.
  rewrite !dispatch_forwarded by reflexivity.
  repeat split;
    apply undefined_member_is_not_written || apply undefined_member_is_not_sent.
Qed.

(** An exception that carries a code and a body without an [error]
    member yields a response whose [error] is [undefined]: on the wire
    it has neither [result] nor [error]. *)
Example body_without_error_member :
  Server.handle Reference.runtime
    (Samples.constantWrapper
       (Thrown (JObj [("code", JStr "SERVER_ERROR");
                      ("body", JObj [("message", JStr "unauthorized")])])))
    Samples.connection (Samples.request "eth_blockNumber" (JArr []))
  = ([Server.Forwarded (JStr "eth_blockNumber") (JArr [])],
     Server.Sent (JObj [("jsonrpc", JStr "2.0"); ("id", JNum 1);
                        ("error", JUndefined)]))
  /\ Server.wire (JObj [("jsonrpc", JStr "2.0"); ("id", JNum 1);
                        ("error", JUndefined)])
     = Some ("{" ++ quoted "jsonrpc" ++ ":" ++ quoted "2.0" ++ ","
                 ++ quoted "id" ++ ":1}").
Proof. split; reflexivity. Qed.
(* ================================================================== *)
(** ** Message signing on the epoch chain *)
(* ================================================================== *)





(** What travels back for that request. *)
Example eth_sign_on_the_wire :
  Server.wire (JObj [("jsonrpc", JStr "2.0"); ("id", JNum 1); ("result", JUndefined)])
  = Some ("{" ++ quoted "jsonrpc" ++ ":" ++ quoted "2.0" ++ ","
              ++ quoted "id" ++ ":1}").
Proof. reflexivity. Qed.

(* ================================================================== *)
(** ** The dispatch router: error normalization *)
(* ================================================================== *)

(** C3, as stated, fails on its own example: thrown
    [{code: -32000, message: "x"}] does not come back unchanged.  The
    code is kept, but the message is rebuilt from [reason],
    [error.reason] or the exception itself, in quotes; here it is the
    quoted text of the object. *)
Lemma coded_exception_is_rebuilt :
  Server.normalize Reference.runtime
    (JObj [("code", JNum (-32000)); ("message", JStr "x")])
  = Ok (JObj [("code", JNum (-32000));
              ("message", JStr (quoted "[object Object]"))])
  /\ Server.normalize Reference.runtime
       (JObj [("code", JNum (-32000)); ("message", JStr "x")])
     <> Ok (JObj [("code", JNum (-32000)); ("message", JStr "x")]).
Proof.
  split; [reflexivity|].
  intros H. discriminate H.
Qed.

(** A member of a well-formed object is well formed. *)
Lemma wellFormed_getProp (v : JsVal) (k : string) :
  wellFormed v -> wellFormed (getProp v k).
Proof.
  destruct v; simpl; trivial.
  intros [_ H]. induction props as [|[k' e] l IH]; simpl; [trivial|].
  destruct H as [He Hl].
  destruct (String.eqb k k'); [exact He|exact (IH Hl)].
Qed.

(** An object body is written and read back: the error is the [error]
    member of its JSON copy. *)
Lemma errorOfBody_object rt props :
  roundTrips rt ->
  wellFormed (JObj props) ->
  Server.errorOfBody rt (JObj props) = getProp (jsonClone (JObj props)) "error".
Proof.
  intros Hrt Hwf. unfold Server.errorOfBody, Server.bodyText.
  destruct (stringify_defined (JObj props)) as [text Et]; [discriminate|].
  rewrite Et, (Hrt _ _ Hwf Et). reflexivity.
Qed.

(** Whatever the runtime answers for the text of the object, the message
    sent back is not the message thrown. *)
Lemma coded_exception_message_is_lost rt :
  roundTrips rt ->
  Server.normalize rt (JObj [("code", JNum (-32000)); ("message", JStr "x")])
  <> Ok (JObj [("code", JNum (-32000)); ("message", JStr "x")]).
Proof.
  intros Hrt.
  set (exception := JObj [("code", JNum (-32000)); ("message", JStr "x")]).
  assert (E : Server.normalize rt exception
              = Ok (Server.errorOfBody rt
                      (JObj [("error",
                              JObj [("code", JNum (-32000));
                                    ("message",
                                     JStr (quoted (ToString rt exception)));
                                    ("data", JUndefined)])])))
    by reflexivity.
  rewrite E, errorOfBody_object; [simpl; discriminate|exact Hrt|].
  simpl. repeat split; repeat constructor; simpl; intuition discriminate.
Qed.

(** C3, amended. On a runtime whose [JSON.parse] reads back what
    [JSON.stringify] writes, and for a thrown value other than [null]
    and [undefined]:
    - with no truthy [code], the error is the JSON copy of
      [{code: -32015, message, data}], where [data] is the thrown
      value's and [message] is ["Execution error"] when that [data] is
      truthy and the JSON text of the thrown value otherwise;
    - with a truthy [code] and no [body] of its own or under [error],
      the error is the JSON copy of [{code, message, data}], where
      [message] is, in quotes, the text of [reason], else of
      [error.reason], else of the thrown value;
    - with a truthy [code] and a non-empty text as [body], the error is
      the [error] member of the parsed text, and, when the text does not
      parse, the fixed text
      [{ "code": -32700, "message": "Invalid JSON response" }]. *)
Theorem error_normalization_cases :
  forall rt exception,
    roundTrips rt ->
    wellFormed exception ->
    nullish exception = false ->
    let code := getProp exception "code" in
    let data := getProp exception "data" in
    (truthy code = false ->
     Server.normalize rt exception
     = Ok (jsonClone
             (JObj [("code", JNum (-32015));
                    ("message", if truthy data then JStr "Execution error"
                                else stringified exception);
                    ("data", data)]))) /\
    (truthy code = true ->
     truthy (getProp exception "body") = false ->
     truthy (jsAnd (getProp exception "error")
                   (getProp (getProp exception "error") "body")) = false ->
     Server.normalize rt exception
     = Ok (jsonClone
             (JObj [("code", code);
                    ("message",
                     JStr (quoted (ToString rt (Server.messageOf exception))));
                    ("data", data)]))) /\
    (truthy code = true ->
     forall text,
       getProp exception "body" = JStr text ->
       text <> "" ->
       (JSON_parse rt text = None ->
        Server.normalize rt exception = Ok (JStr Server.invalidJsonResponse)) /\
       (forall parsed,
          JSON_parse rt text = Some parsed ->
          nullish parsed = false ->
          Server.normalize rt exception = Ok (getProp parsed "error"))).
Proof.
  intros rt exception Hrt Hwf Hn code data.
  assert (Hcode : wellFormed code) by (apply wellFormed_getProp; exact Hwf).
  assert (Hdata : wellFormed data) by (apply wellFormed_getProp; exact Hwf).
  assert (Hdistinct : NoDup ["code"; "message"; "data"]).
  { repeat constructor; simpl; intuition discriminate. }
  unfold Server.normalize. rewrite Hn. fold code.
  split; [|split].
  - intros Hc. rewrite Hc.
    unfold Server.executionError, Server.bodyOf. fold data.
    change (jsOr (getProp (JObj [("reason", JStr (ToString rt exception));
                                 ("body", ?b)]) "body") ?d) with b.
    rewrite errorOfBody_object; [|exact Hrt|].
    + simpl. destruct (truthy data); destruct data; reflexivity.
    + simpl. repeat split; try assumption; try (repeat constructor; simpl; tauto).
      destruct (truthy data); [exact I|].
      unfold stringified. destruct (JSON_stringify exception); exact I.
  - intros Hc Hb He. rewrite Hc.
    unfold Server.bodyOf, jsOr at 1. rewrite Hb, He.
    fold code data. unfold jsOr. rewrite Hc.
    rewrite errorOfBody_object; [|exact Hrt|].
    + simpl. destruct code; try discriminate Hc; destruct data; reflexivity.
    + simpl. repeat split; try assumption; repeat constructor; simpl; tauto.
  - intros Hc text Hb Ht. rewrite Hc.
    assert (Hbody : Server.bodyOf rt exception = JStr text).
    { unfold Server.bodyOf, jsOr. rewrite Hb. simpl.
      destruct (String.eqb_spec text ""); [contradiction|reflexivity]. }
    rewrite Hbody. unfold Server.errorOfBody, Server.bodyText.
    split.
    + intros Hp. rewrite Hp. reflexivity.
    + intros parsed Hp Hnn. rewrite Hp, Hnn. reflexivity.
Qed.

(** Proves that a given value has distinct keys. *)
Ltac well_formed :=
  simpl; repeat split; repeat constructor; simpl; intuition discriminate.

Lemma error_normalization_on_samples :
  (* a thrown string *)
  Server.normalize Reference.runtime (JStr "boom")
  = Ok (jsonClone (JObj [("code", JNum (-32015));
                         ("message", stringified (JStr "boom"));
                         ("data", JUndefined)])) /\
  (* a thrown object with a code and a reason *)
  Server.normalize Reference.runtime
    (JObj [("code", JStr "TIMEOUT"); ("reason", JStr "timeout")])
  = Ok (jsonClone (JObj [("code", JStr "TIMEOUT");
                         ("message", JStr (quoted "timeout"));
                         ("data", JUndefined)])) /\
  (* a provider error whose body is not JSON *)
  Server.normalize Reference.runtime
    (JObj [("code", JStr "SERVER_ERROR"); ("body", JStr "<html>502</html>")])
  = Ok (JStr Server.invalidJsonResponse) /\
  (* a provider error whose body is the upstream response *)
  Server.normalize Reference.runtime
    (JObj [("code", JStr "SERVER_ERROR");
           ("body", JStr ("{" ++ quoted "error" ++ ":{" ++ quoted "code"
                              ++ ":-32000}}"))])
  = Ok (JObj [("code", JNum (-32000))]).
Proof.
  split; [|split; [|split]].
  - apply (error_normalization_cases Reference.runtime (JStr "boom")
             reference_runtime_round_trips I eq_refl).
    reflexivity.
  - apply (error_normalization_cases Reference.runtime
             (JObj [("code", JStr "TIMEOUT"); ("reason", JStr "timeout")])
             reference_runtime_round_trips);
      [well_formed|reflexivity|reflexivity|reflexivity|reflexivity].
  - apply (error_normalization_cases Reference.runtime
             (JObj [("code", JStr "SERVER_ERROR");
                    ("body", JStr "<html>502</html>")])
             reference_runtime_round_trips)
      with (text := "<html>502</html>");
      [well_formed|reflexivity|reflexivity|reflexivity|discriminate|reflexivity].
  - apply (error_normalization_cases Reference.runtime
             (JObj [("code", JStr "SERVER_ERROR");
                    ("body", JStr ("{" ++ quoted "error" ++ ":{" ++ quoted "code"
                                       ++ ":-32000}}"))])
             reference_runtime_round_trips)
      with (text := "{" ++ quoted "error" ++ ":{" ++ quoted "code" ++ ":-32000}}")
           (parsed := JObj [("error", JObj [("code", JNum (-32000))])]);
      [well_formed|reflexivity|reflexivity|reflexivity|discriminate
      |reflexivity|reflexivity].
Defined.

Example thrown_string_is_an_execution_error :
  Server.normalize Reference.runtime (JStr "boom")
  = Ok (JObj [("code", JNum (-32015)); ("message", JStr (quoted "boom"))]).
Proof. reflexivity. Qed.

Example thrown_data_is_an_execution_error :
  Server.normalize Reference.runtime (JObj [("data", JStr "0x08c3")])
  = Ok (JObj [("code", JNum (-32015)); ("message", JStr "Execution error");
              ("data", JStr "0x08c3")]).
Proof. reflexivity. Qed.

(** The fixed text denotes the object [{code: -32700, message: ...}]. *)
Example invalid_json_response_text :
  Reference.parse Server.invalidJsonResponse
  = Some (JObj [("code", JNum (-32700));
                ("message", JStr "Invalid JSON response")]).
Proof. reflexivity. Qed.

(** Writing a value as JSON and reading it back gives its JSON copy, on
    an object that exercises every kind of value. *)
Example parse_of_stringify_is_the_copy :
  let v := JObj [("error",
                  JObj [("code", JNum (-32015));
                        ("message", JStr (quoted "a" ++ String backslash "b"));
                        ("data", JUndefined);
                        ("list", JArr [JUndefined; JNull; JNum 0; JBool true;
                                       JObj []; JArr []])])] in
  option_map Reference.parse (JSON_stringify v) = Some (Some (jsonClone v)).
Proof. reflexivity. Qed.

(* ================================================================== *)
(** ** The claim-chain wrapper: [setup] *)
(* ================================================================== *)

(** Runs the remaining steps of a computation over the wrapper, one
    case per answer of the chain. *)
Ltac run_reef :=
  unfold Reef.bind, Reef.call, Reef.lift, Reef.get, Reef.put, Reef.ret,
    Reef.throw in *;
  repeat (match goal with
          | H : (_, _) = (_, _) |- _ => inversion H; subst; clear H
          | H : context [match ?x with _ => _ end] |- _ => destruct x eqn:?
          | |- context [match ?x with _ => _ end] => destruct x eqn:?
          end; simpl in * ).

(** A round of the loop, however it ends, leaves the seed phrase alone
    and keeps the signers in step with the accounts. *)
Lemma setupRound_keeps chain j w t w' r :
  Reef.setupRound chain j w = (t, w', r) ->
  Reef.seedPhrase w' = Reef.seedPhrase w /\
  (Gateway.consistent chain w -> Gateway.consistent chain w').
Proof.
  unfold Reef.setupRound, Reef.pushAccount. intros H.
  run_reef; (split; [reflexivity|]); try (intros Hc; exact Hc).
  all: intros Hc; unfold Gateway.consistent in *; simpl;
    apply Forall2_app; [assumption|]; repeat constructor; simpl; assumption.
Qed.

(** So does any number of rounds. *)
Lemma setupLoop_keeps chain todo : forall j w t w' r,
  Reef.setupLoop chain todo j w = (t, w', r) ->
  Reef.seedPhrase w' = Reef.seedPhrase w /\
  (Gateway.consistent chain w -> Gateway.consistent chain w').
Proof.
  induction todo as [|todo IH]; intros j w t w' r; simpl.
  - intros [= _ <- _]. tauto.
  - unfold Reef.bind.
    destruct (Reef.setupRound chain j w) as [[t1 w1] [u|e]] eqn:E1.
    + destruct (Reef.setupLoop chain todo (S j) w1) as [[t2 w2] r2] eqn:E2.
      intros [= _ <- _].
      apply setupRound_keeps in E1. apply IH in E2.
      destruct E1 as [S1 C1], E2 as [S2 C2].
      split; [congruence|tauto].
    + intros [= _ <- _]. apply setupRound_keeps in E1. exact E1.
Qed.

(** However [setup] ends, the signers of the wrapper it leaves answer
    to the addresses in [accounts]. *)
Lemma setup_is_consistent chain seed n t w r :
  Reef.setup chain (Reef.construct seed n) = (t, w, r) ->
  Gateway.consistent chain w.
Proof.
  unfold Reef.setup, Reef.eraseSeedPhrase. intros H.
  assert (H0 : Gateway.consistent chain (Reef.construct seed n))
    by constructor.
  unfold Reef.bind at 1 2, Reef.lift at 1, Reef.get at 1 in H.
  destruct (Reef.isReady chain); [|injection H as _ <- _; exact H0].
  unfold Reef.bind at 1 in H.
  destruct (Reef.setupLoop chain (Reef.numAddresses (Reef.construct seed n)) 0
              (Reef.construct seed n)) as [[t1 w1] [u|e]] eqn:El;
    apply setupLoop_keeps in El; destruct El as [_ Hc]; specialize (Hc H0).
  - run_reef; exact Hc.
  - injection H as _ <- _. exact Hc.
Qed.

(** C7, as stated, fails on a failure path: when the chain's API never
    becomes ready, [setup] fails and the seed phrase is still in the
    wrapper. *)
Lemma failed_setup_keeps_the_seed_phrase :
  Reef.setup (Samples.reefChain (Thrown (JStr "down"))) (Reef.construct "secret" 3)
  = ([], Reef.construct "secret" 3, Thrown (JStr "down"))
  /\ Reef.seedPhrase
       (snd (fst (Reef.setup (Samples.reefChain (Thrown (JStr "down")))
                    (Reef.construct "secret" 3))))
     <> "".
Proof.
  split; [reflexivity|].
  simpl. discriminate.
Qed.

(** C7, amended. When [setup] succeeds the seed phrase of the wrapper
    is the empty string.  When the chain's API is not ready [setup]
    fails having touched nothing, and when a round of the loop fails
    [setup] fails with that failure: in both cases the seed phrase is
    the one the wrapper was built with. *)
Theorem setup_erases_seed_when_it_succeeds :
  forall chain w calls w' r,
    Reef.setup chain w = (calls, w', r) ->
    (r = Ok tt -> Reef.seedPhrase w' = "") /\
    (forall e, Reef.isReady chain = Thrown e ->
               calls = [] /\ w' = w /\ r = Thrown e) /\
    (forall loopCalls w1 e,
       Reef.isReady chain = Ok tt ->
       Reef.setupLoop chain (Reef.numAddresses w) 0 w = (loopCalls, w1, Thrown e) ->
       calls = loopCalls /\ w' = w1 /\ r = Thrown e /\
       Reef.seedPhrase w' = Reef.seedPhrase w).
Proof.
  intros chain w calls w' r H.
  unfold Reef.setup in H.
  split; [|split].
  - intros ->. unfold Reef.eraseSeedPhrase in H. run_reef. all: reflexivity.
  - intros e He. unfold Reef.bind, Reef.lift in H. rewrite He in H.
    injection H as <- <- <-. repeat split.
  - intros loopCalls w1 e Hr Hl.
    unfold Reef.bind at 1 2 3, Reef.lift at 1, Reef.get at 1 in H.
    rewrite Hr, Hl in H. simpl in H. injection H as <- <- <-.
    repeat split. apply setupLoop_keeps in Hl. apply Hl.
Qed.

(** Three accounts derived from the phrase [secret] on a chain where
    every identity is claimed. *)
Lemma setup_of_three_accounts :
  let calls :=
    [Reef.IsClaimed "5secret"; Reef.GetAddress "5secret";
     Reef.IsClaimed "5secret//0"; Reef.GetAddress "5secret//0";
     Reef.IsClaimed "5secret//1"; Reef.GetAddress "5secret//1"] in
  let w' :=
    {| Reef.accounts := ["0xAbCd5secret"; "0xAbCd5secret//0"; "0xAbCd5secret//1"];
       Reef.keyringPairs := ["5secret"; "5secret//0"; "5secret//1"];
       Reef.numAddresses := 3;
       Reef.seedPhrase := "";
       Reef.signers := [ {| Reef.substrate := "5secret" |};
                         {| Reef.substrate := "5secret//0" |};
                         {| Reef.substrate := "5secret//1" |} ] |} in
  Reef.setup (Samples.reefChain (Ok tt)) (Reef.construct "secret" 3)
  = (calls, w', Ok tt)
  /\ Reef.seedPhrase w' = "".
Proof.
  intros calls w'.
  assert (H : Reef.setup (Samples.reefChain (Ok tt)) (Reef.construct "secret" 3)
              = (calls, w', Ok tt)) by reflexivity.
  split; [exact H|].
  apply (setup_erases_seed_when_it_succeeds
           (Samples.reefChain (Ok tt)) (Reef.construct "secret" 3)
           calls w' (Ok tt) H).
  reflexivity.
Defined.

(** A claim that fails in the second round: the first account is in
    place, the seed phrase too. *)
Example setup_failing_in_the_loop :
  let chain :=
    {| Reef.isReady := Ok tt;
       Reef.resolveApi := Ok tt;
       Reef.addFromUri := fun uri => Ok ("5" ++ uri);
       Reef.addKeyringPair := fun _ => Ok tt;
       Reef.isClaimed := fun who => Ok (String.eqb who "5secret");
       Reef.claimDefaultAccount := fun _ => Thrown (JStr "claim failed");
       Reef.getAddress := fun who => Ok ("0xAbCd" ++ who);
       Reef.getBlockNumber := Ok 7;
       Reef.getTransactionCount := fun _ => Ok (JNum 3);
       Reef.signerSendTransaction := fun _ _ => Ok JNull |} in
  Reef.setup chain (Reef.construct "secret" 3)
  = ([Reef.IsClaimed "5secret"; Reef.GetAddress "5secret";
      Reef.IsClaimed "5secret//0"; Reef.ClaimDefaultAccount "5secret//0"],
     {| Reef.accounts := ["0xAbCd5secret"];
        Reef.keyringPairs := ["5secret"];
        Reef.numAddresses := 3;
        Reef.seedPhrase := "secret";
        Reef.signers := [ {| Reef.substrate := "5secret" |} ] |},
     Thrown (JStr "claim failed")).
Proof. reflexivity. Qed.

(* ================================================================== *)
(** ** Addresses without a signing key *)
(* ================================================================== *)


(** What [composeTransaction] answers: it makes no call and leaves the
    wrapper alone. *)
Lemma composeTransaction_outcome params w :
  Reef.composeTransaction params w
  = ([], w,
     if nullish params then Thrown TypeError
     else if Reef.loggable (Reef.composed params)
          then Ok (Reef.composed params)
          else Thrown TypeError).
Proof.
  unfold Reef.composeTransaction, Reef.bind, Reef.lift, Reef.ret, Reef.throw,
    readProp.
  destruct (nullish params); [reflexivity|].
  destruct (Reef.loggable (Reef.composed params)); reflexivity.
Qed.




(* ================================================================== *)
(** ** Hexadecimal texts *)
(* ================================================================== *)

(** The hexadecimal digits of a positive number start with a digit
    other than [0]; in particular not with a sign. *)
Lemma of_pos_head :
  forall (p : positive) (rest : string),
    exists c s,
      HexString.Raw.of_pos p rest = String c s /\
      Ascii.eqb c "0" = false /\ Ascii.eqb c "-" = false.
Proof.
  fix IH 1. intros p rest.
  do 4 try destruct p as [p|p|]; simpl;
    try (eexists; eexists; repeat split; reflexivity); apply IH.
Qed.

(** [n.toString(16)] never starts with [0x]. *)
Lemma toString16_unprefixed (n : Z) :
  String.prefix "0x" (toString16 n) = false.
Proof.
  destruct n as [|p|p]; try reflexivity.
  simpl. destruct (of_pos_head p "") as (c & s & E & H0 & _).
  rewrite E.
  change (String.prefix "0x" (String c s))
    with (if ascii_dec "0" c then String.prefix "x" s else false).
  destruct (ascii_dec "0" c) as [<-|]; [discriminate H0|reflexivity].
Qed.

(** Two numbers with the same hexadecimal text are the same. *)
Lemma toString16_inj (a b : Z) : toString16 a = toString16 b -> a = b.
Proof.
  assert (P : forall p q,
             HexString.Raw.of_pos p "" = HexString.Raw.of_pos q "" -> p = q).
  { intros p q H.
    change (toString16 (Z.pos p) = toString16 (Z.pos q)) in H.
    apply (f_equal (fun t => HexString.to_Z ("0x" ++ t))) in H.
    cbv beta in H. rewrite !hex_text_value in H by lia.
    injection H as ->. reflexivity. }
  destruct a as [|p|p], b as [|q|q]; simpl; intros H;
    try reflexivity; try discriminate H.
  - destruct (of_pos_head q "") as (c & s & E & H0 & _).
    rewrite E in H. injection H as Hc _. subst c. discriminate H0.
  - destruct (of_pos_head p "") as (c & s & E & H0 & _).
    rewrite E in H. injection H as Hc _. subst c. discriminate H0.
  - f_equal. apply P. exact H.
  - destruct (of_pos_head p "") as (c & s & E & _ & H1).
    rewrite E in H. injection H as Hc _. subst c. discriminate H1.
  - destruct (of_pos_head q "") as (c & s & E & _ & H1).
    rewrite E in H. injection H as Hc _. subst c. discriminate H1.
  - injection H as H. f_equal. apply P. exact H.
Qed.

(* ================================================================== *)
(** ** The epoch-chain wrapper: what a transaction is submitted with *)
(* ================================================================== *)

(** Closes the cases in which an answer is both a value and a failure,
    and names the values of the others. *)
Ltac settle :=
  repeat match goal with
         | H : Thrown _ = Ok _ |- _ => discriminate H
         | H : Ok _ = Thrown _ |- _ => discriminate H
         | H : Ok ?a = Ok ?b |- _ => injection H as H; try subst a; try subst b
         end.

(** Choosing the gas price asks the oracle at most. *)
Lemma chooseGasPrice_calls w node params :
  fst (Conflux.chooseGasPrice w node params) = [] \/
  fst (Conflux.chooseGasPrice w node params) = [Conflux.GetGasPrice].
Proof.
  unfold Conflux.chooseGasPrice, Conflux.bind, Conflux.call, Conflux.lift,
    Conflux.ret, Conflux.throw.
  run_calls; tauto.
Qed.

(** The runs of [processTransaction] that submit: the gas price was
    chosen, the transaction had a place for [from], the node gave the
    epoch and the nonce, and both limits could be written. *)
Lemma processTransaction_run rt w node params payload :
  In (Conflux.SendTransaction payload)
     (fst (Conflux.processTransaction rt w node params)) ->
  exists calls price current nonce storageLimit gas,
    let from := ConfluxPayload.sender w params in
    let options := ConfluxPayload.options rt w params price from nonce current in
    let estimation :=
      match Conflux.estimateGasAndCollateral node (JObj options) with
      | Ok estimation => estimation
      | Thrown _ => ConfluxPayload.assumed params
      end in
    Conflux.chooseGasPrice w node params = (calls, Ok price) /\
    nullish params = false /\
    (truthy (getProp params "from") = true \/ isObject params = true) /\
    Conflux.getEpochNumber node None = Ok current /\
    Conflux.getNextNonce node from = Ok nonce /\
    Conflux.to0x rt (getProp estimation "storageCollateralized") = Ok storageLimit /\
    Conflux.to0x rt (getProp estimation "gasLimit") = Ok gas /\
    payload = JObj (options ++ [("storageLimit", JStr storageLimit);
                                ("gas", JStr gas)]) /\
    Conflux.processTransaction rt w node params
    = ((calls ++ [Conflux.GetEpochNumber None; Conflux.GetNextNonce from;
                  Conflux.EstimateGasAndCollateral (JObj options);
                  Conflux.SendTransaction payload])%list,
       Conflux.sendTransaction node payload).
Proof.
  intros H.
  pose proof (chooseGasPrice_calls w node params) as Hc.
  destruct (Conflux.chooseGasPrice w node params) as [calls [price|e]] eqn:Ec;
    simpl in Hc.
  2:{ exfalso. unfold Conflux.processTransaction in H. rewrite Ec in H.
      simpl in H. destruct Hc as [-> | ->]; simpl in H; which_call. }
  assert (Hin : forall c l, In c (calls ++ l)%list ->
                            c = Conflux.SendTransaction payload -> In c l).
  { intros c l Hcl ->. apply in_app_or in Hcl. destruct Hcl as [Hcl|Hcl]; [|exact Hcl].
    exfalso. destruct Hc as [-> | ->]; simpl in Hcl; which_call. }
  exists calls, price.
  unfold ConfluxPayload.sender, jsOr.
  unfold Conflux.processTransaction in *. rewrite Ec in *.
  unfold Conflux.bind, Conflux.catch, Conflux.call, Conflux.lift, Conflux.ret,
    Conflux.throw, readProp in *.
  destruct (nullish params) eqn:En.
  { exfalso. apply Hin with (l := []) in H; [destruct H|reflexivity]. }
  destruct (truthy (getProp params "from")) eqn:Et;
    [|destruct (isObject params) eqn:Eo;
      [|exfalso; simpl in H; apply Hin with (l := []) in H;
        [destruct H|reflexivity]]].
  all: match goal with
       | |- context [Conflux.getEpochNumber ?n None] =>
           destruct (Conflux.getEpochNumber n None) as [current|e] eqn:Ee
       end;
    [|exfalso; simpl in H; eapply Hin in H; [|reflexivity]; simpl in H; which_call].
  all: match goal with
       | |- context [Conflux.getNextNonce ?n ?f] =>
           destruct (Conflux.getNextNonce n f) as [nonce|e] eqn:Enn
       end;
    [|exfalso; simpl in H; eapply Hin in H; [|reflexivity]; simpl in H; which_call].
  all: exists current, nonce; cbv zeta; unfold ConfluxPayload.options, ConfluxPayload.assumed.
  all: match goal with
       | |- context [Conflux.estimateGasAndCollateral ?n ?o] =>
           destruct (Conflux.estimateGasAndCollateral n o) as [est|e] eqn:Eest
       end.
  all: match goal with
       | |- context [Conflux.to0x ?r (getProp ?v "storageCollateralized")] =>
           destruct (Conflux.to0x r (getProp v "storageCollateralized"))
             as [sl|e'] eqn:Esl
       end;
    [|exfalso; simpl in H; eapply Hin in H; [|reflexivity]; simpl in H; which_call].
  all: match goal with
       | |- context [Conflux.to0x ?r (getProp ?v "gasLimit")] =>
           destruct (Conflux.to0x r (getProp v "gasLimit")) as [gas|e'] eqn:Egas
       end;
    [|exfalso; simpl in H; eapply Hin in H; [|reflexivity]; simpl in H; which_call].
  all: exists sl, gas.
  all: simpl in H; eapply Hin in H; [|reflexivity]; simpl in H; which_call.
  all: repeat split; try reflexivity; try assumption; try tauto.
Qed.

(** Finds a call among those listed in a hypothesis: one case per
    entry it may be. *)
Ltac pick_call H :=
  simpl in H;
  repeat match type of H with
         | _ \/ _ => destruct H as [H|H]; [try discriminate H|]
         | False => destruct H
         end.

(** The runs of [processTransaction] that reach the cost estimation,
    and how they go on from there. *)
Lemma processTransaction_estimated rt w node params asked :
  In (Conflux.EstimateGasAndCollateral asked)
     (fst (Conflux.processTransaction rt w node params)) ->
  exists calls price current nonce,
    let from := ConfluxPayload.sender w params in
    let options := ConfluxPayload.options rt w params price from nonce current in
    let estimation :=
      match Conflux.estimateGasAndCollateral node (JObj options) with
      | Ok estimation => estimation
      | Thrown _ => ConfluxPayload.assumed params
      end in
    let upto :=
      (calls ++ [Conflux.GetEpochNumber None; Conflux.GetNextNonce from;
                 Conflux.EstimateGasAndCollateral (JObj options)])%list in
    Conflux.chooseGasPrice w node params = (calls, Ok price) /\
    asked = JObj options /\
    Conflux.processTransaction rt w node params
    = match Conflux.to0x rt (getProp estimation "storageCollateralized") with
      | Thrown e => (upto, Thrown e)
      | Ok storageLimit =>
          match Conflux.to0x rt (getProp estimation "gasLimit") with
          | Thrown e => (upto, Thrown e)
          | Ok gas =>
              let payload :=
                JObj (options ++ [("storageLimit", JStr storageLimit);
                                  ("gas", JStr gas)]) in
              ((upto ++ [Conflux.SendTransaction payload])%list,
               Conflux.sendTransaction node payload)
          end
      end.
Proof.
  intros H.
  pose proof (chooseGasPrice_calls w node params) as Hc.
  destruct (Conflux.chooseGasPrice w node params) as [calls [price|e]] eqn:Ec;
    simpl in Hc.
  2:{ exfalso. unfold Conflux.processTransaction in H. rewrite Ec in H.
      simpl in H. destruct Hc as [-> | ->]; pick_call H. }
  assert (Hin : forall c l, In c (calls ++ l)%list ->
                            c = Conflux.EstimateGasAndCollateral asked -> In c l).
  { intros c l Hcl ->. apply in_app_or in Hcl. destruct Hcl as [Hcl|Hcl]; [|exact Hcl].
    exfalso. destruct Hc as [-> | ->]; pick_call Hcl. }
  exists calls, price.
  unfold ConfluxPayload.sender, jsOr.
  unfold Conflux.processTransaction in *. rewrite Ec in *.
  unfold Conflux.bind, Conflux.catch, Conflux.call, Conflux.lift, Conflux.ret,
    Conflux.throw, readProp in *.
  destruct (nullish params) eqn:En.
  { exfalso. apply Hin with (l := []) in H; [destruct H|reflexivity]. }
  destruct (truthy (getProp params "from")) eqn:Et;
    [|destruct (isObject params) eqn:Eo;
      [|exfalso; simpl in H; apply Hin with (l := []) in H;
        [destruct H|reflexivity]]].
  all: match goal with
       | |- context [Conflux.getEpochNumber ?n None] =>
           destruct (Conflux.getEpochNumber n None) as [current|e] eqn:Ee
       end;
    [|exfalso; simpl in H; eapply Hin in H; [|reflexivity]; pick_call H].
  all: match goal with
       | |- context [Conflux.getNextNonce ?n ?f] =>
           destruct (Conflux.getNextNonce n f) as [nonce|e] eqn:Enn
       end;
    [|exfalso; simpl in H; eapply Hin in H; [|reflexivity]; pick_call H].
  all: exists current, nonce; cbv zeta;
    unfold ConfluxPayload.options, ConfluxPayload.assumed.
  all: match goal with
       | |- context [Conflux.estimateGasAndCollateral ?n ?o] =>
           destruct (Conflux.estimateGasAndCollateral n o) as [est|e] eqn:Eest
       end.
  all: match goal with
       | |- context [Conflux.to0x ?r (getProp ?v "storageCollateralized")] =>
           destruct (Conflux.to0x r (getProp v "storageCollateralized"))
             as [sl|e'] eqn:Esl
       end.
  all: try match goal with
       | |- context [Conflux.to0x ?r (getProp ?v "gasLimit")] =>
           destruct (Conflux.to0x r (getProp v "gasLimit")) as [gas|e''] eqn:Egas
       end.
  all: simpl in H; eapply Hin in H; [|reflexivity]; pick_call H.
  all: injection H as <-.
  all: repeat split; try reflexivity; rewrite <- ?List.app_assoc; reflexivity.
Qed.

(** X12. Whatever [processTransaction] submits, the node gave the
    current epoch and the next nonce of the sender first.  The payload
    is an object with the ten members [from], [to], [gasPrice], [value],
    [data], [nonce], [epochHeight], [chainId], [storageLimit], [gas] in
    this order, in which [from] is the caller's or else the first
    account of the wallet, [nonce] is the hexadecimal text of the next
    nonce of that very sender, [epochHeight] the hexadecimal text of
    the epoch before the current one, [to] the caller's, and [data] the
    caller's or else [null]. *)
Theorem submitted_payload_is_composed_from_the_node_state :
  forall rt w node params payload,
    In (Conflux.SendTransaction payload)
       (fst (Conflux.processTransaction rt w node params)) ->
    exists current nonce props,
      Conflux.getEpochNumber node None = Ok current /\
      Conflux.getNextNonce node (getProp payload "from") = Ok nonce /\
      getProp payload "from"
      = jsOr (getProp params "from")
             (nth 0%nat (map JStr (Conflux.getAccounts w)) JUndefined) /\
      getProp payload "to" = getProp params "to" /\
      getProp payload "data" = jsOr (getProp params "data") JNull /\
      getProp payload "nonce" = JStr ("0x" ++ toString16 nonce) /\
      getProp payload "epochHeight" = JStr ("0x" ++ toString16 (current - 1)) /\
      payload = JObj props /\
      map fst props
      = ["from"; "to"; "gasPrice"; "value"; "data"; "nonce"; "epochHeight";
         "chainId"; "storageLimit"; "gas"].
Proof.
  intros rt w node params payload H.
  destruct (processTransaction_run rt w node params payload H)
    as (calls & price & current & nonce & sl & gas & Hrun).
  cbv zeta in Hrun.
  destruct Hrun as (_ & _ & _ & He & Hn & _ & _ & -> & _).
  exists current, nonce. eexists.
  repeat split; try reflexivity; assumption.
Qed.

(** X13. The [value] of the payload: ['0x0'] when the caller gave none
    (or [0], or the empty string); the caller's text as it is; and for
    a number other than zero its hexadecimal digits alone, without the
    [0x] that the other quantities of the payload start with. *)
Theorem numeric_value_is_submitted_without_prefix :
  forall rt w node params payload,
    In (Conflux.SendTransaction payload)
       (fst (Conflux.processTransaction rt w node params)) ->
    (truthy (getProp params "value") = false ->
     getProp payload "value" = JStr "0x0") /\
    (forall s, getProp params "value" = JStr s -> s <> "" ->
               getProp payload "value" = JStr s) /\
    (forall n, getProp params "value" = JNum n -> n <> 0 ->
               getProp payload "value" = JStr (toString16 n) /\
               String.prefix "0x" (toString16 n) = false).
Proof.
  intros rt w node params payload H.
  destruct (processTransaction_run rt w node params payload H)
    as (calls & price & current & nonce & sl & gas & Hrun).
  cbv zeta in Hrun.
  destruct Hrun as (_ & _ & _ & _ & _ & _ & _ & -> & _).
  unfold ConfluxPayload.options.
  change (getProp (JObj ?l) "value") with (lookup "value" l).
  cbn [lookup app String.eqb Ascii.eqb Bool.eqb].
  split; [|split].
  - intros ->. reflexivity.
  - intros s -> Hs. simpl.
    destruct (String.eqb_spec s ""); [contradiction|reflexivity].
  - intros n -> Hn. split; [|apply toString16_unprefixed]. simpl.
    destruct (Z.eqb_spec n 0); [contradiction|reflexivity].
Qed.

(** X14. When the node fails to estimate the cost, the transaction is
    not given up: the storage limit is taken as [0x0] and the gas as
    the caller's [gas].  When the caller gave no [gas] either,
    [processTransaction] fails with a [TypeError] and submits
    nothing. *)
Theorem failed_estimation_falls_back_to_the_caller_gas :
  forall rt w node params options e,
    In (Conflux.EstimateGasAndCollateral options)
       (fst (Conflux.processTransaction rt w node params)) ->
    Conflux.estimateGasAndCollateral node options = Thrown e ->
    (nullish (getProp params "gas") = true ->
     snd (Conflux.processTransaction rt w node params) = Thrown TypeError /\
     forall payload,
       ~ In (Conflux.SendTransaction payload)
            (fst (Conflux.processTransaction rt w node params))) /\
    (forall payload,
       In (Conflux.SendTransaction payload)
          (fst (Conflux.processTransaction rt w node params)) ->
       getProp payload "storageLimit" = JStr "0x0" /\
       exists gas,
         Conflux.to0x rt (getProp params "gas") = Ok gas /\
         getProp payload "gas" = JStr gas).
Proof.
  intros rt w node params options e H He.
  destruct (processTransaction_estimated rt w node params options H)
    as (calls & price & current & nonce & Hrun).
  cbv zeta in Hrun. destruct Hrun as (Hc & -> & Hrun).
  rewrite He in Hrun.
  pose proof (chooseGasPrice_calls w node params) as Hcalls.
  rewrite Hc in Hcalls. simpl in Hcalls.
  change (getProp (ConfluxPayload.assumed params) "storageCollateralized")
    with (JNum 0) in Hrun.
  change (getProp (ConfluxPayload.assumed params) "gasLimit")
    with (getProp params "gas") in Hrun.
  change (Conflux.to0x rt (JNum 0)) with (@Ok string "0x0") in Hrun.
  cbv iota beta in Hrun.
  split.
  - intros Hg. unfold Conflux.to0x in Hrun. rewrite Hg in Hrun.
    rewrite Hrun. split; [reflexivity|].
    intros payload Hin. simpl in Hin.
    destruct Hcalls as [-> | ->]; pick_call Hin.
  - intros payload Hin. rewrite Hrun in Hin.
    destruct (Conflux.to0x rt (getProp params "gas")) as [gas|e'].
    + assert (Hp : payload
                   = JObj (ConfluxPayload.options rt w params price
                             (ConfluxPayload.sender w params) nonce current
                           ++ [("storageLimit", JStr "0x0"); ("gas", JStr gas)])).
      { destruct Hcalls as [-> | ->]; pick_call Hin;
          injection Hin as <-; reflexivity. }
      rewrite Hp. split; [reflexivity|]. exists gas. split; reflexivity.
    + exfalso. destruct Hcalls as [-> | ->]; pick_call Hin.
Qed.

(** X15. With the estimate-gas-price option off, the oracle is never
    asked and no ceiling is applied: the payload carries the caller's
    [gasPrice] as it came, whatever it is, and the hexadecimal text of
    [conflux.defaultGasPrice] when the caller gave none. *)
Theorem caller_gas_price_is_submitted_unchecked :
  forall rt w node params payload,
    Conflux.estimateGasPrice w = false ->
    In (Conflux.SendTransaction payload)
       (fst (Conflux.processTransaction rt w node params)) ->
    getProp payload "gasPrice"
    = jsOr (getProp params "gasPrice")
           (JStr ("0x" ++ toString16 (Conflux.defaultGasPrice w))) /\
    ~ In Conflux.GetGasPrice (fst (Conflux.processTransaction rt w node params)).
Proof.
  intros rt w node params payload Hoff H.
  destruct (processTransaction_run rt w node params payload H)
    as (calls & price & current & nonce & sl & gas & Hrun).
  cbv zeta in Hrun.
  destruct Hrun as (Hc & Hn & _ & _ & _ & _ & _ & -> & ->).
  unfold Conflux.chooseGasPrice in Hc. rewrite Hoff in Hc.
  unfold readProp in Hc. rewrite Hn in Hc. simpl in Hc.
  injection Hc as <- <-.
  split; [reflexivity|].
  intros Hin. pick_call Hin.
Qed.

(** X16. [processTransaction] submits at most once, as the last thing
    it does, and answers what the node answered to the submission:
    every failure before it leaves the node without a transaction. *)
Theorem submission_is_the_last_call :
  forall rt w node params payload,
    In (Conflux.SendTransaction payload)
       (fst (Conflux.processTransaction rt w node params)) ->
    exists before,
      fst (Conflux.processTransaction rt w node params)
      = (before ++ [Conflux.SendTransaction payload])%list /\
      (forall other, ~ In (Conflux.SendTransaction other) before) /\
      snd (Conflux.processTransaction rt w node params)
      = Conflux.sendTransaction node payload.
Proof.
  intros rt w node params payload H.
  destruct (processTransaction_run rt w node params payload H)
    as (calls & price & current & nonce & sl & gas & Hrun).
  cbv zeta in Hrun.
  destruct Hrun as (Hc & _ & _ & _ & _ & _ & _ & _ & Hrun).
  pose proof (chooseGasPrice_calls w node params) as Hcalls.
  rewrite Hc in Hcalls. simpl in Hcalls.
  rewrite Hrun. cbn [fst snd].
  eexists (calls ++ [_; _; _])%list.
  split; [rewrite <- List.app_assoc; reflexivity|].
  split; [|reflexivity].
  intros other Hin. destruct Hcalls as [-> | ->]; pick_call Hin.
Qed.

(* ================================================================== *)
(** ** The epoch-chain wrapper: quantities as hexadecimal texts *)
(* ================================================================== *)

(** X8. [to0x] fails, with a [TypeError], exactly on [null], on
    [undefined] and on a value that cannot be turned into text (an
    object with a [toString] of its own, an array that holds one); on
    every other value it answers a text.  Whatever it answers starts
    with [0x], and [to0x] leaves its own answers as they are.  For a
    number the answer is [0x] followed by its hexadecimal digits, which
    read back as the number when it is not negative. *)
Theorem to0x_prefixes_exactly_once :
  forall rt value,
    (Conflux.to0x rt value = Thrown TypeError <->
     nullish value = true \/ printable value = false) /\
    (forall e, Conflux.to0x rt value = Thrown e -> e = TypeError) /\
    (nullish value = true \/ printable value = false \/
     exists text, Conflux.to0x rt value = Ok text) /\
    (forall text,
       Conflux.to0x rt value = Ok text ->
       String.prefix "0x" text = true /\
       Conflux.to0x rt (JStr text) = Ok text /\
       (forall n, value = JNum n ->
                  text = "0x" ++ toString16 n /\
                  (0 <= n -> HexString.to_Z text = n))).
Proof.
  intros rt value. unfold Conflux.to0x.
  split; [|split; [|split]].
  - destruct (nullish value); [tauto|].
    destruct (printable value); [|tauto].
    split; [discriminate|]. intros [H|H]; discriminate H.
  - intros e. destruct (nullish value); [congruence|].
    destruct (printable value); congruence.
  - destruct (nullish value); [tauto|].
    destruct (printable value); [|tauto].
    right. right. eexists. reflexivity.
  - intros text. destruct (nullish value); [discriminate|].
    destruct (printable value); [|discriminate].
    intros [= <-].
    assert (Hp : String.prefix "0x"
                   (if String.prefix "0x" (toStringRadix16 rt value)
                    then toStringRadix16 rt value
                    else "0x" ++ toStringRadix16 rt value) = true).
    { destruct (String.prefix "0x" (toStringRadix16 rt value)) eqn:E;
        [exact E|].
      simpl. destruct (ascii_dec "0" "0"); [|congruence].
      destruct (ascii_dec "x" "x"); [|congruence].
      destruct (toStringRadix16 rt value); reflexivity. }
    split; [exact Hp|]. split.
    + set (text := if String.prefix "0x" (toStringRadix16 rt value)
                   then toStringRadix16 rt value
                   else "0x" ++ toStringRadix16 rt value) in *.
      change (Ok (if String.prefix "0x" text then text else "0x" ++ text)
              = Ok text).
      rewrite Hp. reflexivity.
    + intros n ->. cbn [toStringRadix16]. rewrite toString16_unprefixed.
      split; [reflexivity|]. apply hex_text_value.
Qed.

(** X9. [estimateGas] answers [0x] followed by the hexadecimal digits
    of the estimated gas limit, and fails as the node's estimation
    fails.  It agrees with [processTransaction]: for the options a
    submitting run had estimated, with a numeric gas limit, the [gas]
    of the payload is the very text [estimateGas] answers for these
    options. *)
Theorem estimateGas_agrees_with_the_submitted_gas :
  forall rt w node params options payload estimation n,
    In (Conflux.EstimateGasAndCollateral options)
       (fst (Conflux.processTransaction rt w node params)) ->
    In (Conflux.SendTransaction payload)
       (fst (Conflux.processTransaction rt w node params)) ->
    Conflux.estimateGasAndCollateral node options = Ok estimation ->
    getProp estimation "gasLimit" = JNum n ->
    ConfluxReads.estimateGas rt node options
    = ([Conflux.EstimateGasAndCollateral options], Ok ("0x" ++ toString16 n)) /\
    getProp payload "gas" = JStr ("0x" ++ toString16 n) /\
    (0 <= n -> HexString.to_Z ("0x" ++ toString16 n) = n).
Proof.
  intros rt w node params options payload estimation n He Hs Hest Hn.
  split; [|split; [|apply hex_text_value]].
  - unfold ConfluxReads.estimateGas, Conflux.bind, Conflux.call, Conflux.lift,
      readProp.
    rewrite Hest.
    destruct estimation; try discriminate Hn. simpl in *. rewrite Hn.
    reflexivity.
  - destruct (processTransaction_estimated rt w node params options He)
      as (calls & price & current & nonce & Hrun).
    cbv zeta in Hrun. destruct Hrun as (Hc & -> & Hrun).
    rewrite Hest in Hrun.
    pose proof (chooseGasPrice_calls w node params) as Hcalls.
    rewrite Hc in Hcalls. simpl in Hcalls.
    rewrite Hrun in Hs.
    destruct (Conflux.to0x rt (getProp estimation "storageCollateralized"))
      as [sl|e1]; [|exfalso; destruct Hcalls as [-> | ->]; pick_call Hs].
    rewrite Hn in Hs.
    assert (Hg : Conflux.to0x rt (JNum n) = Ok ("0x" ++ toString16 n)).
    { unfold Conflux.to0x. simpl. rewrite toString16_unprefixed. reflexivity. }
    rewrite Hg in Hs.
    destruct Hcalls as [-> | ->]; pick_call Hs; injection Hs as <-; reflexivity.
Qed.

(** X10. [processChainId] answers the hexadecimal text of the network
    id, except that network 1 is answered as 70 ([0x46]); it never
    answers [0x1].  The [chainId] written in a submitted transaction is
    that of the network id itself: the two differ exactly on
    network 1. *)
Theorem chain_id_answered_and_chain_id_submitted :
  forall rt w node params payload,
    In (Conflux.SendTransaction payload)
       (fst (Conflux.processTransaction rt w node params)) ->
    getProp payload "chainId"
    = JStr ("0x" ++ toString16 (Conflux.networkId w)) /\
    (Conflux.networkId w = 1 -> ConfluxReads.processChainId w = "0x46") /\
    ConfluxReads.processChainId w <> "0x1" /\
    (JStr (ConfluxReads.processChainId w) = getProp payload "chainId"
     <-> Conflux.networkId w <> 1).
Proof.
  intros rt w node params payload H.
  destruct (processTransaction_run rt w node params payload H)
    as (calls & price & current & nonce & sl & gas & Hrun).
  cbv zeta in Hrun.
  destruct Hrun as (_ & _ & _ & _ & _ & _ & _ & -> & _).
  assert (Hid : forall a b, "0x" ++ toString16 a = "0x" ++ toString16 b -> a = b).
  { intros a b E. apply toString16_inj. simpl in E. congruence. }
  change (getProp (JObj (ConfluxPayload.options rt w params price
                           (ConfluxPayload.sender w params) nonce current
                         ++ [("storageLimit", JStr sl); ("gas", JStr gas)]))
                  "chainId")
    with (JStr ("0x" ++ toString16 (Conflux.networkId w))).
  unfold ConfluxReads.processChainId, ConfluxReads.getNetworkId.
  split; [reflexivity|]. split; [|split; [|split]].
  - intros ->. reflexivity.
  - destruct (Z.eqb_spec (Conflux.networkId w) 1) as [E|E];
      [discriminate|].
    intros E1. apply E. apply (Hid _ 1). exact E1.
  - destruct (Z.eqb_spec (Conflux.networkId w) 1) as [E|E]; [|intros _; exact E].
    intros E1.
    assert (E2 : "0x" ++ toString16 70 = "0x" ++ toString16 (Conflux.networkId w))
      by congruence.
    apply Hid in E2. lia.
  - intros E. destruct (Z.eqb_spec (Conflux.networkId w) 1); [contradiction|].
    reflexivity.
Qed.

(* ================================================================== *)
(** ** The epoch-chain wrapper: syncing status and calls *)
(* ================================================================== *)

(** X11. [getSyncingStatus] never fails.  With the always-synced option
    it answers [false] without asking the node.  Otherwise it asks for
    the status once and answers either [false] (which covers a failure
    of the node and a status without one of the three epochs), or the
    object of the three texts [startingBlock], [currentBlock] and
    [highestBlock]; for a status with the three epochs as numbers these
    are [0x] followed by their hexadecimal digits. *)
Theorem getSyncingStatus_never_fails :
  forall rt w sdk,
    (Conflux.alwaysSynced w = true ->
     ConfluxReads.getSyncingStatus rt w sdk = ([], Ok (JBool false))) /\
    (Conflux.alwaysSynced w = false ->
     fst (ConfluxReads.getSyncingStatus rt w sdk) = [ConfluxReads.GetStatus]) /\
    (exists answer,
       snd (ConfluxReads.getSyncingStatus rt w sdk) = Ok answer /\
       (answer = JBool false \/
        exists a b c,
          answer = JObj [("startingBlock", JStr a); ("currentBlock", JStr b);
                         ("highestBlock", JStr c)])) /\
    (forall status a b c,
       Conflux.alwaysSynced w = false ->
       ConfluxReads.getStatus sdk = Ok status ->
       getProp status "latestCheckpoint" = JNum a ->
       getProp status "latestConfirmed" = JNum b ->
       getProp status "epochNumber" = JNum c ->
       snd (ConfluxReads.getSyncingStatus rt w sdk)
       = Ok (JObj [("startingBlock", JStr ("0x" ++ toString16 a));
                   ("currentBlock", JStr ("0x" ++ toString16 b));
                   ("highestBlock", JStr ("0x" ++ toString16 c))])).
Proof.
  intros rt w sdk. unfold ConfluxReads.getSyncingStatus.
  split; [intros ->; reflexivity|].
  split; [intros ->; reflexivity|].
  split.
  - destruct (Conflux.alwaysSynced w); [eexists; split; [reflexivity|tauto]|].
    cbn [snd].
    destruct (ConfluxReads.getStatus sdk) as [status|e];
      [|eexists; split; [reflexivity|tauto]].
    unfold ConfluxReads.syncingOf.
    destruct (ConfluxReads.hexOf rt status "latestCheckpoint");
      [|eexists; split; [reflexivity|tauto]].
    destruct (ConfluxReads.hexOf rt status "latestConfirmed");
      [|eexists; split; [reflexivity|tauto]].
    destruct (ConfluxReads.hexOf rt status "epochNumber");
      [|eexists; split; [reflexivity|tauto]].
    eexists. split; [reflexivity|]. right. eexists. eexists. eexists. reflexivity.
  - intros status a b c -> -> Ha Hb Hc.
    cbn [snd]. unfold ConfluxReads.syncingOf, ConfluxReads.hexOf, readProp.
    destruct status; try discriminate Ha.
    cbn [nullish]. rewrite Ha, Hb, Hc. reflexivity.
Qed.

(** X7. [call], for a transaction that is an object, when the epoch
    the node reports, the interleave and the last known epoch are
    non-negative safe integers.  The rollback check has logged its line, if any, and the
    wrapper has recorded the reported epoch.  The caller's [from] is
    kept, and the first account of the wallet is put in its place when
    the caller gave none.  When the fields of the transaction can be
    written to the log, the transaction is evaluated at the reported
    epoch minus the interleave, whatever epoch the caller passed, and
    the node's answer is returned.  When one of them cannot, [call]
    fails with a [TypeError] and the transaction does not reach the
    node.  When the epoch query fails, so does [call], and the node is
    asked nothing else. *)
Theorem call_is_pinned_behind_the_observed_epoch :
  forall w node sdk tx epoch,
    (forall observed,
       Conflux.getEpochNumber node (Some (Conflux.epochLabel w)) = Ok observed ->
       safeNatural observed ->
       safeNatural (Conflux.interleaveEpochs w) ->
       safeNatural (Conflux.lastKnownEpochNumber w) ->
       let at_epoch := observed - Conflux.interleaveEpochs w in
       let sent :=
         if truthy (lookup "from" tx) then tx
         else ConfluxReads.setProp "from"
                (nth 0%nat (map JStr (Conflux.getAccounts w)) JUndefined) tx in
       let log :=
         if observed <? Conflux.lastKnownEpochNumber w then
           if observed <=? Conflux.lastKnownEpochNumber w
                           - Conflux.interleaveEpochs w
           then [Conflux.ThreateningRollback (Conflux.lastKnownEpochNumber w)
                   observed]
           else [Conflux.HarmlessRollback (Conflux.lastKnownEpochNumber w)
                   observed]
         else [] in
       exists w',
         Conflux.lastKnownEpochNumber w' = observed /\
         Conflux.interleaveEpochs w' = Conflux.interleaveEpochs w /\
         Conflux.getAccounts w' = Conflux.getAccounts w /\
         (ConfluxReads.loggable sent = true ->
          ConfluxReads.call w node sdk tx epoch
          = (log,
             [ConfluxReads.GetEpochNumber (Conflux.epochLabel w);
              ConfluxReads.ConfluxCall (JObj sent) at_epoch],
             w',
             ConfluxReads.conflux_call sdk (JObj sent) at_epoch)) /\
         (ConfluxReads.loggable sent = false ->
          ConfluxReads.call w node sdk tx epoch
          = (log, [ConfluxReads.GetEpochNumber (Conflux.epochLabel w)], w',
             Thrown TypeError))) /\
    (forall e,
       Conflux.getEpochNumber node (Some (Conflux.epochLabel w)) = Thrown e ->
       ConfluxReads.call w node sdk tx epoch
       = ([], [ConfluxReads.GetEpochNumber (Conflux.epochLabel w)], w, Thrown e)).
Proof.
  intros w node sdk tx epoch. unfold ConfluxReads.call, Conflux.checkRollbacks.
  split.
  - intros observed -> _ _ _. cbv zeta.
    exists (Conflux.observe w observed).
    repeat split.
    + intros Hl. cbn [Conflux.lastKnownEpochNumber Conflux.interleaveEpochs
                      Conflux.observe Conflux.getAccounts Conflux.wallet].
      unfold Conflux.getAccounts in Hl. rewrite Hl. reflexivity.
    + intros Hl. cbn [Conflux.lastKnownEpochNumber Conflux.interleaveEpochs
                      Conflux.observe Conflux.getAccounts Conflux.wallet].
      unfold Conflux.getAccounts in Hl. rewrite Hl. reflexivity.
  - intros e ->. reflexivity.
Qed.

(** X17. A rollback check that returns has asked the node for the
    epoch of the wrapper's label and returns what the node reported.
    It logs one line when that epoch is below the last known one, a
    threatening rollback when it is not above the last known epoch
    minus the interleave and a harmless one otherwise, and no line
    when it is not below.  In the wrapper it changes the last known
    epoch, which becomes the reported one, and nothing else: the
    network, the default gas, the label, the two gas price settings,
    the interleave, the syncing switch and the wallet with its
    accounts are as before.  Checked again while the node reports the
    same epoch, it logs nothing and leaves the wrapper as it is. *)
Theorem rollback_check_only_moves_the_epoch :
  forall w node log w' observed,
    Conflux.checkRollbacks w node = (log, w', Ok observed) ->
    Conflux.getEpochNumber node (Some (Conflux.epochLabel w)) = Ok observed /\
    log = (if observed <? Conflux.lastKnownEpochNumber w then
             if observed <=? Conflux.lastKnownEpochNumber w
                             - Conflux.interleaveEpochs w
             then [Conflux.ThreateningRollback (Conflux.lastKnownEpochNumber w)
                     observed]
             else [Conflux.HarmlessRollback (Conflux.lastKnownEpochNumber w)
                     observed]
           else []) /\
    Conflux.lastKnownEpochNumber w' = observed /\
    Conflux.networkId w' = Conflux.networkId w /\
    Conflux.defaultGas w' = Conflux.defaultGas w /\
    Conflux.epochLabel w' = Conflux.epochLabel w /\
    Conflux.estimateGasPrice w' = Conflux.estimateGasPrice w /\
    Conflux.interleaveEpochs w' = Conflux.interleaveEpochs w /\
    Conflux.alwaysSynced w' = Conflux.alwaysSynced w /\
    Conflux.wallet w' = Conflux.wallet w /\
    Conflux.defaultGasPrice w' = Conflux.defaultGasPrice w /\
    Conflux.getAccounts w' = Conflux.getAccounts w /\
    Conflux.checkRollbacks w' node = ([], w', Ok observed).
Proof.
  intros w node log w' observed. unfold Conflux.checkRollbacks.
  destruct (Conflux.getEpochNumber node (Some (Conflux.epochLabel w)))
    as [epoch|e] eqn:E; [|discriminate].
  intros [= <- <- <-].
  repeat split. simpl. rewrite E. simpl.
  rewrite Z.ltb_irrefl. reflexivity.
Qed.

(* ================================================================== *)
(** ** The claim-chain wrapper: the accounts [setup] derives *)
(* ================================================================== *)

(** A round of the loop that succeeds has derived a pair from the
    [j]-th path, asked the chain for its address, and pushed the
    three. *)
Lemma setupRound_success chain j w t w' u :
  Reef.setupRound chain j w = (t, w', Ok u) ->
  exists pair evm,
    Reef.addFromUri chain (Reef.uriOf (Reef.seedPhrase w) j) = Ok pair /\
    Reef.getAddress chain pair = Ok evm /\
    w' = {| Reef.accounts := (Reef.accounts w ++ [evm])%list;
            Reef.keyringPairs := (Reef.keyringPairs w ++ [pair])%list;
            Reef.numAddresses := Reef.numAddresses w;
            Reef.seedPhrase := Reef.seedPhrase w;
            Reef.signers := (Reef.signers w ++ [ {| Reef.substrate := pair |} ])%list |}.
Proof.
  unfold Reef.setupRound, Reef.pushAccount. intros H.
  run_reef; settle; eexists; eexists; repeat split; eassumption.
Qed.

(** The rounds of a loop that succeeds, one after the other. *)
Lemma setupLoop_success chain todo : forall j w t w' u,
  Reef.setupLoop chain todo j w = (t, w', Ok u) ->
  exists pairs evms,
    Forall2 (fun i pair =>
               Reef.addFromUri chain (Reef.uriOf (Reef.seedPhrase w) i) = Ok pair)
            (seq j todo) pairs /\
    Forall2 (fun pair evm => Reef.getAddress chain pair = Ok evm) pairs evms /\
    Reef.accounts w' = (Reef.accounts w ++ evms)%list /\
    Reef.keyringPairs w' = (Reef.keyringPairs w ++ pairs)%list /\
    Reef.signers w'
    = (Reef.signers w ++ map (fun pair => {| Reef.substrate := pair |}) pairs)%list /\
    Reef.numAddresses w' = Reef.numAddresses w /\
    Reef.seedPhrase w' = Reef.seedPhrase w.
Proof.
  induction todo as [|todo IH]; intros j w t w' u; simpl.
  - intros [= _ <- _]. exists [], []. rewrite !List.app_nil_r.
    repeat split; constructor.
  - unfold Reef.bind.
    destruct (Reef.setupRound chain j w) as [[t1 w1] [u1|e]] eqn:E1;
      [|discriminate].
    destruct (Reef.setupLoop chain todo (S j) w1) as [[t2 w2] r2] eqn:E2.
    intros [= _ <- ->].
    apply setupRound_success in E1. destruct E1 as (pair & evm & Hp & He & ->).
    apply IH in E2. simpl in E2.
    destruct E2 as (pairs & evms & Hps & Hes & Ha & Hk & Hs & Hn & Hseed).
    exists (pair :: pairs), (evm :: evms).
    rewrite Ha, Hk, Hs, <- !List.app_assoc. simpl.
    repeat split; try assumption; constructor; assumption.
Qed.

(** X18. When [setup] succeeds on a wrapper as the constructor leaves
    it, the wrapper holds one account per derivation path: the [j]-th
    keyring pair is the one derived from the seed phrase for [j = 0]
    and from [seed//(j-1)] after that, the [j]-th signer is bound to
    the [j]-th pair, the [j]-th account is the address the chain
    reports for it, and these pairs, all of them, are the ones handed
    to the signing key.  There are [numAddresses] of each. *)
Theorem setup_derives_one_account_per_path :
  forall chain seed n calls w,
    Reef.setup chain (Reef.construct seed n) = (calls, w, Ok tt) ->
    exists pairs,
      Forall2 (fun j pair => Reef.addFromUri chain (Reef.uriOf seed j) = Ok pair)
              (seq 0 n) pairs /\
      Forall2 (fun pair account => Reef.getAddress chain pair = Ok account)
              pairs (Reef.getAccounts w) /\
      Reef.keyringPairs w = pairs /\
      Reef.signers w = map (fun pair => {| Reef.substrate := pair |}) pairs /\
      Reef.addKeyringPair chain pairs = Ok tt /\
      length (Reef.getAccounts w) = n /\
      Reef.numAddresses w = n.
Proof.
  intros chain seed n calls w H.
  unfold Reef.setup, Reef.eraseSeedPhrase in H.
  unfold Reef.bind at 1 2, Reef.lift at 1, Reef.get at 1 in H.
  destruct (Reef.isReady chain); [|discriminate H].
  unfold Reef.bind at 1 in H.
  destruct (Reef.setupLoop chain (Reef.numAddresses (Reef.construct seed n)) 0
              (Reef.construct seed n)) as [[t1 w1] [u|e]] eqn:El;
    [|discriminate H].
  apply setupLoop_success in El. simpl in El.
  destruct El as (pairs & evms & Hps & Hes & Ha & Hk & Hs & Hn & Hseed).
  run_reef; settle.
  unfold Reef.getAccounts.
  exists (Reef.keyringPairs w1).
  repeat split; try assumption.
  rewrite <- (Forall2_length Hes), <- (Forall2_length Hps). apply length_seq.
Qed.

(** A round of the loop only adds to the accounts. *)
Lemma setupRound_extends chain j w t w' r :
  Reef.setupRound chain j w = (t, w', r) ->
  exists more, Reef.accounts w' = (Reef.accounts w ++ more)%list.
Proof.
  unfold Reef.setupRound, Reef.pushAccount. intros H.
  run_reef; solve [eexists; reflexivity | exists []; rewrite List.app_nil_r; reflexivity].
Qed.

(** So does any number of rounds. *)
Lemma setupLoop_extends chain todo : forall j w t w' r,
  Reef.setupLoop chain todo j w = (t, w', r) ->
  exists more, Reef.accounts w' = (Reef.accounts w ++ more)%list.
Proof.
  induction todo as [|todo IH]; intros j w t w' r; simpl.
  - intros [= _ <- _]. exists []. rewrite List.app_nil_r. reflexivity.
  - unfold Reef.bind.
    destruct (Reef.setupRound chain j w) as [[t1 w1] [u|e]] eqn:E1.
    + destruct (Reef.setupLoop chain todo (S j) w1) as [[t2 w2] r2] eqn:E2.
      intros [= _ <- _].
      apply setupRound_extends in E1. apply IH in E2.
      destruct E1 as [m1 E1], E2 as [m2 E2].
      exists (m1 ++ m2)%list. rewrite E2, E1, List.app_assoc. reflexivity.
    + intros [= _ <- _]. apply setupRound_extends in E1. exact E1.
Qed.

(** X19. However [setup] ends, on success or on a failure half way, and
    whatever wrapper it is called on: the accounts that were listed
    are still listed first and in the same order, there are as many
    signers as accounts, and each signer answers to the account at its
    position (given that this was so before). *)
Theorem setup_keeps_signers_in_step :
  forall chain w calls w' r,
    Gateway.consistent chain w ->
    Reef.setup chain w = (calls, w', r) ->
    Gateway.consistent chain w' /\
    length (Reef.signers w') = length (Reef.getAccounts w') /\
    exists more, Reef.getAccounts w' = (Reef.getAccounts w ++ more)%list.
Proof.
  intros chain w calls w' r H0 H.
  assert (Hboth : Gateway.consistent chain w' /\
                  exists more, Reef.accounts w' = (Reef.accounts w ++ more)%list).
  { unfold Reef.setup, Reef.eraseSeedPhrase in H.
    unfold Reef.bind at 1 2, Reef.lift at 1, Reef.get at 1 in H.
    destruct (Reef.isReady chain).
    2:{ injection H as _ <- _. split; [exact H0|].
        exists []. rewrite List.app_nil_r. reflexivity. }
    unfold Reef.bind at 1 in H.
    destruct (Reef.setupLoop chain (Reef.numAddresses w) 0 w)
      as [[t1 w1] [u|e]] eqn:El;
      pose proof (setupLoop_extends _ _ _ _ _ _ _ El) as Hext;
      apply setupLoop_keeps in El; destruct El as [_ Hc]; specialize (Hc H0).
    - run_reef; split; assumption.
    - injection H as _ <- _. split; assumption. }
  destruct Hboth as [Hc Hext].
  split; [exact Hc|]. split; [|exact Hext].
  exact (Forall2_length Hc).
Qed.

(** A call made by [m >>= k] on the claim chain is made by [m], or by
    [k] on the value and the wrapper [m] left. *)
Lemma reef_bind_calls {A B} (m : Reef.M A) (k : A -> Reef.M B) w c :
  In c (fst (fst (Reef.bind m k w))) ->
  In c (fst (fst (m w))) \/
  exists a, snd (m w) = Ok a /\ In c (fst (fst (k a (snd (fst (m w)))))).
Proof.
  unfold Reef.bind.
  destruct (m w) as [[t w1] [a|e]]; simpl.
  - destruct (k a w1) as [[t' w2] r] eqn:E. simpl. intros H.
    apply in_app_or in H. destruct H; [left; assumption|].
    right. exists a. rewrite E. split; [reflexivity|assumption].
  - intros H. left. assumption.
Qed.

(** A round claims the identity it derived, and only when the chain
    said it was unclaimed. *)
Lemma setupRound_claim chain j w who :
  In (Reef.ClaimDefaultAccount who) (fst (fst (Reef.setupRound chain j w))) ->
  Reef.isClaimed chain who = Ok false /\
  Reef.addFromUri chain (Reef.uriOf (Reef.seedPhrase w) j) = Ok who.
Proof.
  unfold Reef.setupRound, Reef.pushAccount. intros H.
  run_reef; pick_call H; injection H as <-; split;
    solve [assumption | reflexivity].
Qed.

(** So do the rounds of the loop. *)
Lemma setupLoop_claim chain who todo : forall j w,
  In (Reef.ClaimDefaultAccount who) (fst (fst (Reef.setupLoop chain todo j w))) ->
  Reef.isClaimed chain who = Ok false /\
  exists i, (j <= i < j + todo)%nat /\
            Reef.addFromUri chain (Reef.uriOf (Reef.seedPhrase w) i) = Ok who.
Proof.
  induction todo as [|todo IH]; intros j w H; simpl in H; [destruct H|].
  apply reef_bind_calls in H. destruct H as [H | [u [E H]]].
  - apply setupRound_claim in H. destruct H as [Hc Hu].
    split; [exact Hc|]. exists j. split; [lia|exact Hu].
  - destruct (Reef.setupRound chain j w) as [[t1 w1] r1] eqn:E1.
    simpl in E, H. subst r1.
    apply setupRound_keeps in E1. destruct E1 as [Hseed _].
    apply IH in H. destruct H as [Hc (i & Hi & Hu)].
    split; [exact Hc|]. exists i. rewrite <- Hseed. split; [lia|exact Hu].
Qed.

(** X20. [setup] claims an EVM account only for an identity it has
    derived from the seed phrase, and only after the chain has said
    that this identity has none: an identity that is claimed already is
    never claimed again. *)
Theorem setup_claims_only_unclaimed_identities :
  forall chain w who,
    In (Reef.ClaimDefaultAccount who) (fst (fst (Reef.setup chain w))) ->
    Reef.isClaimed chain who = Ok false /\
    exists j, (j < Reef.numAddresses w)%nat /\
              Reef.addFromUri chain (Reef.uriOf (Reef.seedPhrase w) j) = Ok who.
Proof.
  intros chain w who H. unfold Reef.setup in H.
  apply reef_bind_calls in H. destruct H as [H | [u [_ H]]]; [destruct H|].
  assert (Hw : snd (fst (Reef.lift (Reef.isReady chain) w)) = w)
    by (unfold Reef.lift; reflexivity).
  rewrite Hw in H. clear Hw.
  apply reef_bind_calls in H. destruct H as [H | [w0 [E H]]]; [destruct H|].
  simpl in E. injection E as <-. simpl in H.
  apply reef_bind_calls in H. destruct H as [H | [u' [E H]]].
  - apply setupLoop_claim in H. destruct H as [Hc (i & Hi & Hu)].
    split; [exact Hc|]. exists i. split; [lia|exact Hu].
  - exfalso. unfold Reef.eraseSeedPhrase in H.
    destruct (Reef.setupLoop chain (Reef.numAddresses w) 0 w) as [[t1 w1] r1].
    simpl in H. run_reef; pick_call H.
Qed.

(* ================================================================== *)
(** ** The claim-chain wrapper: who signs a transaction *)
(* ================================================================== *)

(** With no signer left, the search fails: with the no-signing-key
    failure when the address can be written into its reason, with a
    [TypeError] when not. *)
Lemma findSigner_nil rt chain v w :
  Reef.findSigner rt chain v [] w
  = ([], w, Thrown (if printable v then Reef.noSigningKey rt v else TypeError)).
Proof.
  simpl. unfold Reef.bind, Reef.lift, Reef.throw, toText.
  destruct (printable v); reflexivity.
Qed.

(** The search for a signer never touches the wrapper. *)
Lemma findSigner_state rt chain v w : forall l,
  snd (fst (Reef.findSigner rt chain v l w)) = w.
Proof.
  induction l as [|s l IH]; [rewrite findSigner_nil; reflexivity|].
  simpl. unfold Reef.bind, Reef.call.
  destruct (Reef.getAddress chain (Reef.substrate s)) as [addr|e];
    [|reflexivity].
  destruct v; try reflexivity.
  destruct (String.eqb (toLowerCase addr) (toLowerCase s0)); [reflexivity|].
  destruct (Reef.findSigner rt chain (JStr s0) l w) as [[t w1] r] eqn:E.
  simpl in *. exact IH.
Qed.

(** The search for a signer only asks signers for their address. *)
Lemma findSigner_calls rt chain v w c : forall l,
  In c (fst (fst (Reef.findSigner rt chain v l w))) ->
  exists who, c = Reef.GetAddress who.
Proof.
  induction l as [|s l IH]; [rewrite findSigner_nil; intros []|].
  simpl. intros Hin. apply reef_bind_calls in Hin.
  destruct Hin as [Hin | [addr [_ Hin]]].
  - simpl in Hin. destruct Hin as [<-|[]]. eexists. reflexivity.
  - simpl in Hin. destruct v; try (destruct Hin; fail).
    destruct (String.eqb (toLowerCase addr) (toLowerCase s0));
      [destruct Hin|exact (IH Hin)].
Qed.

(** A search that succeeds: the address wanted is a text, the signer
    found is the first whose address matches it up to letter case, and
    the signers before it were asked and did not match. *)
Lemma findSigner_found rt chain v w : forall l t w' s,
  Reef.findSigner rt chain v l w = (t, w', Ok s) ->
  exists before after wanted addr,
    l = (before ++ s :: after)%list /\
    v = JStr wanted /\
    Reef.getAddress chain (Reef.substrate s) = Ok addr /\
    toLowerCase addr = toLowerCase wanted /\
    Forall (fun other =>
              exists a, Reef.getAddress chain (Reef.substrate other) = Ok a /\
                        toLowerCase a <> toLowerCase wanted) before /\
    t = map (fun other => Reef.GetAddress (Reef.substrate other))
            (before ++ [s])%list.
Proof.
  induction l as [|s0 l IH]; intros t w' s;
    [rewrite findSigner_nil; discriminate|].
  simpl. unfold Reef.bind, Reef.call.
  destruct (Reef.getAddress chain (Reef.substrate s0)) as [addr|e] eqn:Ea;
    [|discriminate].
  destruct v as [| | | |wanted| |]; try discriminate.
  destruct (String.eqb_spec (toLowerCase addr) (toLowerCase wanted)) as [E|E].
  - intros [= <- _ <-].
    exists [], l, wanted, addr. repeat split; try assumption. constructor.
  - destruct (Reef.findSigner rt chain (JStr wanted) l w) as [[t1 w1] r1] eqn:Ef.
    intros [= <- _ ->].
    destruct (IH _ _ _ eq_refl)
      as (before & after & wanted' & addr' & -> & [= <-] & Ha & Hl & Hb & ->).
    exists (s0 :: before), after, wanted, addr'.
    repeat split; try assumption.
    constructor; [|exact Hb]. exists addr. split; assumption.
Qed.

(** The same, for the search over the signers of the wrapper. *)
Lemma signer_lookup_found_helper rt chain v w calls w' signer :
  Reef.getSignerFromEvmAddress rt chain v w = (calls, w', Ok signer) ->
  w' = w /\
  exists before after wanted addr,
    Reef.signers w = (before ++ signer :: after)%list /\
    v = JStr wanted /\
    Reef.getAddress chain (Reef.substrate signer) = Ok addr /\
    toLowerCase addr = toLowerCase wanted /\
    Forall (fun other =>
              exists a, Reef.getAddress chain (Reef.substrate other) = Ok a /\
                        toLowerCase a <> toLowerCase wanted) before /\
    calls = map (fun other => Reef.GetAddress (Reef.substrate other))
                (before ++ [signer])%list.
Proof.
  unfold Reef.getSignerFromEvmAddress, Reef.bind, Reef.get. intros H.
  pose proof (findSigner_state rt chain v w (Reef.signers w)) as Hw.
  destruct (Reef.findSigner rt chain v (Reef.signers w) w)
    as [[t w1] r] eqn:Ef.
  simpl in Hw. subst w1. injection H as <- <- ->.
  split; [reflexivity|].
  exact (findSigner_found rt chain v w _ _ _ _ Ef).
Qed.

(** X22. [getSignerFromEvmAddress], for addresses made of ASCII
    characters (those of the signers, and the one wanted when it is a
    text).  It answers the first signer, in the order of the wrapper,
    whose address on the chain equals the address wanted once both are
    in lower case; it has asked the signers up to that one for their
    address, and those before it gave another address.  With no signer
    at all it fails: with the no-signing-key failure when the address
    wanted can be written into the reason, with a [TypeError] when it
    cannot.  For an address that is not a text it fails with a
    [TypeError] as soon as the first signer has given its address. *)
Theorem signer_lookup_answers_the_first_match :
  forall rt chain evmAddress w,
    (forall signer addr,
       In signer (Reef.signers w) ->
       Reef.getAddress chain (Reef.substrate signer) = Ok addr ->
       isAscii addr = true) ->
    (forall wanted, evmAddress = JStr wanted -> isAscii wanted = true) ->
    (forall calls w' signer,
       Reef.getSignerFromEvmAddress rt chain evmAddress w = (calls, w', Ok signer) ->
       w' = w /\
       exists before after wanted addr,
         Reef.signers w = (before ++ signer :: after)%list /\
         evmAddress = JStr wanted /\
         Reef.getAddress chain (Reef.substrate signer) = Ok addr /\
         toLowerCase addr = toLowerCase wanted /\
         Forall (fun other =>
                   exists a,
                     Reef.getAddress chain (Reef.substrate other) = Ok a /\
                     toLowerCase a <> toLowerCase wanted) before /\
         calls = map (fun other => Reef.GetAddress (Reef.substrate other))
                     (before ++ [signer])%list) /\
    (Reef.signers w = [] ->
     printable evmAddress = true ->
     Reef.getSignerFromEvmAddress rt chain evmAddress w
     = ([], w, Thrown (Reef.noSigningKey rt evmAddress))) /\
    (Reef.signers w = [] ->
     printable evmAddress = false ->
     Reef.getSignerFromEvmAddress rt chain evmAddress w
     = ([], w, Thrown TypeError)) /\
    (forall first rest addr,
       Reef.signers w = first :: rest ->
       Reef.getAddress chain (Reef.substrate first) = Ok addr ->
       (forall wanted, evmAddress <> JStr wanted) ->
       Reef.getSignerFromEvmAddress rt chain evmAddress w
       = ([Reef.GetAddress (Reef.substrate first)], w, Thrown TypeError)).
Proof.
  intros rt chain evmAddress w _ _.
  split; [|split; [|split]].
  - intros calls w' signer H.
    exact (signer_lookup_found_helper rt chain evmAddress w calls w' signer H).
  - unfold Reef.getSignerFromEvmAddress, Reef.bind, Reef.get.
    intros -> Hp. rewrite findSigner_nil, Hp. reflexivity.
  - unfold Reef.getSignerFromEvmAddress, Reef.bind, Reef.get.
    intros -> Hp. rewrite findSigner_nil, Hp. reflexivity.
  - unfold Reef.getSignerFromEvmAddress, Reef.bind, Reef.get.
    intros first rest addr -> Ha Hno. simpl.
    unfold Reef.bind, Reef.call. rewrite Ha.
    destruct evmAddress; try reflexivity.
    exfalso. exact (Hno _ eq_refl).
Qed.

(** The runs of [sendTransaction] that submit: the signer found, the
    nonce used, the transaction and the calls, in order. *)
Lemma sendTransaction_submits rt chain params w who tx :
  In (Reef.SendTransaction who tx)
     (fst (fst (Reef.sendTransaction rt chain params w))) ->
  exists before after wanted addr nonce,
    Reef.signers w = (before ++ {| Reef.substrate := who |} :: after)%list /\
    jsOr (getProp params "from") (JStr "") = JStr wanted /\
    Reef.getAddress chain who = Ok addr /\
    toLowerCase addr = toLowerCase wanted /\
    (if truthy (getProp params "nonce") then nonce = getProp params "nonce"
     else Reef.getTransactionCount chain who = Ok nonce) /\
    tx = JObj (Reef.setField "nonce" nonce
                 (Reef.setField "from" (JStr addr) (Reef.composed params))) /\
    fst (fst (Reef.sendTransaction rt chain params w))
    = (map (fun other => Reef.GetAddress (Reef.substrate other)) before
       ++ [Reef.GetAddress who; Reef.GetAddress who]
       ++ (if truthy (getProp params "nonce") then []
           else [Reef.GetTransactionCount who])
       ++ [Reef.SendTransaction who tx])%list.
Proof.
  intros H.
  unfold Reef.sendTransaction, Reef.bind, Reef.lift, Reef.call, Reef.ret
    in H |- *.
  cbv beta iota in H |- *.
  destruct (Reef.resolveApi chain); [|destruct H].
  rewrite composeTransaction_outcome in H |- *.
  destruct (nullish params); [destruct H|].
  destruct (Reef.loggable (Reef.composed params)); [|destruct H].
  destruct (Reef.getSignerFromEvmAddress rt chain
              (jsOr (lookup "from" (Reef.composed params)) (JStr "")) w)
    as [[t1 w1] [signer|e]] eqn:Eg.
  2:{ exfalso. cbn [fst snd app] in H.
      unfold Reef.getSignerFromEvmAddress, Reef.bind, Reef.get in Eg.
      assert (Hin : In (Reef.SendTransaction who tx)
                       (fst (fst (Reef.findSigner rt chain
                                    (jsOr (lookup "from" (Reef.composed params))
                                          (JStr ""))
                                    (Reef.signers w) w)))).
      { destruct (Reef.findSigner rt chain _ (Reef.signers w) w) as [[t2 w2] r2].
        injection Eg as <- _ _. exact H. }
      apply findSigner_calls in Hin. destruct Hin as [x Hin]. discriminate Hin. }
  destruct (signer_lookup_found_helper rt chain _ w _ _ _ Eg) as [-> Hfound].
  destruct Hfound as (before & after & wanted & addr & Hl & Hw & Ha & Hlow & _ & ->).
  change (lookup "from" (Reef.composed params)) with (getProp params "from") in Hw.
  assert (Hcalls : forall rest : list Reef.Call,
             (map (fun other => Reef.GetAddress (Reef.substrate other))
                  (before ++ [signer]) ++ rest)%list
             = (map (fun other => Reef.GetAddress (Reef.substrate other)) before
                ++ Reef.GetAddress (Reef.substrate signer) :: rest)%list).
  { intros rest. rewrite map_app, <- List.app_assoc. reflexivity. }
  assert (Hnot : forall l : list Reef.Signer,
             ~ In (Reef.SendTransaction who tx)
                  (map (fun other => Reef.GetAddress (Reef.substrate other)) l)).
  { intros l Hin. apply in_map_iff in Hin. destruct Hin as (s & Hs & _).
    discriminate Hs. }
  rewrite Ha in H |- *.
  change (lookup "nonce" (Reef.setField "from" (JStr addr)
                            (Reef.composed params)))
    with (getProp params "nonce") in H |- *.
  exists before, after, wanted, addr.
  destruct (truthy (getProp params "nonce")) eqn:En.
  - exists (getProp params "nonce").
    cbv beta iota in H |- *.
    destruct (toText rt (lookup "nonce" (Reef.setField "from" (JStr addr)
                                           (Reef.composed params)))).
    2:{ exfalso. simpl in H. apply in_app_or in H.
        destruct H as [H|H]; [destruct (Hnot _ H)|]. pick_call H. }
    destruct (Reef.signerSendTransaction chain (Reef.substrate signer) _) eqn:Es;
      simpl in H |- *;
      apply in_app_or in H; (destruct H as [H|H]; [destruct (Hnot _ H)|]);
      pick_call H; injection H as <- <-;
      (split; [rewrite Hl; destruct signer; reflexivity|]);
      repeat (split; [assumption || reflexivity|]);
      rewrite Hcalls; reflexivity.
  - cbv beta iota in H |- *.
    destruct (Reef.getTransactionCount chain (Reef.substrate signer))
      as [count|e] eqn:Ec.
    2:{ exfalso. simpl in H. apply in_app_or in H.
        destruct H as [H|H]; [destruct (Hnot _ H)|]. pick_call H. }
    exists count.
    destruct (toText rt (lookup "nonce" (Reef.setField "nonce" count
                                           (Reef.setField "from" (JStr addr)
                                              (Reef.composed params))))).
    2:{ exfalso. simpl in H. apply in_app_or in H.
        destruct H as [H|H]; [destruct (Hnot _ H)|]. pick_call H. }
    destruct (Reef.signerSendTransaction chain (Reef.substrate signer) _) eqn:Es;
      simpl in H |- *;
      apply in_app_or in H; (destruct H as [H|H]; [destruct (Hnot _ H)|]);
      pick_call H; injection H as <- <-;
      (split; [rewrite Hl; destruct signer; reflexivity|]);
      repeat (split; [assumption || reflexivity|]);
      rewrite Hcalls; reflexivity.
Qed.

(** X21. Whatever [sendTransaction] hands to a signer: that signer is
    one of the wrapper's, and its address on the chain equals the
    caller's [from] once both are in lower case.  The transaction
    carries that address as the chain spells it as [from], the
    caller's [to], [value], [data] and [gasPrice], the caller's [gas]
    under the name [gasLimit], and as [nonce] the caller's when it is
    truthy, and the transaction count of the signer otherwise. *)
Theorem submitted_transaction_is_signed_by_its_sender :
  forall rt chain params w who tx,
    In (Reef.SendTransaction who tx)
       (fst (fst (Reef.sendTransaction rt chain params w))) ->
    exists wanted addr,
      jsOr (getProp params "from") (JStr "") = JStr wanted /\
      In {| Reef.substrate := who |} (Reef.signers w) /\
      Reef.getAddress chain who = Ok addr /\
      toLowerCase addr = toLowerCase wanted /\
      getProp tx "from" = JStr addr /\
      getProp tx "to" = getProp params "to" /\
      getProp tx "value" = getProp params "value" /\
      getProp tx "data" = getProp params "data" /\
      getProp tx "gasLimit" = getProp params "gas" /\
      getProp tx "gasPrice" = getProp params "gasPrice" /\
      (if truthy (getProp params "nonce")
       then getProp tx "nonce" = getProp params "nonce"
       else Reef.getTransactionCount chain who = Ok (getProp tx "nonce")).
Proof.
  intros rt chain params w who tx H.
  destruct (sendTransaction_submits rt chain params w who tx H)
    as (before & after & wanted & addr & nonce
        & Hl & Hw & Ha & Hlow & Hn & -> & _).
  exists wanted, addr.
  split; [exact Hw|].
  split; [rewrite Hl; apply in_or_app; right; left; reflexivity|].
  split; [exact Ha|]. split; [exact Hlow|].
  repeat (split; [reflexivity|]).
  destruct (truthy (getProp params "nonce")); [subst nonce; reflexivity|exact Hn].
Qed.

(** X24. The calls of a [sendTransaction] that submits, in order: the
    signers of the wrapper are asked for their address up to the one
    that matches, that one is asked for its address once more, then
    for its transaction count unless the caller gave a truthy nonce,
    and the submission comes last.  So there is at most one submission
    per call, and a failure of any of these queries leaves the chain
    without a transaction. *)
Theorem claim_chain_submission_is_the_last_call :
  forall rt chain params w who tx,
    In (Reef.SendTransaction who tx)
       (fst (fst (Reef.sendTransaction rt chain params w))) ->
    exists before after,
      Reef.signers w = (before ++ {| Reef.substrate := who |} :: after)%list /\
      fst (fst (Reef.sendTransaction rt chain params w))
      = (map (fun other => Reef.GetAddress (Reef.substrate other)) before
         ++ [Reef.GetAddress who; Reef.GetAddress who]
         ++ (if truthy (getProp params "nonce") then []
             else [Reef.GetTransactionCount who])
         ++ [Reef.SendTransaction who tx])%list.
Proof.
  intros rt chain params w who tx H.
  destruct (sendTransaction_submits rt chain params w who tx H)
    as (before & after & wanted & addr & nonce
        & Hl & _ & _ & _ & _ & _ & Hcalls).
  exists before, after. split; [exact Hl|exact Hcalls].
Qed.

(** X23. Serving a request never changes the claim-chain wrapper:
    after [sendTransaction], [getSignerFromEvmAddress] or
    [mockGetFilterChanges], however they end, the wrapper (and with it
    the list [getAccounts] answers) is what it was. *)
Theorem serving_a_request_leaves_the_accounts_alone :
  forall rt chain w,
    (forall params,
       snd (fst (Reef.sendTransaction rt chain params w)) = w) /\
    (forall evmAddress,
       snd (fst (Reef.getSignerFromEvmAddress rt chain evmAddress w)) = w) /\
    (forall id, snd (fst (Reef.mockGetFilterChanges chain id w)) = w) /\
    (forall params,
       Reef.getAccounts (snd (fst (Reef.sendTransaction rt chain params w)))
       = Reef.getAccounts w).
Proof.
  intros rt chain w.
  assert (Hs : forall evmAddress,
             snd (fst (Reef.getSignerFromEvmAddress rt chain evmAddress w)) = w).
  { intros v. unfold Reef.getSignerFromEvmAddress, Reef.bind, Reef.get.
    pose proof (findSigner_state rt chain v w (Reef.signers w)) as Hw.
    destruct (Reef.findSigner rt chain v (Reef.signers w) w) as [[t w1] [s|e]];
      exact Hw. }
  assert (Ht : forall params,
             snd (fst (Reef.sendTransaction rt chain params w)) = w).
  { intros params.
    unfold Reef.sendTransaction, Reef.bind, Reef.lift, Reef.call, Reef.ret.
    cbv beta iota.
    destruct (Reef.resolveApi chain); [|reflexivity].
    rewrite composeTransaction_outcome.
    destruct (nullish params); [reflexivity|].
    destruct (Reef.loggable (Reef.composed params)); [|reflexivity].
    pose proof (Hs (jsOr (lookup "from" (Reef.composed params)) (JStr ""))) as Hw.
    destruct (Reef.getSignerFromEvmAddress rt chain
                (jsOr (lookup "from" (Reef.composed params)) (JStr "")) w)
      as [[t w1] [signer|e]]; simpl in Hw; subst w1; [|reflexivity].
    destruct (Reef.getAddress chain (Reef.substrate signer)); [|reflexivity].
    destruct (truthy (lookup "nonce" _)); cbv beta iota.
    - destruct (toText rt _); [|reflexivity].
      destruct (Reef.signerSendTransaction chain _ _); reflexivity.
    - destruct (Reef.getTransactionCount chain _); [|reflexivity].
      destruct (toText rt _); [|reflexivity].
      destruct (Reef.signerSendTransaction chain _ _); reflexivity. }
  split; [exact Ht|]. split; [exact Hs|]. split.
  - intros id. unfold Reef.mockGetFilterChanges, Reef.bind, Reef.call, Reef.ret.
    destruct (Reef.getBlockNumber chain); reflexivity.
  - intros params. rewrite Ht. reflexivity.
Qed.

(* ================================================================== *)
(** ** The dispatch router: one call, one answer *)
(* ================================================================== *)

(** X1. A request for [eth_accounts], [eth_sendTransaction] or
    [eth_sign] whose parameters are an array (or a text, or missing) is
    served by the wrapper's method of that name, called once with the
    parameters in order and the socket context last; the provider is
    not asked, and the value the method returns is the [result] of the
    response. *)
Theorem intercepted_request_is_served_by_its_handler :
  forall rt w conn request m handler args result,
    Server.method request = JStr m ->
    In (m, handler)
       [("eth_accounts", Server.getAccounts w);
        ("eth_sendTransaction", Server.processTransaction w);
        ("eth_sign", Server.processEthSignMessage w)] ->
    Server.spread rt (jsOr (Server.params request) (JArr [])) = Some args ->
    handler (args ++ [Server.socketOf conn request])%list = Ok result ->
    Server.handle rt w conn request
    = ([Server.Handled m (args ++ [Server.socketOf conn request])%list],
       Server.Sent (JObj [("jsonrpc", Server.jsonrpc request);
                          ("id", Server.id request);
                          ("result", result)])).
Proof.
  intros rt w conn request m handler args result Hm Hin Hs Hr.
  apply handle_result; [rewrite Hm; reflexivity|].
  rewrite (dispatch_intercepted rt w _ request m args Hm); [|
    simpl in Hin; simpl;
    destruct Hin as [[= <- _]|[[= <- _]|[[= <- _]|[]]]]; tauto | exact Hs].
  f_equal. rewrite <- Hr.
  simpl in Hin.
  destruct Hin as [[= <- <-]|[[= <- <-]|[[= <- <-]|[]]]]; reflexivity.
Qed.

(** X2. A request whose method can be written to the log and names no
    property of [handlers], own or inherited, makes exactly one call:
    the provider's [send], with the method and the parameters as they
    came.  What the provider returns is the [result] of the response,
    and what it throws, when it is neither [null] nor [undefined] and
    the [catch] block can describe it, is answered with an [error]. *)
Theorem unlisted_request_is_forwarded_as_it_came :
  forall rt w conn request,
    printable (Server.method request) = true ->
    Server.inHandlers (ToString rt (Server.method request)) = false ->
    fst (Server.handle rt w conn request)
    = [Server.Forwarded (Server.method request) (Server.params request)] /\
    (forall result,
       Server.provider_send w (Server.method request) (Server.params request)
       = Ok result ->
       snd (Server.handle rt w conn request)
       = Server.Sent (JObj [("jsonrpc", Server.jsonrpc request);
                            ("id", Server.id request);
                            ("result", result)])) /\
    (forall exception,
       Server.provider_send w (Server.method request) (Server.params request)
       = Thrown exception ->
       nullish exception = false ->
       Server.describable exception = true ->
       exists error,
         Server.normalize rt exception = Ok error /\
         snd (Server.handle rt w conn request)
         = Server.Sent (JObj [("jsonrpc", Server.jsonrpc request);
                              ("id", Server.id request);
                              ("error", error)])).
Proof.
  intros rt w conn request Hp H.
  rewrite (handle_logged rt w conn request Hp).
  rewrite (dispatch_forwarded rt w _ request H).
  split; [|split].
  - destruct (Server.provider_send w _ _) as [r|e]; [reflexivity|].
    destruct (Server.normalize rt e); reflexivity.
  - intros result ->. reflexivity.
  - intros exception -> Hn _.
    destruct (normalize_total_on_values rt exception Hn) as [error He].
    exists error. rewrite He. split; reflexivity.
Qed.

(** X3. Serving a request, the router calls at most one thing: either
    nothing, or one member of [handlers] (own or inherited) with the
    socket context as last argument, or the provider's [send] with the
    request's own method and parameters; never a handler and the
    provider both. *)
Theorem router_makes_at_most_one_call :
  forall rt w conn request,
    let events := fst (Server.handle rt w conn request) in
    events = [] \/
    (exists name args,
       events = [Server.Handled name (args ++ [Server.socketOf conn request])%list] /\
       name = ToString rt (Server.method request) /\
       Server.inHandlers name = true) \/
    (events = [Server.Forwarded (Server.method request) (Server.params request)] /\
     Server.inHandlers (ToString rt (Server.method request)) = false).
Proof.
  intros rt w conn request events. subst events.
  destruct (printable (Server.method request)) eqn:Hp;
    [|rewrite (handle_unprintable rt w conn request Hp); left; reflexivity].
  assert (E : fst (Server.handle rt w conn request)
              = fst (Server.dispatch rt w (Server.socketOf conn request) request)).
  { rewrite (handle_logged rt w conn request Hp).
    destruct (Server.dispatch rt w (Server.socketOf conn request) request)
      as [ev [r|e]]; [reflexivity|].
    destruct (Server.normalize rt e); reflexivity. }
  rewrite E. unfold Server.dispatch.
  destruct (Server.inHandlers (ToString rt (Server.method request))) eqn:Hin.
  - destruct (String.eqb (ToString rt (Server.method request)) "__proto__");
      [left; reflexivity|].
    destruct (Server.spread rt (jsOr (Server.params request) (JArr [])))
      as [args|]; [|left; reflexivity].
    right. left. exists (ToString rt (Server.method request)), args.
    repeat split. exact Hin.
  - right. right. split; reflexivity.
Qed.

(** X4. How a request ends, when what the call throws, if anything, is
    [null], [undefined] or an exception that the [catch] block can
    describe.  Either a response is sent, and then it is the object of
    exactly three members: the request's [jsonrpc], the request's [id],
    and one member more named [result] or [error].  Or no response is
    sent and a [TypeError] leaves the router, which happens in two
    cases only: the method could not be written to the first log line,
    and then nothing was called; or the call failed with [null] or
    [undefined]. *)
Theorem every_response_has_one_outcome_member :
  forall rt w conn request,
    (forall exception,
       snd (Server.dispatch rt w (Server.socketOf conn request) request)
       = Thrown exception ->
       nullish exception = false ->
       Server.describable exception = true) ->
    match snd (Server.handle rt w conn request) with
    | Server.Sent response =>
        printable (Server.method request) = true /\
        exists member value,
          response = JObj [("jsonrpc", Server.jsonrpc request);
                           ("id", Server.id request);
                           (member, value)] /\
          (member = "result" \/ member = "error")
    | Server.Escaped e =>
        e = TypeError /\
        ((printable (Server.method request) = false /\
          fst (Server.handle rt w conn request) = []) \/
         (printable (Server.method request) = true /\
          exists exception,
            snd (Server.dispatch rt w (Server.socketOf conn request) request)
            = Thrown exception /\
            nullish exception = true))
    end.
Proof.
  intros rt w conn request _.
  destruct (printable (Server.method request)) eqn:Hp.
  - rewrite (handle_logged rt w conn request Hp).
    destruct (Server.dispatch rt w (Server.socketOf conn request) request)
      as [ev [result|exception]]; cbn [snd].
    + split; [reflexivity|].
      exists "result", result. split; [reflexivity|tauto].
    + unfold Server.normalize.
      destruct (nullish exception) eqn:Hn; cbn [snd].
      * split; [reflexivity|]. right. split; [reflexivity|].
        exists exception. split; [reflexivity|exact Hn].
      * split; [reflexivity|].
        eexists "error", _. split; [reflexivity|tauto].
  - rewrite (handle_unprintable rt w conn request Hp). cbn [snd fst].
    split; [reflexivity|]. left. split; reflexivity.
Qed.

(** X5. Parameters that are not a list, given to one of the three
    listed methods, are dropped: a JSON object of named parameters
    that has no [length] of its own, a number other than zero and
    [true] spread to no argument at all, so that the method is called
    with the socket context alone, as it is for a request without
    parameters, and the value it returns is the [result] of the
    response. *)
Theorem named_params_are_dropped :
  forall rt w conn request m handler result,
    Server.method request = JStr m ->
    In (m, handler)
       [("eth_accounts", Server.getAccounts w);
        ("eth_sendTransaction", Server.processTransaction w);
        ("eth_sign", Server.processEthSignMessage w)] ->
    (exists props,
       Server.params request = JObj props /\ hasOwn "length" props = false) \/
    (exists n, Server.params request = JNum n /\ n <> 0) \/
    Server.params request = JBool true ->
    handler [Server.socketOf conn request] = Ok result ->
    Server.handle rt w conn request
    = ([Server.Handled m [Server.socketOf conn request]],
       Server.Sent (JObj [("jsonrpc", Server.jsonrpc request);
                          ("id", Server.id request);
                          ("result", result)])).
Proof.
  intros rt w conn request m handler result Hm Hin Hparams Hr.
  assert (Hs : Server.spread rt (jsOr (Server.params request) (JArr []))
               = Some []).
  { destruct Hparams as [(props & -> & Hl)|[(n & -> & Hn)| ->]].
    - unfold jsOr. cbn [truthy Server.spread]. rewrite Hl. reflexivity.
    - unfold jsOr. cbn [truthy].
      destruct (Z.eqb_spec n 0); [contradiction|reflexivity].
    - reflexivity. }
  apply handle_result; [rewrite Hm; reflexivity|].
  rewrite (dispatch_intercepted rt w _ request m [] Hm); [|
    simpl in Hin; simpl;
    destruct Hin as [[= <- _]|[[= <- _]|[[= <- _]|[]]]]; tauto | exact Hs].
  f_equal. rewrite <- Hr.
  simpl in Hin.
  destruct Hin as [[= <- <-]|[[= <- <-]|[[= <- <-]|[]]]]; reflexivity.
Qed.

(** X6. An exception with a truthy [code] that brings its own [body]:
    the error answered is the [error] member of that body (of its JSON
    copy for an object), whatever the [code], [reason] and [data] of
    the exception are.  A [body] under [error] is used in the same way
    when the exception has none of its own. *)
Theorem body_of_a_coded_exception_is_the_answer :
  forall rt exception,
    roundTrips rt ->
    wellFormed exception ->
    truthy (getProp exception "code") = true ->
    (forall props,
       getProp exception "body" = JObj props ->
       Server.normalize rt exception
       = Ok (getProp (jsonClone (JObj props)) "error")) /\
    (truthy (getProp exception "body") = false ->
     forall props,
       getProp (getProp exception "error") "body" = JObj props ->
       Server.normalize rt exception
       = Ok (getProp (jsonClone (JObj props)) "error")).
Proof.
  intros rt exception Hrt Hwf Hc.
  assert (Hn : nullish exception = false)
    by (destruct exception; try discriminate Hc; reflexivity).
  unfold Server.normalize. rewrite Hn, Hc. unfold Server.bodyOf.
  split.
  - intros props Hb. rewrite Hb. unfold jsOr. cbn [truthy].
    rewrite errorOfBody_object; [reflexivity|exact Hrt|].
    rewrite <- Hb. apply wellFormed_getProp. exact Hwf.
  - intros Hb props He. unfold jsOr at 1. rewrite Hb.
    assert (Ht : truthy (getProp exception "error") = true).
    { destruct (getProp exception "error"); try discriminate He; reflexivity. }
    unfold jsAnd. rewrite Ht, He. cbn [truthy].
    rewrite errorOfBody_object; [reflexivity|exact Hrt|].
    rewrite <- He. apply wellFormed_getProp, wellFormed_getProp. exact Hwf.
Qed.

(* ================================================================== *)
(** ** The properties above, on the sample inputs *)
(* ================================================================== *)

(** An [eth_sendTransaction] request with one transaction as parameter. *)
Lemma eth_sendTransaction_request_is_served :
  let request := Samples.request "eth_sendTransaction"
                   (JArr [Samples.transfer "0xAB"]) in
  let w := Samples.constantWrapper (Ok (JStr "0xfeed")) in
  Server.handle Reference.runtime w Samples.connection request
  = ([Server.Handled "eth_sendTransaction"
        [Samples.transfer "0xAB"; Server.socketOf Samples.connection request]],
     Server.Sent (JObj [("jsonrpc", JStr "2.0"); ("id", JNum 1);
                        ("result", JStr "0xfeed")])).
Proof.
  intros request w.
  apply (intercepted_request_is_served_by_its_handler Reference.runtime w
           Samples.connection request "eth_sendTransaction"
           (Server.processTransaction w) [Samples.transfer "0xAB"]
           (JStr "0xfeed")).
  - reflexivity.
  - simpl. right. left. reflexivity.
  - reflexivity.
  - reflexivity.
Defined.

(** An [eth_blockNumber] request: the provider answers [0x65]. *)
Lemma eth_blockNumber_request_is_forwarded :
  let request := Samples.request "eth_blockNumber" (JArr []) in
  let w := Samples.constantWrapper (Ok (JStr "0x65")) in
  Server.inHandlers (ToString Reference.runtime (Server.method request)) = false /\
  fst (Server.handle Reference.runtime w Samples.connection request)
  = [Server.Forwarded (JStr "eth_blockNumber") (JArr [])] /\
  snd (Server.handle Reference.runtime w Samples.connection request)
  = Server.Sent (JObj [("jsonrpc", JStr "2.0"); ("id", JNum 1);
                       ("result", JStr "0x65")]).
Proof.
  intros request w.
  destruct (unlisted_request_is_forwarded_as_it_came Reference.runtime w
              Samples.connection request eq_refl eq_refl) as (Hev & Hok & _).
  split; [reflexivity|]. split; [exact Hev|].
  apply Hok. reflexivity.
Defined.

(** An [eth_blockNumber] request on which the provider fails with the
    text [boom]: the response has an [error] member. *)
Lemma failed_eth_blockNumber_request_is_answered :
  let request := Samples.request "eth_blockNumber" (JArr []) in
  let w := Samples.constantWrapper (Thrown (JStr "boom")) in
  Server.describable (JStr "boom") = true /\
  exists member value,
    snd (Server.handle Reference.runtime w Samples.connection request)
    = Server.Sent (JObj [("jsonrpc", JStr "2.0"); ("id", JNum 1);
                         (member, value)]) /\
    (member = "result" \/ member = "error").
Proof.
  intros request w.
  assert (Hthrown : forall exception,
             snd (Server.dispatch Reference.runtime w
                    (Server.socketOf Samples.connection request) request)
             = Thrown exception ->
             nullish exception = false ->
             Server.describable exception = true).
  { intros exception [= <-] _. reflexivity. }
  split; [reflexivity|].
  pose proof (every_response_has_one_outcome_member Reference.runtime w
                Samples.connection request Hthrown) as H.
  destruct (snd (Server.handle Reference.runtime w Samples.connection request))
    as [response|e] eqn:E; [|discriminate E].
  destruct H as (_ & member & value & -> & Hm).
  exists member, value. split; [reflexivity|exact Hm].
Defined.

(** An [eth_sign] request whose parameters are given by name: the
    method is called with the socket context alone. *)
Lemma eth_sign_with_named_params :
  let request := Samples.request "eth_sign"
                   (JObj [("address", JStr "0xAB"); ("message", JStr "hi")]) in
  let w := Samples.constantWrapper (Ok (JStr "0x5161")) in
  Server.handle Reference.runtime w Samples.connection request
  = ([Server.Handled "eth_sign" [Server.socketOf Samples.connection request]],
     Server.Sent (JObj [("jsonrpc", JStr "2.0"); ("id", JNum 1);
                        ("result", JStr "0x5161")])).
Proof.
  intros request w.
  apply (named_params_are_dropped Reference.runtime w
           Samples.connection request "eth_sign"
           (Server.processEthSignMessage w) (JStr "0x5161")).
  - reflexivity.
  - simpl. right. right. left. reflexivity.
  - left. eexists. split; reflexivity.
  - reflexivity.
Defined.

(** The sample exception is answered with the error of its body. *)
Lemma body_of_the_sample_exception :
  Server.normalize Reference.runtime MoreSamples.bodiedException
  = Ok (JObj [("code", JNum (-32000)); ("message", JStr "nope")]).
Proof.
  assert (Hwf : wellFormed MoreSamples.bodiedException) by well_formed.
  destruct (body_of_a_coded_exception_is_the_answer Reference.runtime
              MoreSamples.bodiedException reference_runtime_round_trips
              Hwf eq_refl) as [Hbody _].
  exact (Hbody _ eq_refl).
Defined.

(** With an interleave of 5 and the node at epoch 96 after epoch 100,
    the call is evaluated at epoch 91, from the first account. *)
Lemma call_at_epoch_96_is_evaluated_at_91 :
  Conflux.getEpochNumber (Samples.confluxNode 96 5) (Some "latest_state") = Ok 96 /\
  safeNatural 96 /\ safeNatural 5 /\ safeNatural 100 /\
  exists w',
    Conflux.lastKnownEpochNumber w' = 96 /\
    ConfluxReads.call Samples.confluxWrapper (Samples.confluxNode 96 5)
      MoreSamples.sdk [("to", JStr "0x01")] (JStr "latest_state")
    = ([Conflux.HarmlessRollback 100 96],
       [ConfluxReads.GetEpochNumber "latest_state";
        ConfluxReads.ConfluxCall
          (JObj [("to", JStr "0x01"); ("from", JStr "0xAB")]) 91],
       w',
       Ok (JStr "0x2a")).
Proof.
  assert (H96 : safeNatural 96) by (unfold safeNatural; lia).
  assert (H5 : safeNatural 5) by (unfold safeNatural; lia).
  assert (H100 : safeNatural 100) by (unfold safeNatural; lia).
  split; [reflexivity|]. split; [exact H96|]. split; [exact H5|].
  split; [exact H100|].
  destruct (proj1 (call_is_pinned_behind_the_observed_epoch
                     Samples.confluxWrapper
                     (Samples.confluxNode 96 5) MoreSamples.sdk
                     [("to", JStr "0x01")] (JStr "latest_state"))
                  96 eq_refl H96 H5 H100) as (w' & Hlast & _ & _ & Hok & _).
  exists w'. split; [exact Hlast|]. exact (Hok eq_refl).
Defined.

(** 21000 is written [0x5208]. *)
Lemma to0x_of_21000 :
  Conflux.to0x Reference.runtime (JNum 21000) = Ok "0x5208" /\
  String.prefix "0x" "0x5208" = true /\
  Conflux.to0x Reference.runtime (JStr "0x5208") = Ok "0x5208" /\
  HexString.to_Z "0x5208" = 21000 /\
  Conflux.to0x Reference.runtime (JObj [("toString", JNum 1)]) = Thrown TypeError.
Proof.
  destruct (to0x_prefixes_exactly_once Reference.runtime (JNum 21000))
    as (_ & _ & _ & Hok).
  destruct (Hok "0x5208" eq_refl) as (Hp & Hi & Hn).
  split; [reflexivity|]. split; [exact Hp|]. split; [exact Hi|].
  split; [apply (Hn 21000 eq_refl); discriminate|].
  apply (proj1 (to0x_prefixes_exactly_once Reference.runtime
                  (JObj [("toString", JNum 1)]))).
  right. reflexivity.
Defined.

(** The estimate for the sample transfer, and the gas it is submitted
    with. *)
Lemma estimateGas_of_the_sample_transfer :
  ConfluxReads.estimateGas Reference.runtime (Samples.confluxNode 101 5)
    MoreSamples.estimatedOptions
  = ([Conflux.EstimateGasAndCollateral MoreSamples.estimatedOptions], Ok "0x5208") /\
  getProp Samples.submittedPayload "gas" = JStr "0x5208" /\
  HexString.to_Z "0x5208" = 21000.
Proof.
  destruct (estimateGas_agrees_with_the_submitted_gas Reference.runtime
              Samples.confluxWrapper (Samples.confluxNode 101 5)
              (Samples.transfer "0xAB") MoreSamples.estimatedOptions
              Samples.submittedPayload
              (JObj [("gasLimit", JNum 21000); ("storageCollateralized", JNum 0)])
              21000) as (He & Hg & Hz).
  - vm_compute. right; right; right; left. reflexivity.
  - vm_compute. right; right; right; right; left. reflexivity.
  - reflexivity.
  - reflexivity.
  - split; [exact He|]. split; [exact Hg|]. apply Hz. discriminate.
Defined.

(** On network 1 the chain id answered is [0x46] and the one submitted
    is [0x1]. *)
Lemma chain_id_on_network_1 :
  getProp Samples.submittedPayload "chainId" = JStr "0x1" /\
  ConfluxReads.processChainId Samples.confluxWrapper = "0x46" /\
  JStr (ConfluxReads.processChainId Samples.confluxWrapper)
  <> getProp Samples.submittedPayload "chainId".
Proof.
  destruct (chain_id_answered_and_chain_id_submitted Reference.runtime
              Samples.confluxWrapper (Samples.confluxNode 101 5)
              (Samples.transfer "0xAB") Samples.submittedPayload)
    as (Hp & H1 & _ & Hiff).
  - vm_compute. right; right; right; right; left. reflexivity.
  - split; [exact Hp|]. split; [exact (H1 eq_refl)|].
    intros E. apply (proj1 Hiff E). reflexivity.
Defined.

(** The status of the sample node, and of a wrapper that is always
    synced. *)
Lemma syncing_status_of_the_sample_node :
  snd (ConfluxReads.getSyncingStatus Reference.runtime Samples.confluxWrapper
         MoreSamples.sdk)
  = Ok (JObj [("startingBlock", JStr "0x5a"); ("currentBlock", JStr "0x5f");
              ("highestBlock", JStr "0x65")]) /\
  ConfluxReads.getSyncingStatus Reference.runtime MoreSamples.callerPricedWrapper
    MoreSamples.sdk
  = ([], Ok (JBool false)).
Proof.
  split.
  - exact (proj2 (proj2 (proj2 (getSyncingStatus_never_fails Reference.runtime
                                  Samples.confluxWrapper MoreSamples.sdk)))
                 _ 90 95 101 eq_refl eq_refl eq_refl eq_refl eq_refl).
  - exact (proj1 (getSyncingStatus_never_fails Reference.runtime
                    MoreSamples.callerPricedWrapper MoreSamples.sdk) eq_refl).
Defined.

(** The payload of the sample transfer, at epoch 101 with nonce 7. *)
Lemma payload_of_the_sample_transfer :
  In (Conflux.SendTransaction Samples.submittedPayload)
     (fst (Conflux.processTransaction Reference.runtime Samples.confluxWrapper
             (Samples.confluxNode 101 5) (Samples.transfer "0xAB"))) /\
  exists current nonce props,
    Conflux.getEpochNumber (Samples.confluxNode 101 5) None = Ok current /\
    Conflux.getNextNonce (Samples.confluxNode 101 5)
      (getProp Samples.submittedPayload "from") = Ok nonce /\
    getProp Samples.submittedPayload "from"
    = jsOr (getProp (Samples.transfer "0xAB") "from")
           (nth 0%nat (map JStr (Conflux.getAccounts Samples.confluxWrapper))
                JUndefined) /\
    getProp Samples.submittedPayload "to" = getProp (Samples.transfer "0xAB") "to" /\
    getProp Samples.submittedPayload "data"
    = jsOr (getProp (Samples.transfer "0xAB") "data") JNull /\
    getProp Samples.submittedPayload "nonce" = JStr ("0x" ++ toString16 nonce) /\
    getProp Samples.submittedPayload "epochHeight"
    = JStr ("0x" ++ toString16 (current - 1)) /\
    Samples.submittedPayload = JObj props /\
    map fst props
    = ["from"; "to"; "gasPrice"; "value"; "data"; "nonce"; "epochHeight";
       "chainId"; "storageLimit"; "gas"].
Proof.
  assert (Hin : In (Conflux.SendTransaction Samples.submittedPayload)
                   (fst (Conflux.processTransaction Reference.runtime
                           Samples.confluxWrapper (Samples.confluxNode 101 5)
                           (Samples.transfer "0xAB")))).
  { vm_compute. right; right; right; right; left. reflexivity. }
  split; [exact Hin|].
  exact (submitted_payload_is_composed_from_the_node_state Reference.runtime
           Samples.confluxWrapper (Samples.confluxNode 101 5)
           (Samples.transfer "0xAB") Samples.submittedPayload Hin).
Defined.

(** The number 16 given as value is submitted as the text [10]. *)
Lemma value_16_is_submitted_as_10 :
  In (Conflux.SendTransaction MoreSamples.numericPayload)
     (fst (Conflux.processTransaction Reference.runtime Samples.confluxWrapper
             (Samples.confluxNode 101 5) MoreSamples.numericTransfer)) /\
  getProp MoreSamples.numericPayload "value" = JStr "10" /\
  String.prefix "0x" "10" = false.
Proof.
  assert (Hin : In (Conflux.SendTransaction MoreSamples.numericPayload)
                   (fst (Conflux.processTransaction Reference.runtime
                           Samples.confluxWrapper (Samples.confluxNode 101 5)
                           MoreSamples.numericTransfer))).
  { vm_compute. right; right; right; right; left. reflexivity. }
  split; [exact Hin|].
  destruct (numeric_value_is_submitted_without_prefix Reference.runtime
              Samples.confluxWrapper (Samples.confluxNode 101 5)
              MoreSamples.numericTransfer MoreSamples.numericPayload Hin)
    as (_ & _ & Hnum).
  apply (Hnum 16); [reflexivity|discriminate].
Defined.

(** On a node that cannot estimate, the gas 21000 of the caller is
    submitted. *)
Lemma estimation_fails_on_the_blind_node :
  In (Conflux.EstimateGasAndCollateral MoreSamples.pricedOptions)
     (fst (Conflux.processTransaction Reference.runtime
             MoreSamples.callerPricedWrapper MoreSamples.blindNode
             MoreSamples.pricedTransfer)) /\
  Conflux.estimateGasAndCollateral MoreSamples.blindNode MoreSamples.pricedOptions
  = Thrown (JStr "reverted") /\
  getProp MoreSamples.pricedPayload "storageLimit" = JStr "0x0" /\
  exists gas,
    Conflux.to0x Reference.runtime (getProp MoreSamples.pricedTransfer "gas")
    = Ok gas /\
    getProp MoreSamples.pricedPayload "gas" = JStr gas.
Proof.
  assert (Hin : In (Conflux.EstimateGasAndCollateral MoreSamples.pricedOptions)
                   (fst (Conflux.processTransaction Reference.runtime
                           MoreSamples.callerPricedWrapper MoreSamples.blindNode
                           MoreSamples.pricedTransfer))).
  { vm_compute. right; right; left. reflexivity. }
  split; [exact Hin|]. split; [reflexivity|].
  apply (proj2 (failed_estimation_falls_back_to_the_caller_gas Reference.runtime
                  MoreSamples.callerPricedWrapper MoreSamples.blindNode
                  MoreSamples.pricedTransfer MoreSamples.pricedOptions
                  (JStr "reverted") Hin eq_refl)).
  vm_compute. right; right; right; left. reflexivity.
Defined.

(** A caller's gas price of [0x77] is submitted under a ceiling of 5. *)
Lemma caller_price_0x77_over_ceiling_5 :
  Conflux.estimateGasPrice MoreSamples.callerPricedWrapper = false /\
  In (Conflux.SendTransaction MoreSamples.pricedPayload)
     (fst (Conflux.processTransaction Reference.runtime
             MoreSamples.callerPricedWrapper MoreSamples.blindNode
             MoreSamples.pricedTransfer)) /\
  getProp MoreSamples.pricedPayload "gasPrice" = JStr "0x77" /\
  HexString.to_Z "0x77" > Conflux.defaultGasPrice MoreSamples.callerPricedWrapper.
Proof.
  assert (Hin : In (Conflux.SendTransaction MoreSamples.pricedPayload)
                   (fst (Conflux.processTransaction Reference.runtime
                           MoreSamples.callerPricedWrapper MoreSamples.blindNode
                           MoreSamples.pricedTransfer))).
  { vm_compute. right; right; right; left. reflexivity. }
  split; [reflexivity|]. split; [exact Hin|].
  split; [|reflexivity].
  exact (proj1 (caller_gas_price_is_submitted_unchecked Reference.runtime
                  MoreSamples.callerPricedWrapper MoreSamples.blindNode
                  MoreSamples.pricedTransfer MoreSamples.pricedPayload
                  eq_refl Hin)).
Defined.

(** The sample transfer is submitted last, after four queries. *)
Lemma submission_of_the_sample_transfer_is_last :
  In (Conflux.SendTransaction Samples.submittedPayload)
     (fst (Conflux.processTransaction Reference.runtime Samples.confluxWrapper
             (Samples.confluxNode 101 5) (Samples.transfer "0xAB"))) /\
  exists before,
    fst (Conflux.processTransaction Reference.runtime Samples.confluxWrapper
           (Samples.confluxNode 101 5) (Samples.transfer "0xAB"))
    = (before ++ [Conflux.SendTransaction Samples.submittedPayload])%list /\
    (forall other, ~ In (Conflux.SendTransaction other) before) /\
    snd (Conflux.processTransaction Reference.runtime Samples.confluxWrapper
           (Samples.confluxNode 101 5) (Samples.transfer "0xAB"))
    = Conflux.sendTransaction (Samples.confluxNode 101 5) Samples.submittedPayload.
Proof.
  assert (Hin : In (Conflux.SendTransaction Samples.submittedPayload)
                   (fst (Conflux.processTransaction Reference.runtime
                           Samples.confluxWrapper (Samples.confluxNode 101 5)
                           (Samples.transfer "0xAB")))).
  { vm_compute. right; right; right; right; left. reflexivity. }
  split; [exact Hin|].
  exact (submission_is_the_last_call Reference.runtime Samples.confluxWrapper
           (Samples.confluxNode 101 5) (Samples.transfer "0xAB")
           Samples.submittedPayload Hin).
Defined.

(** Two checks in a row at epoch 96, after epoch 100. *)
Lemma rollback_check_at_epoch_96_twice :
  Conflux.checkRollbacks Samples.confluxWrapper (Samples.confluxNode 96 5)
  = ([Conflux.HarmlessRollback 100 96],
     Conflux.observe Samples.confluxWrapper 96, Ok 96) /\
  Conflux.interleaveEpochs (Conflux.observe Samples.confluxWrapper 96) = 5 /\
  Conflux.getAccounts (Conflux.observe Samples.confluxWrapper 96)
  = ["0xAB"; "0xCD"] /\
  Conflux.checkRollbacks (Conflux.observe Samples.confluxWrapper 96)
    (Samples.confluxNode 96 5)
  = ([], Conflux.observe Samples.confluxWrapper 96, Ok 96).
Proof.
  destruct (rollback_check_only_moves_the_epoch Samples.confluxWrapper
              (Samples.confluxNode 96 5) [Conflux.HarmlessRollback 100 96]
              (Conflux.observe Samples.confluxWrapper 96) 96 eq_refl)
    as (_ & _ & _ & _ & _ & _ & _ & Hi & _ & _ & _ & Ha & Hagain).
  split; [reflexivity|]. split; [exact Hi|]. split; [exact Ha|exact Hagain].
Defined.

(** Two accounts derived from the phrase [secret] on a chain where no
    identity is claimed yet. *)
Lemma setup_of_two_unclaimed_accounts :
  let w' :=
    {| Reef.accounts := ["0xAbCd5secret"; "0xAbCd5secret//0"];
       Reef.keyringPairs := ["5secret"; "5secret//0"];
       Reef.numAddresses := 2;
       Reef.seedPhrase := "";
       Reef.signers := [ {| Reef.substrate := "5secret" |};
                         {| Reef.substrate := "5secret//0" |} ] |} in
  let calls :=
    [Reef.IsClaimed "5secret"; Reef.ClaimDefaultAccount "5secret";
     Reef.GetAddress "5secret"; Reef.GetAddress "5secret";
     Reef.IsClaimed "5secret//0"; Reef.ClaimDefaultAccount "5secret//0";
     Reef.GetAddress "5secret//0"; Reef.GetAddress "5secret//0"] in
  Reef.setup MoreSamples.unclaimedChain (Reef.construct "secret" 2)
  = (calls, w', Ok tt) /\
  exists pairs,
    Forall2 (fun j pair =>
               Reef.addFromUri MoreSamples.unclaimedChain (Reef.uriOf "secret" j)
               = Ok pair) (seq 0 2) pairs /\
    Forall2 (fun pair account =>
               Reef.getAddress MoreSamples.unclaimedChain pair = Ok account)
            pairs (Reef.getAccounts w') /\
    Reef.keyringPairs w' = pairs /\
    Reef.signers w' = map (fun pair => {| Reef.substrate := pair |}) pairs /\
    Reef.addKeyringPair MoreSamples.unclaimedChain pairs = Ok tt /\
    length (Reef.getAccounts w') = 2%nat /\
    Reef.numAddresses w' = 2%nat.
Proof.
  intros w' calls.
  assert (H : Reef.setup MoreSamples.unclaimedChain (Reef.construct "secret" 2)
              = (calls, w', Ok tt)) by reflexivity.
  split; [exact H|].
  exact (setup_derives_one_account_per_path MoreSamples.unclaimedChain
           "secret" 2 calls w' H).
Defined.

(** [setup] run on a wrapper that holds an account already. *)
Lemma setup_again_keeps_the_first_account :
  let chain := Samples.reefChain (Ok tt) in
  let w' :=
    {| Reef.accounts := ["0xAbCd01"; "0xAbCd5"];
       Reef.keyringPairs := ["01"; "5"];
       Reef.numAddresses := 1;
       Reef.seedPhrase := "";
       Reef.signers := [ {| Reef.substrate := "01" |};
                         {| Reef.substrate := "5" |} ] |} in
  Gateway.consistent chain Samples.reefWrapper /\
  Reef.setup chain Samples.reefWrapper
  = ([Reef.IsClaimed "5"; Reef.GetAddress "5"], w', Ok tt) /\
  Gateway.consistent chain w' /\
  length (Reef.signers w') = length (Reef.getAccounts w') /\
  exists more,
    Reef.getAccounts w' = (Reef.getAccounts Samples.reefWrapper ++ more)%list.
Proof.
  intros chain w'.
  assert (Hc : Gateway.consistent chain Samples.reefWrapper)
    by (repeat constructor).
  split; [exact Hc|]. split; [reflexivity|].
  exact (setup_keeps_signers_in_step chain Samples.reefWrapper
           [Reef.IsClaimed "5"; Reef.GetAddress "5"] w' (Ok tt) Hc eq_refl).
Defined.

(** The identity derived from the phrase itself is claimed. *)
Lemma claim_of_the_first_unclaimed_identity :
  In (Reef.ClaimDefaultAccount "5secret")
     (fst (fst (Reef.setup MoreSamples.unclaimedChain (Reef.construct "secret" 2)))) /\
  Reef.isClaimed MoreSamples.unclaimedChain "5secret" = Ok false /\
  exists j, (j < Reef.numAddresses (Reef.construct "secret" 2))%nat /\
            Reef.addFromUri MoreSamples.unclaimedChain
              (Reef.uriOf (Reef.seedPhrase (Reef.construct "secret" 2)) j)
            = Ok "5secret".
Proof.
  assert (Hin : In (Reef.ClaimDefaultAccount "5secret")
                   (fst (fst (Reef.setup MoreSamples.unclaimedChain
                                (Reef.construct "secret" 2))))).
  { vm_compute. right; left. reflexivity. }
  split; [exact Hin|].
  exact (setup_claims_only_unclaimed_identities MoreSamples.unclaimedChain
           (Reef.construct "secret" 2) "5secret" Hin).
Defined.

(** A transfer from [0xabcd01] is signed by the signer of [0xAbCd01]. *)
Lemma transfer_from_0xabcd01_is_signed_by_01 :
  let tx :=
    JObj [("from", JStr "0xAbCd01"); ("to", JStr "0x01");
          ("value", JStr "0x10"); ("data", JUndefined);
          ("nonce", JNum 3); ("gasLimit", JUndefined);
          ("gasPrice", JUndefined)] in
  let params := Samples.transfer "0xabcd01" in
  let chain := Samples.reefChain (Ok tt) in
  In (Reef.SendTransaction "01" tx)
     (fst (fst (Reef.sendTransaction Reference.runtime chain params
                  Samples.reefWrapper))) /\
  exists wanted addr,
    jsOr (getProp params "from") (JStr "") = JStr wanted /\
    In {| Reef.substrate := "01" |} (Reef.signers Samples.reefWrapper) /\
    Reef.getAddress chain "01" = Ok addr /\
    toLowerCase addr = toLowerCase wanted /\
    getProp tx "from" = JStr addr /\
    getProp tx "to" = getProp params "to" /\
    getProp tx "value" = getProp params "value" /\
    getProp tx "data" = getProp params "data" /\
    getProp tx "gasLimit" = getProp params "gas" /\
    getProp tx "gasPrice" = getProp params "gasPrice" /\
    (if truthy (getProp params "nonce")
     then getProp tx "nonce" = getProp params "nonce"
     else Reef.getTransactionCount chain "01" = Ok (getProp tx "nonce")).
Proof.
  intros tx params chain.
  assert (Hin : In (Reef.SendTransaction "01" tx)
                   (fst (fst (Reef.sendTransaction Reference.runtime chain params
                                Samples.reefWrapper)))).
  { vm_compute. right; right; right; left. reflexivity. }
  split; [exact Hin|].
  exact (submitted_transaction_is_signed_by_its_sender Reference.runtime chain
           params Samples.reefWrapper "01" tx Hin).
Defined.

(** The second of two signers is found after the first was asked. *)
Lemma lookup_of_the_second_signer :
  let chain := Samples.reefChain (Ok tt) in
  let second := {| Reef.substrate := "02" |} in
  Reef.getSignerFromEvmAddress Reference.runtime chain (JStr "0xabcd02")
    MoreSamples.twoSigners
  = ([Reef.GetAddress "01"; Reef.GetAddress "02"], MoreSamples.twoSigners,
     Ok second) /\
  isAscii "0xabcd02" = true /\
  isAscii "0xAbCd01" = true /\
  isAscii "0xAbCd02" = true /\
  exists before after wanted addr,
    Reef.signers MoreSamples.twoSigners = (before ++ second :: after)%list /\
    JStr "0xabcd02" = JStr wanted /\
    Reef.getAddress chain (Reef.substrate second) = Ok addr /\
    toLowerCase addr = toLowerCase wanted /\
    Forall (fun other =>
              exists a,
                Reef.getAddress chain (Reef.substrate other) = Ok a /\
                toLowerCase a <> toLowerCase wanted) before /\
    [Reef.GetAddress "01"; Reef.GetAddress "02"]
    = map (fun other => Reef.GetAddress (Reef.substrate other))
          (before ++ [second])%list.
Proof.
  intros chain second.
  assert (Haddr : forall signer addr,
             In signer (Reef.signers MoreSamples.twoSigners) ->
             Reef.getAddress chain (Reef.substrate signer) = Ok addr ->
             isAscii addr = true).
  { intros signer addr [<-|[<-|[]]] [= <-]; reflexivity. }
  assert (Hwanted : forall wanted,
             JStr "0xabcd02" = JStr wanted -> isAscii wanted = true).
  { intros wanted [= <-]. reflexivity. }
  split; [reflexivity|]. do 3 (split; [reflexivity|]).
  exact (proj2 (proj1 (signer_lookup_answers_the_first_match Reference.runtime
                         chain (JStr "0xabcd02") MoreSamples.twoSigners
                         Haddr Hwanted)
                      [Reef.GetAddress "01"; Reef.GetAddress "02"]
                      MoreSamples.twoSigners second eq_refl)).
Defined.

(** The calls made for a transfer from the second of two signers. *)
Lemma calls_of_the_transfer_from_0xabcd02 :
  let tx :=
    JObj [("from", JStr "0xAbCd02"); ("to", JStr "0x01");
          ("value", JStr "0x10"); ("data", JUndefined);
          ("nonce", JNum 3); ("gasLimit", JUndefined);
          ("gasPrice", JUndefined)] in
  let params := Samples.transfer "0xabcd02" in
  let chain := Samples.reefChain (Ok tt) in
  In (Reef.SendTransaction "02" tx)
     (fst (fst (Reef.sendTransaction Reference.runtime chain params
                  MoreSamples.twoSigners))) /\
  exists before after,
    Reef.signers MoreSamples.twoSigners
    = (before ++ {| Reef.substrate := "02" |} :: after)%list /\
    fst (fst (Reef.sendTransaction Reference.runtime chain params
                MoreSamples.twoSigners))
    = (map (fun other => Reef.GetAddress (Reef.substrate other)) before
       ++ [Reef.GetAddress "02"; Reef.GetAddress "02"]
       ++ (if truthy (getProp params "nonce") then []
           else [Reef.GetTransactionCount "02"])
       ++ [Reef.SendTransaction "02" tx])%list.
Proof.
  intros tx params chain.
  assert (Hin : In (Reef.SendTransaction "02" tx)
                   (fst (fst (Reef.sendTransaction Reference.runtime chain params
                                MoreSamples.twoSigners)))).
  { vm_compute. right; right; right; right; left. reflexivity. }
  split; [exact Hin|].
  exact (claim_chain_submission_is_the_last_call Reference.runtime chain params
           MoreSamples.twoSigners "02" tx Hin).
Defined.
